(** * OpenAPI 3.0 to Swagger 2.0 converter: a shallow embedding

    The development follows [convert_openapi3_to_swagger2.py].  A parsed YAML
    document is a tree of Python values; every converter of the script is a
    function on such trees.  A Python exception raised during the traversal
    (an [AttributeError] on a value of the wrong shape, a [KeyError], a
    [TypeError]) aborts the conversion: converters return [option], with
    [None] standing for "an exception was raised".

    Two things a Python run can do are outside the model.  The interpreter
    bounds the depth of recursion, so on trees nested deeper than that bound
    [convert_schema] and [schema_to_parameter_fields] raise a
    [RecursionError] where the functions below return; and YAML admits
    mapping keys that are not strings, which the trees below cannot hold.
    Results are therefore stated for trees with string keys, and a statement
    that a converter raises is one-directional: [None] here means the script
    raises, not the converse. *)

From Stdlib Require Import List String Ascii ZArith Bool Lia Permutation Sorted.
From Stdlib Require Import Floats.SpecFloat.
Import ListNotations.
Local Open Scope string_scope.
Local Open Scope list_scope.

(** ** Document model *)

Set Warnings "-register-all".

(** The values [yaml.safe_load] produces for JSON-like documents.  Mappings are
    insertion-ordered ([dict] / [OrderedDict]); their keys are strings, as in
    JSON objects.  Strings are sequences of bytes (UTF-8), whose byte-wise
    order coincides with Python's code-point order. *)
Inductive value : Type :=
| VNone
| VBool (b : bool)
| VInt (z : Z)
| VFloat (f : spec_float)
| VStr (s : string)
| VList (items : list value)
| VDict (entries : list (string * value)).

Definition dict : Type := list (string * value).

(** Python truthiness, as used by [if value:] and [not content]. *)
Definition truthy (v : value) : bool :=
  match v with
  | VNone => false
  | VBool b => b
  | VInt z => negb (Z.eqb z 0)
  | VFloat (S754_zero _) => false
  | VFloat _ => true
  | VStr s => negb (String.eqb s "")
  | VList l => match l with [] => false | _ => true end
  | VDict d => match d with [] => false | _ => true end
  end.

Module Dict.

(** [key in d] / [d[key]]: the entry stored under [key]. *)
Fixpoint get (key : string) (d : dict) : option value :=
  match d with
  | [] => None
  | (k, v) :: rest => if String.eqb key k then Some v else get key rest
  end.

Definition mem (key : string) (d : dict) : bool :=
  match get key d with Some _ => true | None => false end.

(** [d[key] = v]: an existing key keeps its position, a new key is
    appended. *)
Fixpoint set (key : string) (v : value) (d : dict) : dict :=
  match d with
  | [] => [(key, v)]
  | (k, w) :: rest =>
      if String.eqb key k then (k, v) :: rest else (k, w) :: set key v rest
  end.

(** [d.pop(key, None)] for its effect on [d]. *)
Fixpoint pop (key : string) (d : dict) : dict :=
  match d with
  | [] => []
  | (k, w) :: rest =>
      if String.eqb key k then pop key rest else (k, w) :: pop key rest
  end.

(** [d.setdefault(key, v)] for its effect on [d]. *)
Definition setdefault (key : string) (v : value) (d : dict) : dict :=
  if mem key d then d else set key v d.

(** [d.update(other)]. *)
Definition update (d other : dict) : dict :=
  fold_left (fun acc kv => set (fst kv) (snd kv) acc) other d.

Definition keys (d : dict) : list string := map fst d.

(** [d[key]] for a key of [d]: the callers first test [key in d] or take
    [key] from an iteration over [d]. *)
Definition item (key : string) (d : dict) : value :=
  match get key d with Some v => v | None => VNone end.

(** [f(d[key])] when [key] is in [d]; the same as [option_map f (get key d)],
    written as a traversal so that [f] may be a recursive call. *)
Definition get_with {A : Type} (f : value -> A) (key : string)
  : dict -> option A :=
  fix go (d : dict) :=
    match d with
    | [] => None
    | (k, v) :: rest => if String.eqb key k then Some (f v) else go rest
    end.

End Dict.

(** [d.get(key)], with Python's [None] for a missing key. *)
Definition py_get (key : string) (d : dict) : value :=
  match Dict.get key d with Some v => v | None => VNone end.

(** [d.get(key, default)]. *)
Definition py_get_default (key : string) (default : value) (d : dict) : value :=
  match Dict.get key d with Some v => v | None => default end.

(** [x == "literal"] for an arbitrary value [x]. *)
Definition eq_str (v : value) (s : string) : bool :=
  match v with VStr t => String.eqb t s | _ => false end.

(** ** Strings *)

Definition startswith (s pre : string) : bool := String.prefix pre s.

(** [skip] characters of a match are still to be dropped. *)
Fixpoint replace_from (old new s : string) (skip : nat) : string :=
  match s with
  | EmptyString => EmptyString
  | String c rest =>
      match skip with
      | S n => replace_from old new rest n
      | O =>
          if String.prefix old s
          then new ++ replace_from old new rest (String.length old - 1)
          else String c (replace_from old new rest 0)
      end
  end.

(** [s.replace(old, new)] for a non-empty [old]: every non-overlapping
    occurrence, scanning from the left. *)
Definition replace (s old new : string) : string := replace_from old new s 0.

(** ** Reference rewriter *)

Definition convert_ref (ref : string) : string :=
  if startswith ref "#/components/schemas/" then
    replace ref "#/components/schemas/" "#/definitions/"
  else if startswith ref "#/components/parameters/" then
    replace ref "#/components/parameters/" "#/parameters/"
  else if startswith ref "#/components/responses/" then
    replace ref "#/components/responses/" "#/responses/"
  else if startswith ref "#/components/requestBodies/" then
    replace ref "#/components/requestBodies/" "#/x-requestBodies/"
  else if startswith ref "#/components/securitySchemes/" then
    replace ref "#/components/securitySchemes/" "#/securityDefinitions/"
  else ref.

(** ** Schema transformer *)

(** Error-propagating bind. *)
Definition bind {A B : Type} (m : option A) (k : A -> option B) : option B :=
  match m with Some a => k a | None => None end.

Notation "x <- m ;; k" := (bind m (fun x => k))
  (at level 61, m at next level, right associativity).

(** [[f(item) for item in items]]. *)
Definition map_list (f : value -> option value) : list value -> option (list value) :=
  fix go (items : list value) :=
    match items with
    | [] => Some []
    | item :: rest =>
        item' <- f item ;;
        rest' <- go rest ;;
        Some (item' :: rest')
    end.

(** The loop that fills [props] / [patterns]:
    [for name, sub in value.items(): acc[name] = f(sub)]. *)
Definition map_values (f : value -> option value) : dict -> dict -> option dict :=
  fix go (items : dict) (acc : dict) :=
    match items with
    | [] => Some acc
    | (name, sub) :: rest =>
        sub' <- f sub ;;
        go rest (Dict.set name sub' acc)
    end.

Definition is_composition (key : string) : bool :=
  existsb (String.eqb key) ["allOf"; "anyOf"; "oneOf"; "not"].

(** One iteration of the [for key, value in schema.items()] loop of
    [convert_schema]; [rec] is the recursive call. *)
Definition convert_schema_entry (rec : value -> option value)
    (key : string) (val : value) (converted : dict) : option dict :=
  if String.eqb key "$ref" then
    match val with
    | VStr ref => Some (Dict.set key (VStr (convert_ref ref)) converted)
    | _ => None
    end
  else if String.eqb key "nullable" then
    if truthy val then Some (Dict.set "x-nullable" (VBool true) converted)
    else Some converted
  else if String.eqb key "deprecated" then
    Some (Dict.set "x-deprecated" val converted)
  else if String.eqb key "discriminator" then
    Some (Dict.set "x-discriminator" val converted)
  else if String.eqb key "example" then
    Some (Dict.set "example" val converted)
  else if String.eqb key "examples" then
    Some (Dict.set "x-examples" val converted)
  else if is_composition key then
    if String.eqb key "not" then
      val' <- rec val ;; Some (Dict.set "x-not" val' converted)
    else
      val' <- rec val ;; Some (Dict.set ("x-" ++ key) val' converted)
  else if String.eqb key "items" || String.eqb key "additionalProperties" then
    val' <- rec val ;; Some (Dict.set key val' converted)
  else if String.eqb key "properties" then
    match val with
    | VDict items =>
        props <- map_values rec items [] ;;
        Some (Dict.set key (VDict props) converted)
    | _ => None
    end
  else if String.eqb key "patternProperties" then
    match val with
    | VDict items =>
        patterns <- map_values rec items [] ;;
        Some (Dict.set key (VDict patterns) converted)
    | _ => None
    end
  else if String.eqb key "xml" then
    Some (Dict.set key val converted)
  else
    val' <- rec val ;; Some (Dict.set key val' converted).

Definition convert_schema_items (rec : value -> option value)
  : dict -> dict -> option dict :=
  fix go (items : dict) (converted : dict) :=
    match items with
    | [] => Some converted
    | (key, val) :: rest =>
        converted' <- convert_schema_entry rec key val converted ;;
        go rest converted'
    end.

Fixpoint convert_schema (schema : value) : option value :=
  match schema with
  | VList items =>
      items' <- map_list convert_schema items ;; Some (VList items')
  | VDict entries =>
      converted <- convert_schema_items convert_schema entries [] ;;
      Some (VDict converted)
  | _ => Some schema
  end.

(** ** Shared loops *)

Module Ext.

(** [for key in src: if key.startswith("x-"): dst[key] = src[key]]. *)
Definition copy_entry (src : dict) (dst : dict) (key : string) : dict :=
  if startswith key "x-" then Dict.set key (Dict.item key src) dst else dst.

Definition copy (src dst : dict) : dict :=
  fold_left (copy_entry src) (Dict.keys src) dst.

End Ext.

(** [OrderedDict((name, f(x)) for name, x in items.items())], and the loops
    of the same shape that assign [acc[name] = f(x)] one entry at a time. *)
Definition build_dict (f : value -> option value) (items : dict) : option dict :=
  map_values f items [].

(** [dict.fromkeys(l)], read back as a list: first occurrences, in order. *)
Fixpoint dict_fromkeys (l : list string) : list string :=
  match l with
  | [] => []
  | x :: rest =>
      x :: filter (fun y => negb (String.eqb x y)) (dict_fromkeys rest)
  end.

Fixpoint insert_sorted (x : string) (l : list string) : list string :=
  match l with
  | [] => [x]
  | y :: rest => if String.leb x y then x :: l else y :: insert_sorted x rest
  end.

(** [sorted(l)] on strings.  The order is total, so the sorted arrangement of
    duplicate-free input does not depend on the sorting algorithm. *)
Definition sorted (l : list string) : list string :=
  fold_right insert_sorted [] l.

Definition media_types (l : list string) : value := VList (map VStr l).

(** The three components of [urllib.parse.ParseResult] that [parse_server]
    reads. *)
Record ParseResult : Type := mkParseResult {
  scheme : string;
  netloc : string;
  path : string
}.

Definition PARAMETER_PRIMITIVE_FIELDS : list string :=
  [ "type"; "format"; "default"; "maximum"; "exclusiveMaximum"; "minimum";
    "exclusiveMinimum"; "maxLength"; "minLength"; "pattern"; "maxItems";
    "minItems"; "uniqueItems"; "multipleOf"; "enum"; "collectionFormat";
    "x-nullable"; "x-deprecated"; "x-example"; "x-examples" ].

Definition is_dict (v : value) : bool :=
  match v with VDict _ => true | _ => false end.

Definition is_none (v : value) : bool :=
  match v with VNone => true | _ => false end.

(** [s in t] for strings: [s] occurs in [t]. *)
Fixpoint contains (t s : string) : bool :=
  String.prefix s t ||
  match t with
  | EmptyString => false
  | String _ rest => contains rest s
  end.

Section Converter.

(** [PARAMETER_PRIMITIVE_FIELDS] is a Python [set]: the order in which the
    [for field in ...] loop visits it is fixed per run but unspecified.  The
    converters take that order as a parameter; a run uses some arrangement of
    [PARAMETER_PRIMITIVE_FIELDS], and the theorems below hold for any list. *)
Variable field_order : list string.

(** [urllib.parse.urlparse], from the Python standard library. *)
Variable urlparse : value -> option ParseResult.

(** *** Parameter extractor *)

Definition copy_field (schema : dict) (result : dict) (field : string) : dict :=
  if Dict.mem field schema then Dict.set field (Dict.item field schema) result
  else result.

Definition copy_new_extension (result : dict) (kv : string * value) : dict :=
  if startswith (fst kv) "x-" && negb (Dict.mem (fst kv) result)
  then Dict.set (fst kv) (snd kv) result
  else result.

Fixpoint schema_to_parameter_fields (schema : value) : option dict :=
  match schema with
  | VDict s =>
      result <-
        (if eq_str (py_get "type" s) "array" && is_dict (py_get "items" s)
         then
           match Dict.get_with schema_to_parameter_fields "items" s with
           | Some inner =>
               fields <- inner ;; Some (Dict.set "items" (VDict fields) [])
           | None => None
           end
         else Some []) ;;
      let result := fold_left (copy_field s) field_order result in
      Some (fold_left copy_new_extension s result)
  | _ => None
  end.

(** *** Parameter converter *)

Definition copy_parameter_key (parameter : dict) (new_param : dict)
    (key : string) : dict :=
  if Dict.mem key parameter then
    if String.eqb key "deprecated"
    then Dict.set "x-deprecated" (Dict.item key parameter) new_param
    else Dict.set key (Dict.item key parameter) new_param
  else new_param.

(** The [style] / [explode] block of [convert_parameter]. *)
Definition apply_style (parameter : dict) (new_param : dict) : dict :=
  let new_param :=
    if eq_str (py_get "style" parameter) "form"
       && truthy (py_get "explode" parameter)
    then Dict.set "collectionFormat" (VStr "multi") new_param
    else if eq_str (py_get "style" parameter) "form"
    then Dict.set "collectionFormat" (VStr "csv") new_param
    else new_param in
  let new_param :=
    if eq_str (py_get "style" parameter) "spaceDelimited"
    then Dict.set "collectionFormat" (VStr "ssv") new_param
    else new_param in
  if eq_str (py_get "style" parameter) "pipeDelimited"
  then Dict.set "collectionFormat" (VStr "pipes") new_param
  else new_param.

(** The [if schema:] block of the non-body branch. *)
Definition flatten_schema_into (schema : value) (new_param : dict)
  : option dict :=
  if truthy schema then
    converted_schema <- convert_schema schema ;;
    fields <- schema_to_parameter_fields converted_schema ;;
    let new_param := Dict.update new_param fields in
    match converted_schema with
    | VDict cs =>
        if Dict.mem "example" cs && negb (Dict.mem "x-example" new_param)
        then Some (Dict.set "x-example" (Dict.item "example" cs) new_param)
        else Some new_param
    | _ => None
    end
  else Some new_param.

Definition convert_parameter (parameter : value) : option dict :=
  match parameter with
  | VDict p =>
      let new_param :=
        fold_left (copy_parameter_key p)
          ["name"; "in"; "description"; "required"; "deprecated";
           "allowEmptyValue"] [] in
      if eq_str (py_get "in" p) "body" then
        schema <- convert_schema (py_get_default "schema" (VDict []) p) ;;
        let new_param :=
          if truthy schema then Dict.set "schema" schema new_param
          else new_param in
        Some (Ext.copy p new_param)
      else
        new_param <- flatten_schema_into (py_get "schema" p) new_param ;;
        let new_param := apply_style p new_param in
        Some (Ext.copy p new_param)
  | _ => None
  end.

(** [[convert_parameter(p) for p in parameters]].  Iterating a non-empty
    mapping or string hands strings to [convert_parameter], whose [.get]
    raises on them; [None], numbers and booleans are not iterable. *)
Definition convert_parameters (parameters : value) : option (list value) :=
  match parameters with
  | VList ps => map_list (fun p => option_map VDict (convert_parameter p)) ps
  | VDict [] => Some []
  | VStr EmptyString => Some []
  | _ => None
  end.

(** *** Request body converter *)

(** [payload["value"] if isinstance(payload, dict) and "value" in payload
    else payload]. *)
Definition unwrap_example (payload : value) : value :=
  match payload with
  | VDict p => if Dict.mem "value" p then Dict.item "value" p else payload
  | _ => payload
  end.

Definition extract_examples (examples : dict) : dict :=
  fold_left (fun extracted np => Dict.set (fst np) (unwrap_example (snd np)) extracted)
    examples [].

Definition convert_request_body (request_body : value)
  : option (dict * list string) :=
  match request_body with
  | VDict rb =>
      let content := py_get_default "content" (VDict []) rb in
      if negb (truthy content) then Some ([], [])
      else
        match content with
        | VDict ((media_type, media_obj) :: _) =>
            match media_obj with
            | VDict mo =>
                let consumes := [media_type] in
                let body_param :=
                  Dict.set "in" (VStr "body")
                    (Dict.set "name" (VStr "body") []) in
                let body_param :=
                  if truthy (py_get "description" rb)
                  then Dict.set "description" (Dict.item "description" rb) body_param
                  else body_param in
                let body_param :=
                  Dict.set "required"
                    (py_get_default "required" (VBool false) rb) body_param in
                let schema := py_get "schema" mo in
                body_param <-
                  (if truthy schema
                   then schema' <- convert_schema schema ;;
                        Some (Dict.set "schema" schema' body_param)
                   else Some body_param) ;;
                let example := py_get "example" mo in
                let body_param :=
                  if negb (is_none example)
                  then Dict.set "x-example" example body_param
                  else body_param in
                let body_param :=
                  match py_get "examples" mo with
                  | VDict examples =>
                      let extracted := extract_examples examples in
                      if truthy (VDict extracted)
                      then Dict.set "x-examples" (VDict extracted) body_param
                      else body_param
                  | _ => body_param
                  end in
                Some (Ext.copy rb body_param, consumes)
            | _ => None
            end
        | _ => None
        end
  | _ => None
  end.

(** *** Header converter *)

Definition convert_header (header : value) : option dict :=
  match header with
  | VDict h =>
      let new_header :=
        if Dict.mem "description" h
        then Dict.set "description" (Dict.item "description" h) []
        else [] in
      let schema := py_get "schema" h in
      new_header <-
        (if truthy schema then
           converted_schema <- convert_schema schema ;;
           fields <- schema_to_parameter_fields converted_schema ;;
           Some (Dict.update new_header fields)
         else Some new_header) ;;
      Some (Ext.copy h new_header)
  | _ => None
  end.
(** *** Responses converter *)

(** [new_response.setdefault("examples", OrderedDict())[media_type] = v]:
    the mapping stored under [examples] is updated in place. *)
Definition put_example (media_type : string) (v : value) (new_response : dict)
  : dict :=
  let dest :=
    match Dict.get "examples" new_response with
    | Some (VDict d) => d
    | _ => []
    end in
  Dict.set "examples" (VDict (Dict.set media_type v dest)) new_response.

(** The [if content:] block of [convert_responses]; returns the response
    under construction and the media types appended to [produces]. *)
Definition convert_content (content : value) (new_response : dict)
  : option (dict * list string) :=
  if truthy content then
    match content with
    | VDict ((media_type, media_obj) :: _) =>
        match media_obj with
        | VDict mo =>
            let schema := py_get "schema" mo in
            new_response <-
              (if String.eqb media_type "application/pdf" then
                 Some (Dict.set "schema" (VDict [("type", VStr "file")])
                         new_response)
               else if truthy schema then
                 schema' <- convert_schema schema ;;
                 Some (Dict.set "schema" schema' new_response)
               else Some new_response) ;;
            let example := py_get "example" mo in
            let new_response :=
              if negb (is_none example)
              then put_example media_type example new_response
              else new_response in
            let new_response :=
              match py_get "examples" mo with
              | VDict examples =>
                  fold_left
                    (fun acc np => put_example media_type (unwrap_example (snd np)) acc)
                    examples
                    (Dict.setdefault "examples" (VDict []) new_response)
              | _ => new_response
              end in
            Some (new_response, [media_type])
        | _ => None
        end
    | _ => None
    end
  else Some (new_response, []).

(** The body of the [for status, response in responses.items()] loop. *)
Definition convert_response (response : value) : option (dict * list string) :=
  match response with
  | VDict r =>
      let new_response :=
        Dict.set "description" (py_get_default "description" (VStr "") r) [] in
      let headers := py_get "headers" r in
      new_response <-
        (if truthy headers then
           match headers with
           | VDict hs =>
               header_map <-
                 build_dict (fun h => option_map VDict (convert_header h)) hs ;;
               if truthy (VDict header_map)
               then Some (Dict.set "headers" (VDict header_map) new_response)
               else Some new_response
           | _ => None
           end
         else Some new_response) ;;
      res <- convert_content (py_get_default "content" (VDict []) r) new_response ;;
      Some (Ext.copy r (fst res), snd res)
  | _ => None
  end.

Fixpoint convert_responses_loop (items : dict) (converted_responses : dict)
    (produces : list string) : option (dict * list string) :=
  match items with
  | [] => Some (converted_responses, produces)
  | (status, response) :: rest =>
      res <- convert_response response ;;
      convert_responses_loop rest
        (Dict.set status (VDict (fst res)) converted_responses)
        (produces ++ snd res)
  end.

Definition convert_responses (responses : value)
  : option (dict * list string) :=
  match responses with
  | VDict rs => convert_responses_loop rs [] []
  | _ => None
  end.

(** *** Operation converter *)

Definition copy_operation_key (operation : dict) (converted : dict)
    (key : string) : dict :=
  if Dict.mem key operation
  then Dict.set key (Dict.item key operation) converted
  else converted.

(** The body of the final [for key in operation] loop. *)
Definition operation_extension (operation : dict) (converted : dict)
    (key : string) : dict :=
  let converted := Ext.copy_entry operation converted key in
  let converted :=
    if String.eqb key "callbacks"
    then Dict.set "x-callbacks" (Dict.item key operation) converted
    else converted in
  if String.eqb key "servers"
  then Dict.set "x-servers" (Dict.item key operation) converted
  else converted.

Definition convert_operation (operation : value)
  : option (dict * list string * list string) :=
  match operation with
  | VDict op =>
      let converted_operation :=
        fold_left (copy_operation_key op)
          ["tags"; "summary"; "description"; "operationId"; "deprecated";
           "security"; "externalDocs"] [] in
      let converted_operation :=
        if Dict.mem "deprecated" op
        then Dict.set "deprecated" (Dict.item "deprecated" op) converted_operation
        else converted_operation in
      parameters <- convert_parameters (py_get_default "parameters" (VList []) op) ;;
      pc <-
        match py_get "requestBody" op with
        | VDict rb =>
            res <- convert_request_body (VDict rb) ;;
            let parameters :=
              if truthy (VDict (fst res))
              then parameters ++ [VDict (fst res)]
              else parameters in
            Some (parameters, snd res)
        | _ => Some (parameters, [])
        end ;;
      let parameters := fst pc in
      let consumes := snd pc in
      let converted_operation :=
        if truthy (VList parameters)
        then Dict.set "parameters" (VList parameters) converted_operation
        else converted_operation in
      rp <- convert_responses (py_get_default "responses" (VDict []) op) ;;
      let produces := snd rp in
      let converted_operation :=
        Dict.set "responses" (VDict (fst rp)) converted_operation in
      let converted_operation :=
        match consumes with
        | [] => converted_operation
        | _ => Dict.set "consumes" (media_types (sorted (dict_fromkeys consumes)))
                 converted_operation
        end in
      let converted_operation :=
        match produces with
        | [] => converted_operation
        | _ => Dict.set "produces" (media_types (sorted (dict_fromkeys produces)))
                 converted_operation
        end in
      Some (fold_left (operation_extension op) (Dict.keys op) converted_operation,
            consumes, produces)
  | _ => None
  end.

(** *** Path item converter *)

Definition HTTP_METHODS : list string :=
  ["get"; "put"; "post"; "delete"; "options"; "head"; "patch"].

Fixpoint convert_methods (path_item : dict) (methods : list string)
    (converted_path : dict) : option dict :=
  match methods with
  | [] => Some converted_path
  | method :: rest =>
      if Dict.mem method path_item then
        res <- convert_operation (Dict.item method path_item) ;;
        convert_methods path_item rest
          (Dict.set method (VDict (fst (fst res))) converted_path)
      else convert_methods path_item rest converted_path
  end.

Definition path_extension (path_item : dict) (converted : dict)
    (key : string) : dict :=
  let converted := Ext.copy_entry path_item converted key in
  if String.eqb key "servers"
  then Dict.set "x-servers" (Dict.item key path_item) converted
  else converted.

(** What the final loop of [convert_path_item] does with an element [key]
    of a list: [key.startswith] needs a string, and subscripting the list
    with a string raises. *)
Definition inert_key (key : value) : bool :=
  match key with
  | VStr s => negb (startswith s "x-") && negb (String.eqb s "servers")
  | _ => false
  end.

(** A mapping is converted entry by entry.  On a string the [in] tests are
    substring tests and the final loop sees single characters; on a list
    they are membership tests.  Both yield the empty mapping unless a test
    succeeds and the subscript that follows raises. *)
Definition convert_path_item (path_item : value) : option dict :=
  match path_item with
  | VDict pi =>
      converted_path <-
        (if Dict.mem "parameters" pi then
           parameters <- convert_parameters (Dict.item "parameters" pi) ;;
           Some (Dict.set "parameters" (VList parameters) [])
         else Some []) ;;
      converted_path <- convert_methods pi HTTP_METHODS converted_path ;;
      Some (fold_left (path_extension pi) (Dict.keys pi) converted_path)
  | VStr s =>
      if existsb (contains s) ("parameters" :: HTTP_METHODS) then None
      else Some []
  | VList l =>
      if existsb (fun k => existsb (fun v => eq_str v k) l)
           ("parameters" :: HTTP_METHODS)
      then None
      else if forallb inert_key l then Some [] else None
  | _ => None
  end.

(** *** Server splitter *)

Definition parse_server (server : value)
  : option (string * string * list string) :=
  match server with
  | VDict s =>
      let url := py_get_default "url" (VStr "/") s in
      parsed <- urlparse url ;;
      let schemes :=
        if negb (String.eqb (scheme parsed) "") then [scheme parsed] else [] in
      let host :=
        if negb (String.eqb (netloc parsed) "") then netloc parsed else "" in
      let base_path :=
        if negb (String.eqb (path parsed) "") then path parsed else "" in
      Some (host, base_path, schemes)
  | _ => None
  end.

(** *** Components converter *)

(** The body of the [for name, scheme in security.items()] loop. *)
Definition convert_security_scheme (scheme : value) : option dict :=
  match scheme with
  | VDict scheme_copy =>
      let scheme_copy :=
        if eq_str (py_get "type" scheme_copy) "http" then
          if eq_str (py_get "scheme" scheme_copy) "basic" then
            let scheme_copy := Dict.set "type" (VStr "basic") scheme_copy in
            Dict.pop "scheme" scheme_copy
          else if eq_str (py_get "scheme" scheme_copy) "bearer" then
            let scheme_copy := Dict.set "type" (VStr "apiKey") scheme_copy in
            let scheme_copy :=
              Dict.set "name"
                (py_get_default "name" (VStr "Authorization") scheme_copy)
                scheme_copy in
            let scheme_copy :=
              Dict.set "in" (py_get_default "in" (VStr "header") scheme_copy)
                scheme_copy in
            let scheme_copy :=
              Dict.set "x-original-http-scheme" (VStr "bearer") scheme_copy in
            Dict.pop "scheme" scheme_copy
          else scheme_copy
        else scheme_copy in
      Some (Dict.setdefault "x-ms-visibility" (VStr "important") scheme_copy)
  | _ => None
  end.

(** [convert_responses({"default": response})] unwrapped again. *)
Definition convert_component_response (response : value) : option value :=
  res <- convert_responses (VDict [("default", response)]) ;;
  Some (py_get_default "default" (VDict []) (fst res)).

(** One [if section: converted[target] = ...] block. *)
Definition convert_section (f : value -> option value) (target : string)
    (section : value) (converted : dict) : option dict :=
  if truthy section then
    match section with
    | VDict entries =>
        out <- build_dict f entries ;;
        Some (Dict.set target (VDict out) converted)
    | _ => None
    end
  else Some converted.

Definition convert_components (components : value) : option dict :=
  match components with
  | VDict c =>
      converted <-
        convert_section convert_schema "definitions" (py_get "schemas" c) [] ;;
      converted <-
        convert_section (fun p => option_map VDict (convert_parameter p))
          "parameters" (py_get "parameters" c) converted ;;
      converted <-
        convert_section convert_component_response
          "responses" (py_get "responses" c) converted ;;
      convert_section (fun s => option_map VDict (convert_security_scheme s))
        "securityDefinitions" (py_get "securitySchemes" c) converted
  | _ => None
  end.

(** *** Document converter *)

Definition copy_if_truthy (openapi_spec : dict) (key : string) (swagger : dict)
  : dict :=
  if truthy (py_get key openapi_spec)
  then Dict.set key (Dict.item key openapi_spec) swagger
  else swagger.

(** The [if servers:] block.  [servers[0]] needs a list: on a mapping with
    string keys it is a [KeyError], on a string it hands a character to
    [parse_server], other values are not subscriptable. *)
Definition apply_servers (servers : value) (swagger : dict) : option dict :=
  if truthy servers then
    match servers with
    | VList (first :: _) =>
        res <- parse_server first ;;
        let '(host, base_path, schemes) := res in
        let swagger :=
          if negb (String.eqb host "")
          then Dict.set "host" (VStr host) swagger else swagger in
        let swagger :=
          if negb (String.eqb base_path "") && negb (String.eqb base_path "/")
          then Dict.set "basePath" (VStr base_path) swagger else swagger in
        let swagger :=
          if truthy (media_types schemes)
          then Dict.set "schemes" (media_types schemes) swagger else swagger in
        Some swagger
    | _ => None
    end
  else Some swagger.

Definition convert_openapi_to_swagger (openapi_spec : value) : option dict :=
  match openapi_spec with
  | VDict spec =>
      let swagger := Dict.set "swagger" (VStr "2.0") [] in
      let swagger :=
        Dict.set "info" (py_get_default "info" (VDict []) spec) swagger in
      let swagger :=
        Dict.set "consumes" (VList [VStr "application/json"]) swagger in
      let swagger :=
        Dict.set "produces" (VList [VStr "application/json"]) swagger in
      let swagger :=
        Dict.set "x-ms-connector-metadata"
          (VDict [("categories", VList [VStr "eSignature"]);
                  ("visibility", VStr "important")]) swagger in
      let servers :=
        if truthy (py_get "servers" spec) then py_get "servers" spec
        else VList [] in
      swagger <- apply_servers servers swagger ;;
      let swagger := copy_if_truthy spec "tags" swagger in
      let swagger := copy_if_truthy spec "externalDocs" swagger in
      let swagger := copy_if_truthy spec "security" swagger in
      let components :=
        if truthy (py_get "components" spec) then py_get "components" spec
        else VDict [] in
      converted_components <- convert_components components ;;
      let swagger := Dict.update swagger converted_components in
      match py_get_default "paths" (VDict []) spec with
      | VDict paths =>
          converted_paths <-
            build_dict (fun pi => option_map VDict (convert_path_item pi)) paths ;;
          let swagger := Dict.set "paths" (VDict converted_paths) swagger in
          Some (Ext.copy spec swagger)
      | _ => None
      end
  | _ => None
  end.

End Converter.

(** ** A model of [urllib.parse.urlparse]

    The standard-library function, restricted to the three components
    [parse_server] reads.  Network locations that contain brackets or
    non-ASCII characters go through validation steps (address parsing,
    Unicode normalisation) that are not reproduced here: the model gives
    [None] for them, which there says nothing about the library.  The
    converters take the parser as a parameter; this model only instantiates
    it on ASCII URLs without brackets, where it follows the library step by
    step. *)
Module Url.

Definition code (c : ascii) : nat := nat_of_ascii c.

Definition is_c0_or_space (c : ascii) : bool := Nat.leb (code c) 32.

Definition is_unsafe (c : ascii) : bool :=
  Nat.eqb (code c) 9 || Nat.eqb (code c) 13 || Nat.eqb (code c) 10.

Definition is_upper (c : ascii) : bool :=
  Nat.leb 65 (code c) && Nat.leb (code c) 90.

Definition is_lower (c : ascii) : bool :=
  Nat.leb 97 (code c) && Nat.leb (code c) 122.

Definition is_digit (c : ascii) : bool :=
  Nat.leb 48 (code c) && Nat.leb (code c) 57.

Definition is_alpha (c : ascii) : bool := is_upper c || is_lower c.

Definition is_scheme_char (c : ascii) : bool :=
  is_alpha c || is_digit c
  || Nat.eqb (code c) 43 || Nat.eqb (code c) 45 || Nat.eqb (code c) 46.

Definition lower (c : ascii) : ascii :=
  if is_upper c then ascii_of_nat (code c + 32) else c.

Fixpoint lstrip (s : string) : string :=
  match s with
  | String c rest => if is_c0_or_space c then lstrip rest else s
  | EmptyString => s
  end.

Fixpoint remove (p : ascii -> bool) (s : string) : string :=
  match s with
  | String c rest => if p c then remove p rest else String c (remove p rest)
  | EmptyString => EmptyString
  end.

Fixpoint map_string (f : ascii -> ascii) (s : string) : string :=
  match s with
  | String c rest => String (f c) (map_string f rest)
  | EmptyString => EmptyString
  end.

Fixpoint all (p : ascii -> bool) (s : string) : bool :=
  match s with
  | String c rest => p c && all p rest
  | EmptyString => true
  end.

(** [s] cut at the first character satisfying [p]: the part before it and,
    when there is one, the part from that character on. *)
Fixpoint break (p : ascii -> bool) (s : string) : string * option string :=
  match s with
  | EmptyString => (EmptyString, None)
  | String c rest =>
      if p c then (EmptyString, Some s)
      else let '(before, found) := break p rest in (String c before, found)
  end.

Definition is_char (n : nat) (c : ascii) : bool := Nat.eqb (code c) n.

Definition tail (s : string) : string :=
  match s with String _ rest => rest | EmptyString => EmptyString end.

(** The scheme step of [urlsplit]. *)
Definition split_scheme (url : string) : string * string :=
  match break (is_char 58) url with
  | (String c0 before, Some rest) =>
      if is_alpha c0 && all is_scheme_char (String c0 before)
      then (map_string lower (String c0 before), tail rest)
      else (EmptyString, url)
  | _ => (EmptyString, url)
  end.

(** [_splitnetloc(url, 2)] after the test [url[:2] == '//']. *)
Definition split_netloc (url : string) : string * string :=
  match url with
  | String a (String b rest) =>
      if is_char 47 a && is_char 47 b then
        let '(domain, found) :=
          break (fun c => is_char 47 c || is_char 63 c || is_char 35 c) rest in
        (domain, match found with Some r => r | None => EmptyString end)
      else (EmptyString, url)
  | _ => (EmptyString, url)
  end.

(** The index of the last ['/'] in [s], if any. *)
Fixpoint rfind_slash (s : string) (pos : nat) (last : option nat) : option nat :=
  match s with
  | EmptyString => last
  | String c rest =>
      rfind_slash rest (S pos) (if is_char 47 c then Some pos else last)
  end.

Fixpoint drop (n : nat) (s : string) : string :=
  match n, s with
  | S m, String _ rest => drop m rest
  | _, _ => s
  end.

Fixpoint take (n : nat) (s : string) : string :=
  match n, s with
  | S m, String c rest => String c (take m rest)
  | _, _ => EmptyString
  end.

(** The first component of [_splitparams(url)]. *)
Definition split_params (url : string) : string :=
  let start := match rfind_slash url 0 None with Some i => i | None => 0 end in
  take start url ++ fst (break (is_char 59) (drop start url)).

Definition uses_params : list string :=
  [""; "ftp"; "hdl"; "prospero"; "http"; "imap"; "https"; "shttp"; "rtsp";
   "rtspu"; "sip"; "sips"; "mms"; "sftp"; "tel"].

Definition parse_str (url : string) : option ParseResult :=
  let url := lstrip url in
  let url := remove is_unsafe url in
  let '(sch, url) := split_scheme url in
  let '(loc, url) := split_netloc url in
  if all (fun c => Nat.ltb (code c) 128 && negb (is_char 91 c) && negb (is_char 93 c)) loc
  then
    let url := fst (break (is_char 35) url) in
    let url := fst (break (is_char 63) url) in
    let url :=
      if existsb (String.eqb sch) uses_params then split_params url else url in
    Some (mkParseResult sch loc url)
  else None.

(** An argument that is not a string is decoded as bytes: a falsy one
    counts as empty, any other one has no [decode] method. *)
Definition urlparse (url : value) : option ParseResult :=
  match url with
  | VStr s => parse_str s
  | _ => if truthy url then None else Some (mkParseResult "" "" "")
  end.

End Url.

(** ** Properties of converted trees *)

(** The source-dialect keys that [convert_schema] renames or drops. *)
Definition SOURCE_ONLY_KEYS : list string :=
  ["nullable"; "deprecated"; "discriminator"; "allOf"; "anyOf"; "oneOf"; "not"].

Definition is_source_only (key : string) : bool :=
  existsb (String.eqb key) SOURCE_ONLY_KEYS.

(** No mapping anywhere in [v] has a source-only key. *)
Fixpoint free_of_source_keys (v : value) : bool :=
  match v with
  | VList items => forallb free_of_source_keys items
  | VDict entries =>
      forallb
        (fun kv => negb (is_source_only (fst kv)) && free_of_source_keys (snd kv))
        entries
  | _ => true
  end.

(** Output keys whose value may have been copied verbatim from the input. *)
Definition is_verbatim_key (key : string) : bool :=
  existsb (String.eqb key)
    ["example"; "x-deprecated"; "x-discriminator"; "x-examples"; "xml"].

(** Output keys whose value maps property names to schemas. *)
Definition is_property_map (key : string) : bool :=
  String.eqb key "properties" || String.eqb key "patternProperties".

(** No schema node of [v] has a source-only key.  The schema nodes are [v]
    itself and what the transformer recurses into: elements of sequences,
    values of keys other than the verbatim ones, and the values (not the
    names) listed under [properties] and [patternProperties]. *)
Fixpoint schema_nodes_free (v : value) : bool :=
  match v with
  | VList items => forallb schema_nodes_free items
  | VDict entries =>
      forallb
        (fun kv =>
           negb (is_source_only (fst kv)) &&
           (if is_verbatim_key (fst kv) then true
            else if is_property_map (fst kv) then
              match snd kv with
              | VDict props => forallb (fun p => schema_nodes_free (snd p)) props
              | _ => false
              end
            else schema_nodes_free (snd kv)))
        entries
  | _ => true
  end.

Definition RENAMED_KEYS : list string :=
  ["deprecated"; "discriminator"; "allOf"; "anyOf"; "oneOf"; "not"].

Definition RENAME_TARGETS : list string :=
  ["x-nullable"; "x-deprecated"; "x-discriminator"; "x-examples";
   "x-allOf"; "x-anyOf"; "x-oneOf"; "x-not"].

(** The key under which [convert_schema] stores a renamed source key. *)
Definition rename_of (key : string) : option string :=
  if existsb (String.eqb key)
       ["nullable"; "deprecated"; "discriminator"; "examples";
        "allOf"; "anyOf"; "oneOf"; "not"]
  then Some ("x-" ++ key)%string
  else None.

(** The parameter list an operation ends up with: the declared parameters,
    followed by [body] when the request body produced one. *)
Definition operation_parameters (declared : list value) (body : dict) : list value :=
  if truthy (VDict body) then declared ++ [VDict body] else declared.

Definition parameters_entry (l : list value) : option value :=
  match l with
  | [] => None
  | _ => Some (VList l)
  end.

(** What [convert_operation] stores under [consumes] and [produces]. *)
Definition media_type_entry (l : list string) : option value :=
  match l with
  | [] => None
  | _ => Some (media_types (sorted (dict_fromkeys l)))
  end.

(** The style table, as the specification words it. *)
Definition collection_format_of_style (style explode : value) : option string :=
  if eq_str style "form" then
    if truthy explode then Some "multi" else Some "csv"
  else if eq_str style "spaceDelimited" then Some "ssv"
  else if eq_str style "pipeDelimited" then Some "pipes"
  else None.

Definition schema_has_key (key : string) (schema : value) : bool :=
  match schema with
  | VDict s => Dict.mem key s
  | _ => false
  end.

Definition host_entry (host : string) : option value :=
  if String.eqb host "" then None else Some (VStr host).

Definition base_path_entry (base_path : string) : option value :=
  if String.eqb base_path "" || String.eqb base_path "/" then None
  else Some (VStr base_path).

Definition schemes_entry (schemes : list string) : option value :=
  match schemes with
  | [] => None
  | _ => Some (media_types schemes)
  end.

(** The [schemes] entry for the scheme of a parsed URL. *)
Definition scheme_entry (scheme : string) : option value :=
  if String.eqb scheme "" then None else Some (VList [VStr scheme]).

Inductive node_kind : Type :=
| DocumentNode | PathItemNode | OperationNode | ParameterNode
| RequestBodyNode | ResponseNode | HeaderNode | SchemaNode
| SecuritySchemeNode.

(** The converter of each node type, reduced to the converted mapping. *)
Definition convert_node (field_order : list string)
    (urlparse : value -> option ParseResult)
    (kind : node_kind) (node : value) : option dict :=
  match kind with
  | DocumentNode => convert_openapi_to_swagger field_order urlparse node
  | PathItemNode => convert_path_item field_order node
  | OperationNode =>
      option_map (fun r => fst (fst r)) (convert_operation field_order node)
  | ParameterNode => convert_parameter field_order node
  | RequestBodyNode => option_map fst (convert_request_body node)
  | ResponseNode => option_map fst (convert_response field_order node)
  | HeaderNode => convert_header field_order node
  | SchemaNode =>
      match convert_schema node with
      | Some (VDict converted) => Some converted
      | _ => None
      end
  | SecuritySchemeNode => convert_security_scheme node
  end.

(** The extension keys of a node that its converter does not simply copy:
    a schema key that is also the renamed form of another key of the schema,
    [x-callbacks] / [x-servers] next to [callbacks] / [servers], the marker
    written for bearer schemes, and every key of a request body without
    content. *)
Definition extension_exempt (kind : node_kind) (key : string) (node : dict)
  : bool :=
  match kind with
  | SchemaNode =>
      existsb (fun k => match rename_of k with
                        | Some target => String.eqb key target
                        | None => false
                        end)
        (Dict.keys node)
  | OperationNode =>
      (String.eqb key "x-callbacks" && Dict.mem "callbacks" node)
      || (String.eqb key "x-servers" && Dict.mem "servers" node)
  | PathItemNode => String.eqb key "x-servers" && Dict.mem "servers" node
  | RequestBodyNode => negb (truthy (py_get_default "content" (VDict []) node))
  | SecuritySchemeNode =>
      String.eqb key "x-original-http-scheme"
      && eq_str (py_get "type" node) "http"
      && eq_str (py_get "scheme" node) "bearer"
  | _ => false
  end.

(** The value an extension arrives with: schemas transform it like any other
    unrecognised key, the other converters copy it. *)
Definition carried (kind : node_kind) (v : value) : option value :=
  match kind with
  | SchemaNode => convert_schema v
  | _ => Some v
  end.

(** The passthrough property as the specification words it: the extension
    [key] of [node] is in the converted node with the same value. *)
Definition extension_kept (field_order : list string)
    (urlparse : value -> option ParseResult)
    (kind : node_kind) (node : dict) (key : string) : Prop :=
  forall out v,
    convert_node field_order urlparse kind (VDict node) = Some out ->
    Dict.get key node = Some v ->
    Dict.get key out = Some v.

(** The lexicographic order on strings that [sorted] uses. *)
Definition lex_le (a b : string) : Prop := String.leb a b = true.

(** ** Vocabulary of the further properties *)

Definition is_some {A : Type} (m : option A) : bool :=
  match m with Some _ => true | None => false end.


(** The five prefixes [convert_ref] recognises. *)
Definition SOURCE_REF_PREFIXES : list string :=
  ["#/components/schemas/"; "#/components/parameters/";
   "#/components/responses/"; "#/components/requestBodies/";
   "#/components/securitySchemes/"].



(** The keys one entry of a schema contributes to the converted schema. *)
Definition entry_keys (kv : string * value) : list string :=
  if String.eqb (fst kv) "nullable" then
    if truthy (snd kv) then ["x-nullable"] else []
  else
    match rename_of (fst kv) with
    | Some target => [target]
    | None => [fst kv]
    end.

Definition converted_keys (entries : dict) : list string :=
  flat_map entry_keys entries.

(** Keys [convert_schema] has no rule of its own for: it keeps the key and
    recurses into the value. *)
Definition is_recursed_key (key : string) : bool :=
  negb (existsb (String.eqb key)
          ["$ref"; "nullable"; "deprecated"; "discriminator"; "example";
           "examples"; "allOf"; "anyOf"; "oneOf"; "not"; "properties";
           "patternProperties"; "xml"]).

(** [key in PARAMETER_PRIMITIVE_FIELDS]. *)
Definition is_primitive_field (key : string) : bool :=
  existsb (String.eqb key) PARAMETER_PRIMITIVE_FIELDS.

(** The media type a response contributes to [produces]: the first key of
    its [content], if it has any. *)
Definition response_media_type (response : value) : list string :=
  match response with
  | VDict r =>
      match py_get_default "content" (VDict []) r with
      | VDict ((media_type, _) :: _) => [media_type]
      | _ => []
      end
  | _ => []
  end.

(** A converted operation as it is stored in a path item. *)
Definition stored_operation (field_order : list string) (operation : value)
  : option value :=
  option_map (fun res => VDict (fst (fst res)))
    (convert_operation field_order operation).

(** The sections of [components] and the keys they are stored under. *)
Definition COMPONENT_SECTIONS : list (string * string) :=
  [("schemas", "definitions"); ("parameters", "parameters");
   ("responses", "responses"); ("securitySchemes", "securityDefinitions")].

(** The converter applied to the entries of a section of [components]. *)
Definition section_converter (field_order : list string) (section : string)
  : value -> option value :=
  if String.eqb section "schemas" then convert_schema
  else if String.eqb section "parameters" then
    fun p => option_map VDict (convert_parameter field_order p)
  else if String.eqb section "responses" then
    convert_component_response field_order
  else fun s => option_map VDict (convert_security_scheme s).

(** The top-level keys of the target dialect that the document converter
    writes. *)
Definition SWAGGER_KEYS : list string :=
  ["swagger"; "info"; "consumes"; "produces"; "host"; "basePath"; "schemes";
   "tags"; "externalDocs"; "security"; "definitions"; "parameters";
   "responses"; "securityDefinitions"; "paths"].

(** ** Sample inputs *)

Definition styleless_parameter : dict :=
  [("name", VStr "ids"); ("in", VStr "query");
   ("schema", VDict [("type", VStr "array");
                     ("collectionFormat", VStr "multi")])].

Definition sample_schema : value :=
  VDict [("type", VStr "object");
         ("nullable", VBool true);
         ("deprecated", VBool true);
         ("properties",
          VDict [("owner",
                  VDict [("$ref", VStr "#/components/schemas/User");
                         ("nullable", VBool false)]);
                 ("tags",
                  VDict [("type", VStr "array");
                         ("items",
                          VDict [("oneOf",
                                  VList [VDict [("type", VStr "string")];
                                         VDict [("type", VStr "integer")]])])])])].

Definition sample_parameter : dict :=
  [("name", VStr "ids"); ("in", VStr "query");
   ("style", VStr "form"); ("explode", VBool true);
   ("schema", VDict [("type", VStr "array");
                     ("items", VDict [("type", VStr "string")])])].

Definition sample_operation : dict :=
  [("operationId", VStr "ping");
   ("parameters",
    VList [VDict [("name", VStr "limit"); ("in", VStr "query");
                  ("schema", VDict [("type", VStr "integer")])]]);
   ("requestBody", VDict [("description", VStr "nothing to send");
                          ("content", VDict [])]);
   ("responses", VDict [("204", VDict [("description", VStr "done")])])].

Definition sample_media_operation : dict :=
  [("requestBody",
    VDict [("content", VDict [("application/json", VDict [])])]);
   ("responses",
    VDict [("200", VDict [("content", VDict [("text/plain", VDict [])])]);
           ("400", VDict [("content", VDict [("application/json", VDict [])])]);
           ("404", VDict [("content", VDict [("application/json", VDict [])])])])].

Definition bearer_scheme : value :=
  VDict [("type", VStr "http"); ("scheme", VStr "bearer")].

Definition bearer_definition : value :=
  VDict [("type", VStr "apiKey");
         ("name", VStr "Authorization");
         ("in", VStr "header");
         ("x-original-http-scheme", VStr "bearer");
         ("x-ms-visibility", VStr "important")].

Definition sample_schemes : dict :=
  [("apiKeyAuth",
    VDict [("type", VStr "apiKey"); ("name", VStr "X-API-Key");
           ("in", VStr "header")]);
   ("bearerAuth", bearer_scheme)].

Definition sample_components : dict :=
  [("securitySchemes", VDict sample_schemes)].

Definition sample_responses : dict :=
  [("200",
    VDict [("description", VStr "The signed document");
           ("content",
            VDict [("application/pdf",
                    VDict [("schema", VDict [("type", VStr "string");
                                             ("format", VStr "binary")])])])]);
   ("404",
    VDict [("description", VStr "Unknown document");
           ("content",
            VDict [("application/json",
                    VDict [("schema",
                            VDict [("$ref", VStr "#/components/schemas/Error")])])])])].

Definition sample_servers : list value :=
  [VDict [("url", VStr "https://api.example.com/v1")];
   VDict [("url", VStr "https://backup.example.com/v1")]].

Definition sample_document : dict :=
  [("openapi", VStr "3.0.3");
   ("info", VDict [("title", VStr "Example"); ("version", VStr "1")]);
   ("servers", VList sample_servers);
   ("paths", VDict [])].

Definition sample_node : dict :=
  [("name", VStr "limit"); ("in", VStr "query");
   ("x-example", VInt 5);
   ("schema", VDict [("type", VStr "integer"); ("x-example", VInt 1)])].

(** ** Further sample inputs *)


Definition sample_plain_schema : value :=
  VDict [("type", VStr "string"); ("nullable", VBool false)].

Definition sample_array_schema : dict :=
  [("type", VStr "array");
   ("items", VDict [("type", VStr "string"); ("title", VStr "Tag")]);
   ("minItems", VInt 1);
   ("description", VStr "tags to match");
   ("x-order", VInt 2)].


Definition sample_body_parameter : dict :=
  [("name", VStr "payload"); ("in", VStr "body");
   ("schema", VDict [("type", VStr "object");
                     ("$ref", VStr "#/components/schemas/Widget")])].

Definition sample_request_body : dict :=
  [("description", VStr "The widget to store");
   ("required", VBool true);
   ("content",
    VDict [("application/json",
            VDict [("schema",
                    VDict [("$ref", VStr "#/components/schemas/Widget")])]);
           ("application/xml",
            VDict [("schema",
                    VDict [("$ref", VStr "#/components/schemas/WidgetXml")])])])].

Definition sample_body_operation : dict :=
  [("parameters",
    VList [VDict [("name", VStr "id"); ("in", VStr "path");
                  ("required", VBool true)]]);
   ("requestBody", VDict sample_request_body);
   ("responses", VDict [])].

Definition sample_examples_response : dict :=
  [("description", VStr "A widget");
   ("content",
    VDict [("application/json",
            VDict [("example", VStr "plain");
                   ("examples",
                    VDict [("small", VDict [("value", VInt 1)]);
                           ("large", VDict [("value", VInt 1000)])])])])].


Definition sample_path_item : dict :=
  [("summary", VStr "Widgets");
   ("servers", VList [VDict [("url", VStr "https://widgets.example.com")]]);
   ("x-team", VStr "catalog");
   ("get", VDict [("operationId", VStr "listWidgets")]);
   ("trace", VDict [("operationId", VStr "traceWidgets")])].

Definition sample_partial_components : dict :=
  [("schemas", VDict [("Widget", VDict [("type", VStr "object")])]);
   ("parameters", VDict []);
   ("examples", VDict [("w", VDict [("value", VInt 1)])])].

Definition sample_bearer_scheme : dict :=
  [("type", VStr "http"); ("scheme", VStr "bearer");
   ("name", VStr "X-Token"); ("description", VStr "Session token")].

Definition sample_paths_document : dict :=
  [("info", VDict [("title", VStr "Example")]);
   ("paths",
    VDict [("/widgets", VDict sample_path_item);
           ("/health", VDict [])])].


(** ** Shape of the examples mapping *)

(** The [examples] mapping of a response under construction is absent, empty
    or has the representative media type as its only key. *)
Definition single_example (media_type : string) (new_response : dict) : Prop :=
  Dict.get "examples" new_response = Some (VDict []) \/
  exists e, Dict.get "examples" new_response = Some (VDict [(media_type, e)]).

(** * Proofs *)

(** ** Induction on document trees *)

Section ValueInduction.

Variable P : value -> Prop.
Hypothesis P_none : P VNone.
Hypothesis P_bool : forall b, P (VBool b).
Hypothesis P_int : forall z, P (VInt z).
Hypothesis P_float : forall f, P (VFloat f).
Hypothesis P_str : forall s, P (VStr s).
Hypothesis P_list : forall items, Forall P items -> P (VList items).
Hypothesis P_dict :
  forall entries, Forall (fun kv => P (snd kv)) entries -> P (VDict entries).

Fixpoint value_tree_ind (v : value) : P v :=
  match v with
  | VNone => P_none
  | VBool b => P_bool b
  | VInt z => P_int z
  | VFloat f => P_float f
  | VStr s => P_str s
  | VList items =>
      P_list items
        ((fix each (l : list value) : Forall P l :=
            match l with
            | [] => Forall_nil P
            | x :: rest => Forall_cons x (value_tree_ind x) (each rest)
            end) items)
  | VDict entries =>
      P_dict entries
        ((fix each (l : dict) : Forall (fun kv => P (snd kv)) l :=
            match l with
            | [] => Forall_nil _
            | kv :: rest =>
                Forall_cons (P := fun kv => P (snd kv)) kv
                  (value_tree_ind (snd kv)) (each rest)
            end) entries)
  end.

End ValueInduction.

(** ** Mappings *)

Module DictFacts.

Lemma get_set_same key v d : Dict.get key (Dict.set key v d) = Some v.
Proof.
  induction d as [|[k w] rest IH]; simpl.
  - now rewrite String.eqb_refl.
  - destruct (String.eqb key k) eqn:E; simpl; rewrite E; auto.
Qed.

Lemma get_set_other key key' v d :
  key <> key' -> Dict.get key' (Dict.set key v d) = Dict.get key' d.
Proof.
  intros Hne. induction d as [|[k w] rest IH]; simpl.
  - destruct (String.eqb key' key) eqn:E; auto.
    apply String.eqb_eq in E. congruence.
  - destruct (String.eqb key k) eqn:E; simpl.
    + apply String.eqb_eq in E. subst k.
      destruct (String.eqb key' key) eqn:E'; auto.
      apply String.eqb_eq in E'. congruence.
    + now rewrite IH.
Qed.

Lemma get_set key key' v d :
  Dict.get key' (Dict.set key v d) =
  if String.eqb key' key then Some v else Dict.get key' d.
Proof.
  destruct (String.eqb key' key) eqn:E.
  - apply String.eqb_eq in E. subst. apply get_set_same.
  - apply String.eqb_neq in E. apply get_set_other. congruence.
Qed.

Lemma mem_set key key' v d :
  Dict.mem key' (Dict.set key v d) = String.eqb key' key || Dict.mem key' d.
Proof.
  unfold Dict.mem. rewrite get_set. now destruct (String.eqb key' key).
Qed.

Lemma get_pop key key' d :
  Dict.get key' (Dict.pop key d) =
  if String.eqb key' key then None else Dict.get key' d.
Proof.
  induction d as [|[k w] rest IH]; simpl.
  - now destruct (String.eqb key' key).
  - destruct (String.eqb key k) eqn:E.
    + apply String.eqb_eq in E. subst k. rewrite IH.
      now destruct (String.eqb key' key).
    + simpl. rewrite IH. destruct (String.eqb key' k) eqn:E'; auto.
      apply String.eqb_eq in E'. subst k.
      rewrite String.eqb_sym in E. now rewrite E.
Qed.

Lemma get_setdefault key key' v d :
  Dict.get key' (Dict.setdefault key v d) =
  match Dict.get key' d with
  | Some w => Some w
  | None => if String.eqb key' key then Some v else None
  end.
Proof.
  unfold Dict.setdefault, Dict.mem.
  destruct (Dict.get key d) eqn:G.
  - destruct (Dict.get key' d) eqn:G'; auto.
    destruct (String.eqb key' key) eqn:E; auto.
    apply String.eqb_eq in E. congruence.
  - rewrite get_set. destruct (String.eqb key' key) eqn:E.
    + apply String.eqb_eq in E. subst. now rewrite G.
    + now destruct (Dict.get key' d).
Qed.

Lemma get_setdefault_other key key' v d :
  key' <> key ->
  Dict.get key' (Dict.setdefault key v d) = Dict.get key' d.
Proof.
  intros Hne. rewrite get_setdefault.
  destruct (Dict.get key' d); auto.
  destruct (String.eqb key' key) eqn:E; auto.
  apply String.eqb_eq in E. contradiction.
Qed.

Lemma keys_set_present key v d :
  Dict.mem key d = true -> Dict.keys (Dict.set key v d) = Dict.keys d.
Proof.
  unfold Dict.mem, Dict.keys.
  induction d as [|[k w] rest IH]; simpl; [discriminate|].
  destruct (String.eqb key k) eqn:E; simpl; auto.
  intros H. now rewrite IH.
Qed.

Lemma get_in_keys key d v : Dict.get key d = Some v -> In key (Dict.keys d).
Proof.
  unfold Dict.keys. induction d as [|[k w] rest IH]; simpl; [discriminate|].
  destruct (String.eqb key k) eqn:E.
  - apply String.eqb_eq in E. auto.
  - auto.
Qed.

Lemma in_keys_get key d : In key (Dict.keys d) -> exists v, Dict.get key d = Some v.
Proof.
  unfold Dict.keys. induction d as [|[k w] rest IH]; simpl; [tauto|].
  intros [->|H].
  - rewrite String.eqb_refl. eauto.
  - destruct (String.eqb key k); eauto.
Qed.

(** [set] keeps an entry-wise property that the written entry satisfies. *)
Lemma forallb_set (ok : string * value -> bool) key v d :
  forallb ok d = true -> ok (key, v) = true ->
  forallb ok (Dict.set key v d) = true.
Proof.
  intros Hd Hkv. induction d as [|[k w] rest IH]; simpl in *.
  - now rewrite Hkv.
  - apply andb_true_iff in Hd as [Hk Hrest].
    destruct (String.eqb key k) eqn:E; simpl.
    + apply String.eqb_eq in E. subst k. now rewrite Hkv, Hrest.
    + now rewrite Hk, IH.
Qed.

Lemma get_with_spec {A : Type} (f : value -> A) key d :
  Dict.get_with f key d = option_map f (Dict.get key d).
Proof.
  induction d as [|[k w] rest IH]; simpl; auto.
  now destruct (String.eqb key k).
Qed.

Lemma py_get_set_other key v d k :
  k <> key -> py_get k (Dict.set key v d) = py_get k d.
Proof.
  intros Hk. unfold py_get. rewrite get_set_other; auto.
Qed.

Lemma py_get_default_set_other key v d k default :
  k <> key ->
  py_get_default k default (Dict.set key v d) = py_get_default k default d.
Proof.
  intros Hk. unfold py_get_default. rewrite get_set_other; auto.
Qed.

End DictFacts.

(** ** Schema transformer *)

Lemma bind_some {A B : Type} (m : option A) (k : A -> option B) (b : B) :
  bind m k = Some b -> exists a, m = Some a /\ k a = Some b.
Proof. destruct m; simpl; [eauto | discriminate]. Qed.

Lemma bind_ext {A B : Type} (m m' : option A) (k k' : A -> option B) :
  m = m' -> (forall a, k a = k' a) -> bind m k = bind m' k'.
Proof. intros <- Hk. destruct m; simpl; auto. Qed.

Ltac bind_inv H :=
  let a := fresh "a" in
  let Ha := fresh "Ha" in
  apply bind_some in H; destruct H as (a & Ha & H).

Lemma is_composition_cases key :
  is_composition key = true ->
  key = "allOf" \/ key = "anyOf" \/ key = "oneOf" \/ key = "not".
Proof.
  unfold is_composition. simpl.
  rewrite orb_false_r, !orb_true_iff, !String.eqb_eq. tauto.
Qed.

Section SchemaNodes.

Let node_ok (kv : string * value) : bool :=
  negb (is_source_only (fst kv)) &&
  (if is_verbatim_key (fst kv) then true
   else if is_property_map (fst kv) then
     match snd kv with
     | VDict props => forallb (fun p => schema_nodes_free (snd p)) props
     | _ => false
     end
   else schema_nodes_free (snd kv)).

Let good (v : value) : Prop :=
  forall out, convert_schema v = Some out -> schema_nodes_free out = true.

Lemma map_list_free items :
  Forall good items ->
  forall out, map_list convert_schema items = Some out ->
  forallb schema_nodes_free out = true.
Proof.
  induction 1 as [|x rest Hx _ IH]; simpl; intros out H.
  - now inversion H.
  - bind_inv H. bind_inv H. inversion H; subst. simpl.
    now rewrite (Hx _ Ha), (IH _ Ha0).
Qed.

Lemma map_values_free items :
  Forall (fun kv => good (snd kv)) items ->
  forall acc out,
    forallb (fun p => schema_nodes_free (snd p)) acc = true ->
    map_values convert_schema items acc = Some out ->
    forallb (fun p => schema_nodes_free (snd p)) out = true.
Proof.
  induction 1 as [|[name sub] rest Hx _ IH]; simpl; intros acc out Hacc H.
  - now inversion H; subst.
  - bind_inv H. eapply IH; [|exact H].
    apply DictFacts.forallb_set; [exact Hacc | simpl; now apply Hx].
Qed.

Lemma convert_schema_entry_free key val converted out :
  good val ->
  (match val with
   | VDict items => Forall (fun kv => good (snd kv)) items
   | _ => True
   end) ->
  forallb node_ok converted = true ->
  convert_schema_entry convert_schema key val converted = Some out ->
  forallb node_ok out = true.
Proof.
  intros Hval Hitems Hacc. unfold convert_schema_entry.
  destruct (String.eqb key "$ref") eqn:E1.
  { apply String.eqb_eq in E1. subst key. destruct val; try (intros H; discriminate H).
    intros H. inversion H; subst. now apply DictFacts.forallb_set. }
  destruct (String.eqb key "nullable") eqn:E2.
  { destruct (truthy val); intros H; inversion H; subst; auto.
    now apply DictFacts.forallb_set. }
  destruct (String.eqb key "deprecated") eqn:E3.
  { intros H; inversion H; subst. now apply DictFacts.forallb_set. }
  destruct (String.eqb key "discriminator") eqn:E4.
  { intros H; inversion H; subst. now apply DictFacts.forallb_set. }
  destruct (String.eqb key "example") eqn:E5.
  { intros H; inversion H; subst. now apply DictFacts.forallb_set. }
  destruct (String.eqb key "examples") eqn:E6.
  { intros H; inversion H; subst. now apply DictFacts.forallb_set. }
  destruct (is_composition key) eqn:E7.
  { apply is_composition_cases in E7.
    destruct E7 as [-> | [-> | [-> | ->]]]; simpl; intros H; bind_inv H;
      inversion H; subst;
      (apply DictFacts.forallb_set; [exact Hacc | unfold node_ok; simpl; now apply Hval]). }
  destruct (String.eqb key "items" || String.eqb key "additionalProperties") eqn:E8.
  { apply orb_true_iff in E8. rewrite !String.eqb_eq in E8.
    destruct E8 as [-> | ->]; intros H; bind_inv H; inversion H; subst;
      (apply DictFacts.forallb_set; [exact Hacc | unfold node_ok; simpl; now apply Hval]). }
  destruct (String.eqb key "properties") eqn:E9.
  { apply String.eqb_eq in E9. subst key. destruct val; try (intros H; discriminate H).
    intros H. bind_inv H. inversion H; subst.
    apply DictFacts.forallb_set; [exact Hacc|]. unfold node_ok. simpl.
    eapply (map_values_free _ Hitems []); [reflexivity | exact Ha]. }
  destruct (String.eqb key "patternProperties") eqn:E10.
  { apply String.eqb_eq in E10. subst key. destruct val; try (intros H; discriminate H).
    intros H. bind_inv H. inversion H; subst.
    apply DictFacts.forallb_set; [exact Hacc|]. unfold node_ok. simpl.
    eapply (map_values_free _ Hitems []); [reflexivity | exact Ha]. }
  destruct (String.eqb key "xml") eqn:E11.
  { apply String.eqb_eq in E11. subst key.
    intros H; inversion H; subst. now apply DictFacts.forallb_set. }
  intros H. bind_inv H. inversion H; subst.
  apply DictFacts.forallb_set; [exact Hacc|]. unfold node_ok. simpl fst. simpl snd.
  assert (Hso : is_source_only key = false).
  { unfold is_source_only. simpl. rewrite E2, E3, E4. simpl.
    unfold is_composition in E7. simpl in E7. exact E7. }
  rewrite Hso. simpl.
  destruct (is_verbatim_key key); auto.
  unfold is_property_map. rewrite E9, E10. simpl. now apply Hval.
Qed.

Lemma convert_schema_items_free items :
  Forall (fun kv =>
            good (snd kv) /\
            match snd kv with
            | VDict sub => Forall (fun kv => good (snd kv)) sub
            | _ => True
            end) items ->
  forall converted out,
    forallb node_ok converted = true ->
    convert_schema_items convert_schema items converted = Some out ->
    forallb node_ok out = true.
Proof.
  induction 1 as [|[key val] rest [Hval Hsub] _ IH]; simpl;
    intros converted out Hacc H.
  - now inversion H; subst.
  - bind_inv H. eapply IH; [|exact H].
    eapply convert_schema_entry_free; eauto.
Qed.

Lemma convert_schema_free_strong v :
  good v /\
  match v with
  | VDict items => Forall (fun kv => good (snd kv)) items
  | _ => True
  end.
Proof.
  induction v using value_tree_ind;
    try (split; [intros out H; simpl in H; now inversion H | exact I]).
  - split; [|exact I]. intros out Hout. simpl in Hout. bind_inv Hout.
    inversion Hout; subst. simpl.
    eapply map_list_free; [|exact Ha].
    eapply Forall_impl; [|exact H]. now intros x [Hx _].
  - split.
    + intros out Hout. simpl in Hout. bind_inv Hout. inversion Hout; subst.
      simpl. exact (convert_schema_items_free entries H [] a eq_refl Ha).
    + eapply Forall_impl; [|exact H]. now intros x [Hx _].
Qed.

End SchemaNodes.

(** Every branch of the loop body either leaves [converted] alone or writes
    one key into it. *)
Lemma convert_schema_entry_shape rec key val converted out :
  convert_schema_entry rec key val converted = Some out ->
  out = converted \/ exists k v, out = Dict.set k v converted.
Proof.
  unfold convert_schema_entry. intros H.
  repeat match type of H with
         | context [if ?c then _ else _] => destruct c
         | context [match ?v with VNone => _ | _ => _ end] => destruct v
         | bind _ _ = Some _ => bind_inv H
         end;
    try discriminate H; inversion H; subst; eauto.
Qed.

Lemma convert_schema_entry_mem rec key val converted out k :
  convert_schema_entry rec key val converted = Some out ->
  Dict.mem k converted = true -> Dict.mem k out = true.
Proof.
  intros H Hk. apply convert_schema_entry_shape in H.
  destruct H as [-> | (k' & v & ->)]; auto.
  rewrite DictFacts.mem_set, Hk. apply orb_true_r.
Qed.

Lemma convert_schema_items_mem rec items : forall converted out k,
  convert_schema_items rec items converted = Some out ->
  Dict.mem k converted = true -> Dict.mem k out = true.
Proof.
  induction items as [|[key val] rest IH]; simpl; intros converted out k H Hk.
  - now inversion H; subst.
  - bind_inv H. eapply IH; [exact H|].
    eapply convert_schema_entry_mem; eauto.
Qed.

Lemma convert_schema_entry_renames rec key val converted out :
  convert_schema_entry rec key val converted = Some out ->
  (In key RENAMED_KEYS -> Dict.mem ("x-" ++ key) out = true) /\
  (key = "nullable" -> truthy val = true -> Dict.mem "x-nullable" out = true).
Proof.
  intros H. split.
  - intros Hin. simpl in Hin.
    destruct Hin as [<- | [<- | [<- | [<- | [<- | [<- | []]]]]]];
      cbn in H; try bind_inv H; inversion H; subst;
      rewrite DictFacts.mem_set; apply orb_true_iff; left; reflexivity.
  - intros -> Ht. cbn in H. rewrite Ht in H. inversion H; subst.
    rewrite DictFacts.mem_set. reflexivity.
Qed.

Lemma convert_schema_items_renames rec items : forall converted out key val,
  convert_schema_items rec items converted = Some out ->
  In (key, val) items ->
  (In key RENAMED_KEYS -> Dict.mem ("x-" ++ key) out = true) /\
  (key = "nullable" -> truthy val = true -> Dict.mem "x-nullable" out = true).
Proof.
  induction items as [|[k w] rest IH]; simpl; intros converted out key val H Hin.
  - contradiction.
  - bind_inv H. destruct Hin as [Heq | Hin].
    + inversion Heq; subst k w.
      destruct (convert_schema_entry_renames _ _ _ _ _ Ha) as [R1 R2].
      split; intros; eapply convert_schema_items_mem; eauto.
    + eapply IH; eauto.
Qed.

(** A [nullable] entry whose value is falsy writes nothing, and no other
    entry writes [x-nullable] unless that is its own key. *)
Lemma convert_schema_entry_falsy_nullable rec key val converted out :
  convert_schema_entry rec key val converted = Some out ->
  key <> "x-nullable" ->
  (key = "nullable" -> truthy val = false) ->
  Dict.get "x-nullable" out = Dict.get "x-nullable" converted.
Proof.
  intros H Hkey Hfalsy.
  assert (Hown : forall w,
             Dict.get "x-nullable" (Dict.set key w converted)
             = Dict.get "x-nullable" converted).
  { intros w. apply DictFacts.get_set_other. congruence. }
  unfold convert_schema_entry in H.
  destruct (String.eqb key "$ref").
  { destruct val; try discriminate H. inversion H; subst. apply Hown. }
  destruct (String.eqb key "nullable") eqn:E2.
  { apply String.eqb_eq in E2. rewrite (Hfalsy E2) in H.
    now inversion H; subst. }
  destruct (String.eqb key "deprecated").
  { inversion H; subst. now apply DictFacts.get_set_other. }
  destruct (String.eqb key "discriminator").
  { inversion H; subst. now apply DictFacts.get_set_other. }
  destruct (String.eqb key "example").
  { inversion H; subst. now apply DictFacts.get_set_other. }
  destruct (String.eqb key "examples").
  { inversion H; subst. now apply DictFacts.get_set_other. }
  destruct (is_composition key) eqn:C.
  { apply is_composition_cases in C.
    destruct C as [-> | [-> | [-> | ->]]]; simpl in H; bind_inv H;
      inversion H; subst; now apply DictFacts.get_set_other. }
  destruct (String.eqb key "items" || String.eqb key "additionalProperties").
  { bind_inv H. inversion H; subst. apply Hown. }
  destruct (String.eqb key "properties").
  { destruct val; try discriminate H. bind_inv H. inversion H; subst. apply Hown. }
  destruct (String.eqb key "patternProperties").
  { destruct val; try discriminate H. bind_inv H. inversion H; subst. apply Hown. }
  destruct (String.eqb key "xml").
  { inversion H; subst. apply Hown. }
  bind_inv H. inversion H; subst. apply Hown.
Qed.

Lemma convert_schema_items_falsy_nullable rec items : forall converted out,
  convert_schema_items rec items converted = Some out ->
  (forall val, In ("nullable", val) items -> truthy val = false) ->
  ~ In "x-nullable" (Dict.keys items) ->
  Dict.get "x-nullable" out = Dict.get "x-nullable" converted.
Proof.
  induction items as [|[key val] rest IH]; simpl;
    intros converted out H Hfalsy Hown.
  - now inversion H; subst.
  - bind_inv H. rewrite (IH _ _ H); [| now auto | tauto].
    eapply convert_schema_entry_falsy_nullable; [exact Ha | tauto |].
    intros ->. apply Hfalsy. now left.
Qed.

(** C1 (as amended): in a converted schema no schema node has a key named
    [nullable], [deprecated], [discriminator], [allOf], [anyOf], [oneOf] or
    [not]; values copied verbatim (under [example], [x-examples],
    [x-deprecated], [x-discriminator], [xml]) and property names are outside
    that guarantee.  Each such key of the input mapping is present in the
    output under its [x-] name; [nullable] is when its value is truthy, and
    is dropped when its value is falsy: the output then has no [x-nullable]
    key, unless the input has a key of that name itself. *)
Theorem convert_schema_renames_source_keys :
  forall schema out,
    convert_schema schema = Some out ->
    schema_nodes_free out = true /\
    (forall entries key val,
        schema = VDict entries -> In (key, val) entries ->
        exists converted,
          out = VDict converted /\
          (In key RENAMED_KEYS -> Dict.mem ("x-" ++ key) converted = true) /\
          (key = "nullable" -> truthy val = true ->
           Dict.mem "x-nullable" converted = true)) /\
    (forall entries,
        schema = VDict entries ->
        (forall val, In ("nullable", val) entries -> truthy val = false) ->
        ~ In "x-nullable" (Dict.keys entries) ->
        exists converted,
          out = VDict converted /\ Dict.mem "x-nullable" converted = false).
Proof.
  intros schema out H. split; [|split].
  - exact (proj1 (convert_schema_free_strong schema) out H).
  - intros entries key val -> Hin. simpl in H. bind_inv H.
    inversion H; subst. exists a. split; [reflexivity|].
    eapply convert_schema_items_renames; eauto.
  - intros entries -> Hfalsy Hown. simpl in H. bind_inv H.
    inversion H; subst. exists a. split; [reflexivity|].
    unfold Dict.mem.
    now rewrite (convert_schema_items_falsy_nullable _ _ _ _ Ha Hfalsy Hown).
Qed.

Lemma convert_schema_renames_source_keys_witness :
  (exists out,
      convert_schema sample_schema = Some (VDict out) /\
      schema_nodes_free (VDict out) = true /\
      Dict.mem "x-deprecated" out = true /\
      Dict.mem "x-nullable" out = true) /\
  (exists out,
      convert_schema sample_plain_schema = Some (VDict out) /\
      Dict.mem "x-nullable" out = false).
Proof.
  split.
  - destruct (convert_schema sample_schema) as [out|] eqn:E; [|discriminate E].
    destruct (convert_schema_renames_source_keys sample_schema out E)
      as (Hfree & Hren & _).
    destruct (Hren _ "deprecated" (VBool true) eq_refl) as (c1 & -> & R1 & _).
    { simpl. auto. }
    destruct (Hren _ "nullable" (VBool true) eq_refl) as (c2 & Hc2 & _ & R2).
    { simpl. auto. }
    inversion Hc2; subst c2.
    exists c1. repeat split.
    + exact Hfree.
    + apply R1. simpl. auto.
    + now apply R2.
  - destruct (convert_schema sample_plain_schema) as [out|] eqn:E;
      [|discriminate E].
    destruct (convert_schema_renames_source_keys sample_plain_schema out E)
      as (_ & _ & Hdrop).
    destruct (Hdrop _ eq_refl) as (c & -> & Hc).
    { intros val [Heq | [Heq | []]]; inversion Heq. reflexivity. }
    { simpl. intros [Heq | [Heq | []]]; discriminate Heq. }
    exists c. split; [reflexivity | exact Hc].
Defined.

(** C1 (as stated) fails: an [example] is copied verbatim and a property may
    be named like a source-only key, so such keys remain below the top level
    of the output. *)
Lemma convert_schema_keeps_nested_source_keys :
  convert_schema
    (VDict [("example", VDict [("nullable", VBool true)]);
            ("properties", VDict [("deprecated", VDict [("type", VStr "boolean")])])])
  = Some
      (VDict [("example", VDict [("nullable", VBool true)]);
              ("properties", VDict [("deprecated", VDict [("type", VStr "boolean")])])])
  /\ free_of_source_keys
       (VDict [("example", VDict [("nullable", VBool true)]);
               ("properties", VDict [("deprecated", VDict [("type", VStr "boolean")])])])
     = false.
Proof. split; reflexivity. Qed.

(** ** Reference rewriter *)

Lemma replace_from_absent old new s :
  contains s old = false -> replace_from old new s 0 = s.
Proof.
  induction s as [|c rest IH]; simpl; auto.
  intros H. apply orb_false_iff in H as [Hp Hrest].
  change (match old with
          | "" => true
          | String a s1' =>
              if ascii_dec a c then String.prefix s1' rest else false
          end) with (String.prefix old (String c rest)) in *.
  rewrite Hp. now rewrite IH.
Qed.

Lemma prefix_empty s : String.prefix "" s = true.
Proof. now destruct s. Qed.

(** On a reference whose remainder does not itself contain the prefix, the
    rewriter follows the table. *)
Lemma convert_ref_table rest :
  (contains rest "#/components/schemas/" = false ->
   convert_ref ("#/components/schemas/" ++ rest) = ("#/definitions/" ++ rest)%string) /\
  (contains rest "#/components/parameters/" = false ->
   convert_ref ("#/components/parameters/" ++ rest) = ("#/parameters/" ++ rest)%string) /\
  (contains rest "#/components/responses/" = false ->
   convert_ref ("#/components/responses/" ++ rest) = ("#/responses/" ++ rest)%string) /\
  (contains rest "#/components/requestBodies/" = false ->
   convert_ref ("#/components/requestBodies/" ++ rest)
   = ("#/x-requestBodies/" ++ rest)%string) /\
  (contains rest "#/components/securitySchemes/" = false ->
   convert_ref ("#/components/securitySchemes/" ++ rest)
   = ("#/securityDefinitions/" ++ rest)%string).
Proof.
  repeat split; intros H; unfold convert_ref, startswith, replace; simpl;
    rewrite !prefix_empty; repeat f_equal; now apply replace_from_absent.
Qed.

Lemma convert_ref_unrecognized ref :
  startswith ref "#/components/schemas/" = false ->
  startswith ref "#/components/parameters/" = false ->
  startswith ref "#/components/responses/" = false ->
  startswith ref "#/components/requestBodies/" = false ->
  startswith ref "#/components/securitySchemes/" = false ->
  convert_ref ref = ref.
Proof. unfold convert_ref. now intros -> -> -> -> ->. Qed.

(** C3: [str.replace] rewrites every occurrence of the prefix, so a reference
    whose remainder contains the prefix again does not keep its remainder. *)
Theorem convert_ref_rewrites_inner_occurrence :
  startswith "#/components/schemas/a#/components/schemas/b"
    "#/components/schemas/" = true /\
  convert_ref "#/components/schemas/a#/components/schemas/b"
  = "#/definitions/a#/definitions/b" /\
  convert_ref "#/components/schemas/a#/components/schemas/b"
  <> ("#/definitions/" ++ "a#/components/schemas/b")%string.
Proof. repeat split. discriminate. Qed.

(** ** Loops over keys *)

Lemma fold_left_get_other {A : Type} (step : dict -> A -> dict) key xs :
  (forall acc x, In x xs -> Dict.get key (step acc x) = Dict.get key acc) ->
  forall acc, Dict.get key (fold_left step xs acc) = Dict.get key acc.
Proof.
  induction xs as [|x rest IH]; simpl; intros Hstep acc; auto.
  rewrite IH; auto.
Qed.

Lemma existsb_eqb_in key keys :
  existsb (String.eqb key) keys = true <-> In key keys.
Proof.
  rewrite existsb_exists. split.
  - intros (x & Hin & E). apply String.eqb_eq in E. now subst.
  - intros H. exists key. now rewrite String.eqb_refl.
Qed.

Module ExtFacts.

Lemma copy_entry_get src dst key k :
  Dict.get k (Ext.copy_entry src dst key) =
  if startswith key "x-" && String.eqb k key
  then Some (Dict.item key src) else Dict.get k dst.
Proof.
  unfold Ext.copy_entry. destruct (startswith key "x-"); simpl; auto.
  apply DictFacts.get_set.
Qed.

Lemma fold_copy_get src k keys : forall dst,
  Dict.get k (fold_left (Ext.copy_entry src) keys dst) =
  if startswith k "x-" && existsb (String.eqb k) keys
  then Some (Dict.item k src) else Dict.get k dst.
Proof.
  induction keys as [|key rest IH]; simpl; intros dst.
  - now rewrite andb_false_r.
  - rewrite IH, copy_entry_get.
    destruct (String.eqb k key) eqn:E.
    + apply String.eqb_eq in E. subst key.
      destruct (startswith k "x-"); simpl; auto.
      now destruct (existsb (String.eqb k) rest).
    + rewrite andb_false_r. reflexivity.
Qed.

(** Extension keys of the source arrive with the source's value. *)
Lemma copy_get_extension src dst k v :
  startswith k "x-" = true -> Dict.get k src = Some v ->
  Dict.get k (Ext.copy src dst) = Some v.
Proof.
  intros Hx Hget. unfold Ext.copy. rewrite fold_copy_get, Hx.
  apply DictFacts.get_in_keys in Hget as Hin.
  apply existsb_eqb_in in Hin. rewrite Hin. simpl.
  unfold Dict.item. now rewrite Hget.
Qed.

(** Other keys are left as they were. *)
Lemma copy_get_other src dst k :
  startswith k "x-" = false ->
  Dict.get k (Ext.copy src dst) = Dict.get k dst.
Proof.
  intros Hx. unfold Ext.copy. now rewrite fold_copy_get, Hx.
Qed.

End ExtFacts.

(** ** Parameter converter *)

(** C10: a parameter that is only a [$ref] converts to the empty mapping; the
    reference is neither rewritten nor kept. *)
Theorem convert_parameter_drops_ref :
  forall field_order ref,
    convert_parameter field_order (VDict [("$ref", ref)]) = Some [].
Proof. intros field_order ref. reflexivity. Qed.

(** ** Operation converter *)

Lemma not_extension_neq k key :
  startswith k "x-" = false -> startswith key "x-" = true ->
  String.eqb k key = false.
Proof.
  intros Hk Hkey. destruct (String.eqb k key) eqn:E; auto.
  apply String.eqb_eq in E. congruence.
Qed.

Module OperationFacts.

Lemma copy_key_get op k keys : forall acc,
  Dict.get k (fold_left (copy_operation_key op) keys acc) =
  if existsb (String.eqb k) keys && Dict.mem k op
  then Some (Dict.item k op) else Dict.get k acc.
Proof.
  induction keys as [|key rest IH]; simpl; intros acc; auto.
  rewrite IH. unfold copy_operation_key.
  destruct (String.eqb k key) eqn:E; simpl.
  - apply String.eqb_eq in E. subst key.
    destruct (Dict.mem k op) eqn:M.
    + rewrite andb_true_r, DictFacts.get_set_same.
      now destruct (existsb (String.eqb k) rest).
    + now rewrite andb_false_r.
  - destruct (Dict.mem key op); auto.
    rewrite DictFacts.get_set, E. reflexivity.
Qed.

Lemma extension_step_other op acc key k :
  startswith k "x-" = false ->
  Dict.get k (operation_extension op acc key) = Dict.get k acc.
Proof.
  intros Hk. unfold operation_extension.
  assert (Hstep : Dict.get k (Ext.copy_entry op acc key) = Dict.get k acc).
  { rewrite ExtFacts.copy_entry_get.
    destruct (startswith key "x-") eqn:Hkey; simpl; auto.
    now rewrite (not_extension_neq _ _ Hk Hkey). }
  destruct (String.eqb key "servers"), (String.eqb key "callbacks");
    rewrite ?DictFacts.get_set, ?(not_extension_neq k "x-servers" Hk eq_refl),
      ?(not_extension_neq k "x-callbacks" Hk eq_refl); exact Hstep.
Qed.

Lemma extensions_get_other op k keys acc :
  startswith k "x-" = false ->
  Dict.get k (fold_left (operation_extension op) keys acc) = Dict.get k acc.
Proof.
  intros Hk. apply fold_left_get_other.
  intros acc' key _. now apply extension_step_other.
Qed.

End OperationFacts.

(** The keys of a converted operation that are not vendor extensions. *)
Lemma convert_operation_inv field_order op out consumes produces :
  convert_operation field_order (VDict op) = Some (out, consumes, produces) ->
  exists declared body responses,
    convert_parameters field_order (py_get_default "parameters" (VList []) op)
    = Some declared /\
    match py_get "requestBody" op with
    | VDict rb => convert_request_body (VDict rb) = Some (body, consumes)
    | _ => body = [] /\ consumes = []
    end /\
    convert_responses field_order (py_get_default "responses" (VDict []) op)
    = Some (responses, produces) /\
    Dict.get "parameters" out
    = parameters_entry (operation_parameters declared body) /\
    Dict.get "responses" out = Some (VDict responses) /\
    Dict.get "consumes" out = media_type_entry consumes /\
    Dict.get "produces" out = media_type_entry produces.
Proof.
  unfold convert_operation. intros H.
  bind_inv H. rename a into declared, Ha into Hdecl.
  bind_inv H. destruct a as [parameters consumes'].
  bind_inv H. destruct a as [responses produces']. simpl in H.
  inversion H; subst out consumes' produces'. clear H.
  assert (Hbody : exists body,
             match py_get "requestBody" op with
             | VDict rb => convert_request_body (VDict rb) = Some (body, consumes)
             | _ => body = [] /\ consumes = []
             end /\ parameters = operation_parameters declared body).
  { destruct (py_get "requestBody" op);
      try (inversion Ha; subst; exists []; now repeat split).
    bind_inv Ha. destruct a as [body c]. simpl in Ha. inversion Ha; subst.
    exists body. split; [exact Ha1 | reflexivity]. }
  destruct Hbody as (body & Hrb & ->).
  exists declared, body, responses.
  split; [exact Hdecl|]. split; [exact Hrb|]. split; [exact Ha0|].
  rewrite !OperationFacts.extensions_get_other by reflexivity.
  assert (Hbase : forall k,
             existsb (String.eqb k)
               ["tags"; "summary"; "description"; "operationId"; "deprecated";
                "security"; "externalDocs"] = false ->
             Dict.get k
               (if Dict.mem "deprecated" op
                then Dict.set "deprecated" (Dict.item "deprecated" op)
                       (fold_left (copy_operation_key op)
                          ["tags"; "summary"; "description"; "operationId";
                           "deprecated"; "security"; "externalDocs"] [])
                else fold_left (copy_operation_key op)
                       ["tags"; "summary"; "description"; "operationId";
                        "deprecated"; "security"; "externalDocs"] []) = None).
  { intros k Hk.
    assert (Hd : String.eqb k "deprecated" = false).
    { simpl in Hk. repeat (apply orb_false_iff in Hk as [? Hk]); auto. }
    destruct (Dict.mem "deprecated" op);
      rewrite ?DictFacts.get_set, ?Hd, OperationFacts.copy_key_get, Hk;
      reflexivity. }
  set (base := if Dict.mem "deprecated" op then _ else _) in *.
  repeat split.
  - destruct produces, consumes; simpl;
      rewrite ?DictFacts.get_set; simpl;
      unfold parameters_entry;
      destruct (operation_parameters declared body) eqn:P; simpl;
      rewrite ?DictFacts.get_set; simpl; auto.
  - destruct produces, consumes; simpl;
      rewrite ?DictFacts.get_set; simpl; auto.
  - destruct produces, consumes; simpl;
      rewrite ?DictFacts.get_set; simpl; rewrite ?DictFacts.get_set; simpl;
      destruct (operation_parameters declared body) eqn:P; simpl;
      rewrite ?DictFacts.get_set; simpl; auto.
  - destruct produces, consumes; simpl;
      rewrite ?DictFacts.get_set; simpl; rewrite ?DictFacts.get_set; simpl;
      destruct (operation_parameters declared body) eqn:P; simpl;
      rewrite ?DictFacts.get_set; simpl; auto.
Qed.

(** ** Request body converter *)

Lemma convert_request_body_falsy_content rb :
  truthy (py_get_default "content" (VDict []) rb) = false ->
  convert_request_body (VDict rb) = Some ([], []).
Proof. unfold convert_request_body. now intros ->. Qed.

(** C9: a request body whose [content] is absent or empty converts, without
    an error, to an empty parameter and no consumed media types; the
    operation then lists only its declared parameters and has no [consumes]
    key. *)
Theorem request_body_without_content :
  forall field_order rb,
    Dict.get "content" rb = None \/ Dict.get "content" rb = Some (VDict []) ->
    convert_request_body (VDict rb) = Some ([], []) /\
    forall op out consumes produces,
      Dict.get "requestBody" op = Some (VDict rb) ->
      convert_operation field_order (VDict op) = Some (out, consumes, produces) ->
      consumes = [] /\
      Dict.get "consumes" out = None /\
      exists declared,
        convert_parameters field_order (py_get_default "parameters" (VList []) op)
        = Some declared /\
        Dict.get "parameters" out = parameters_entry declared.
Proof.
  intros field_order rb Hcontent.
  assert (Hrb : convert_request_body (VDict rb) = Some ([], [])).
  { apply convert_request_body_falsy_content. unfold py_get_default.
    now destruct Hcontent as [-> | ->]. }
  split; [exact Hrb|].
  intros op out consumes produces Hget Hop.
  apply convert_operation_inv in Hop
    as (declared & body & responses & Hdecl & Hbody & _ & Hpar & _ & Hcons & _).
  unfold py_get in Hbody. rewrite Hget, Hrb in Hbody.
  inversion Hbody; subst body consumes.
  repeat split; auto. exists declared. now split.
Qed.

Lemma request_body_without_content_witness :
  exists out,
    convert_operation PARAMETER_PRIMITIVE_FIELDS (VDict sample_operation)
    = Some (out, [], []) /\
    Dict.get "consumes" out = None /\
    Dict.get "parameters" out
    = Some (VList [VDict [("name", VStr "limit"); ("in", VStr "query");
                          ("type", VStr "integer")]]).
Proof.
  pose proof (request_body_without_content PARAMETER_PRIMITIVE_FIELDS
                [("description", VStr "nothing to send"); ("content", VDict [])]
                (or_intror eq_refl)) as [_ Hop].
  destruct (convert_operation PARAMETER_PRIMITIVE_FIELDS (VDict sample_operation))
    as [[[out consumes] produces]|] eqn:E; [|discriminate E].
  destruct (Hop sample_operation out consumes produces eq_refl E)
    as (Hc & Hcons & declared & Hdecl & Hpar).
  vm_compute in Hdecl. inversion Hdecl; subst declared. subst consumes.
  assert (produces = []) by (vm_compute in E; now inversion E). subst produces.
  exists out. repeat split; assumption.
Defined.

(** ** Building mappings entry by entry *)

Lemma map_values_get f items : forall acc out k,
  map_values f items acc = Some out ->
  NoDup (Dict.keys items) ->
  Dict.get k out =
  match Dict.get k items with
  | Some v => f v
  | None => Dict.get k acc
  end.
Proof.
  induction items as [|[name sub] rest IH]; simpl; intros acc out k H Hnd.
  - now inversion H.
  - bind_inv H. inversion Hnd as [|? ? Hnotin Hnd']; subst.
    rewrite (IH _ _ k H Hnd'). rewrite DictFacts.get_set.
    destruct (String.eqb k name) eqn:E.
    + apply String.eqb_eq in E. subst k.
      destruct (Dict.get name rest) eqn:G.
      * apply DictFacts.get_in_keys in G. contradiction.
      * now rewrite Ha.
    + reflexivity.
Qed.

Lemma build_dict_get f items out k v :
  build_dict f items = Some out ->
  NoDup (Dict.keys items) ->
  Dict.get k items = Some v ->
  Dict.get k out = f v.
Proof.
  intros H Hnd Hget. unfold build_dict in H.
  rewrite (map_values_get _ _ _ _ k H Hnd). now rewrite Hget.
Qed.

Lemma map_values_defined f items : forall acc out k v,
  map_values f items acc = Some out ->
  Dict.get k items = Some v ->
  exists v', f v = Some v'.
Proof.
  induction items as [|[name sub] rest IH]; simpl; intros acc out k v H Hget.
  - discriminate.
  - bind_inv H. destruct (String.eqb k name).
    + inversion Hget; subst. eauto.
    + eauto.
Qed.

Lemma build_dict_defined f items out k v :
  build_dict f items = Some out ->
  Dict.get k items = Some v ->
  exists v', f v = Some v'.
Proof. apply map_values_defined. Qed.

(** ** Components converter *)

Lemma convert_section_other f target section converted out k :
  convert_section f target section converted = Some out ->
  k <> target -> Dict.get k out = Dict.get k converted.
Proof.
  unfold convert_section. intros H Hne.
  destruct (truthy section); [|now inversion H].
  destruct section; try discriminate H. bind_inv H. inversion H; subst.
  apply DictFacts.get_set_other. congruence.
Qed.

Lemma convert_section_target f target entries converted out :
  convert_section f target (VDict entries) converted = Some out ->
  entries <> [] ->
  exists built,
    build_dict f entries = Some built /\
    Dict.get target out = Some (VDict built).
Proof.
  unfold convert_section. intros H Hne.
  destruct entries as [|e rest]; [contradiction|]. simpl in H.
  bind_inv H. inversion H; subst. exists a. split; auto.
  apply DictFacts.get_set_same.
Qed.

Lemma security_scheme_visibility scheme out :
  convert_security_scheme (VDict scheme) = Some out ->
  Dict.mem "x-ms-visibility" scheme = false ->
  Dict.get "x-ms-visibility" out = Some (VStr "important").
Proof.
  unfold convert_security_scheme, Dict.mem. intros H Hmem.
  destruct (Dict.get "x-ms-visibility" scheme) eqn:G; [discriminate|].
  inversion H; subst out. clear H.
  rewrite DictFacts.get_setdefault, String.eqb_refl.
  repeat match goal with
         | |- context [if ?c then _ else _] => destruct c
         end;
    rewrite ?DictFacts.get_pop; simpl; rewrite ?DictFacts.get_set; simpl;
    rewrite ?DictFacts.get_set; simpl; rewrite ?DictFacts.get_set; simpl;
    rewrite ?DictFacts.get_set; simpl; now rewrite ?G.
Qed.

(** C6: the bearer scheme [{type: http, scheme: bearer}] becomes the [apiKey]
    definition named [Authorization] in the header, marked with
    [x-original-http-scheme: bearer] and [x-ms-visibility: important], without
    its [scheme] key; and every converted security scheme that had no
    [x-ms-visibility] gets [x-ms-visibility: important]. *)
Theorem security_schemes_converted :
  forall field_order,
    (forall name,
        convert_components field_order
          (VDict [("securitySchemes", VDict [(name, bearer_scheme)])])
        = Some [("securityDefinitions", VDict [(name, bearer_definition)])]) /\
    (forall components schemes name scheme out,
        Dict.get "securitySchemes" components = Some (VDict schemes) ->
        NoDup (Dict.keys schemes) ->
        Dict.get name schemes = Some scheme ->
        convert_components field_order (VDict components) = Some out ->
        exists definitions converted,
          Dict.get "securityDefinitions" out = Some (VDict definitions) /\
          Dict.get name definitions = Some (VDict converted) /\
          (scheme = bearer_scheme -> VDict converted = bearer_definition) /\
          (forall s,
              scheme = VDict s -> Dict.mem "x-ms-visibility" s = false ->
              Dict.get "x-ms-visibility" converted = Some (VStr "important"))).
Proof.
  intros field_order. split; [reflexivity|].
  intros components schemes name scheme out Hsec Hnd Hname H.
  unfold convert_components in H. do 3 bind_inv H.
  unfold py_get in H. rewrite Hsec in H.
  apply convert_section_target in H as (built & Hbuilt & Hout);
    [|intros ->; discriminate Hname].
  pose proof (build_dict_get _ _ _ _ _ Hbuilt Hnd Hname) as Hdef.
  destruct (build_dict_defined _ _ _ _ _ Hbuilt Hname) as (v' & Hv').
  cbv beta in Hdef, Hv'. rewrite Hv' in Hdef.
  destruct (convert_security_scheme scheme) as [converted|] eqn:C;
    [|discriminate Hv'].
  simpl in Hv'. inversion Hv'; subst v'.
  exists built, converted. repeat split; auto.
  - intros ->. vm_compute in C. now inversion C.
  - intros s -> Hvis. eapply security_scheme_visibility; eauto.
Qed.

Lemma security_schemes_converted_witness :
  exists out definitions converted,
    convert_components PARAMETER_PRIMITIVE_FIELDS (VDict sample_components)
    = Some out /\
    Dict.get "securityDefinitions" out = Some (VDict definitions) /\
    Dict.get "apiKeyAuth" definitions = Some (VDict converted) /\
    Dict.get "x-ms-visibility" converted = Some (VStr "important").
Proof.
  destruct (convert_components PARAMETER_PRIMITIVE_FIELDS (VDict sample_components))
    as [out|] eqn:E; [|discriminate E].
  assert (Hnd : NoDup (Dict.keys sample_schemes)).
  { repeat constructor; simpl; intuition discriminate. }
  destruct (proj2 (security_schemes_converted PARAMETER_PRIMITIVE_FIELDS)
              sample_components sample_schemes "apiKeyAuth" _
              out eq_refl Hnd eq_refl E)
    as (definitions & converted & Hdefs & Hget & _ & Hvis).
  exists out, definitions, converted. repeat split; try assumption.
  exact (Hvis _ eq_refl eq_refl).
Defined.

(** ** Sorting media types *)

Module SortFacts.

Lemma ascii_compare_lt a b :
  Ascii.compare a b = Lt <-> (N_of_ascii a < N_of_ascii b)%N.
Proof. unfold Ascii.compare. apply N.compare_lt_iff. Qed.

Lemma ascii_compare_eq a b : Ascii.compare a b = Eq <-> a = b.
Proof.
  split.
  - apply Ascii.compare_eq_iff.
  - intros ->. unfold Ascii.compare. apply N.compare_refl.
Qed.

Lemma compare_refl s : String.compare s s = Eq.
Proof.
  induction s as [|c s IH]; simpl; auto.
  now rewrite (proj2 (ascii_compare_eq c c) eq_refl).
Qed.

Lemma compare_lt_trans a : forall b c,
  String.compare a b = Lt -> String.compare b c = Lt ->
  String.compare a c = Lt.
Proof.
  induction a as [|x a IH]; intros [|y b] [|z c]; simpl; try discriminate; auto.
  destruct (Ascii.compare x y) eqn:Exy; try discriminate;
    destruct (Ascii.compare y z) eqn:Eyz; try discriminate; intros Hab Hbc.
  - apply ascii_compare_eq in Exy, Eyz. subst.
    rewrite (proj2 (ascii_compare_eq z z) eq_refl). eauto.
  - apply ascii_compare_eq in Exy. subst. now rewrite Eyz.
  - apply ascii_compare_eq in Eyz. subst. now rewrite Exy.
  - apply (proj1 (ascii_compare_lt _ _)) in Exy.
    apply (proj1 (ascii_compare_lt _ _)) in Eyz.
    assert (H : Ascii.compare x z = Lt) by (apply ascii_compare_lt; lia).
    now rewrite H.
Qed.

Lemma le_cases a b : lex_le a b <-> a = b \/ String.compare a b = Lt.
Proof.
  unfold lex_le, String.leb. split.
  - destruct (String.compare a b) eqn:E; try discriminate; auto.
    apply String.compare_eq_iff in E. auto.
  - intros [-> | ->]; auto. now rewrite compare_refl.
Qed.

Lemma le_refl a : lex_le a a.
Proof. apply le_cases. auto. Qed.

Lemma le_trans a b c : lex_le a b -> lex_le b c -> lex_le a c.
Proof.
  rewrite !le_cases. intros [-> | Hab] [-> | Hbc]; auto.
  right. eapply compare_lt_trans; eauto.
Qed.

Lemma le_antisym a b : lex_le a b -> lex_le b a -> a = b.
Proof. apply String.leb_antisym. Qed.

Lemma le_total a b : lex_le a b \/ lex_le b a.
Proof. apply String.leb_total. Qed.

Lemma insert_in x y l : In y (insert_sorted x l) <-> y = x \/ In y l.
Proof.
  induction l as [|z rest IH]; simpl.
  - intuition.
  - destruct (String.leb x z); simpl; rewrite ?IH; intuition.
Qed.

Lemma sorted_in y l : In y (sorted l) <-> In y l.
Proof.
  induction l as [|x rest IH]; simpl; [tauto|].
  rewrite insert_in, IH. intuition.
Qed.

Lemma insert_strongly_sorted x l :
  StronglySorted lex_le l -> StronglySorted lex_le (insert_sorted x l).
Proof.
  induction 1 as [|z rest Hrest IH Hz]; simpl.
  - repeat constructor.
  - destruct (String.leb x z) eqn:E.
    + constructor; [now constructor|]. constructor; [exact E|].
      eapply Forall_impl; [|exact Hz]. intros w Hw. eapply le_trans; eauto.
    + constructor; [exact IH|]. apply Forall_forall. intros w Hw.
      apply insert_in in Hw as [-> | Hw].
      * destruct (le_total x z) as [H|H]; [unfold lex_le in H; congruence | exact H].
      * rewrite Forall_forall in Hz. auto.
Qed.

Lemma sorted_strongly_sorted l : StronglySorted lex_le (sorted l).
Proof.
  induction l as [|x rest IH]; simpl; [constructor|].
  now apply insert_strongly_sorted.
Qed.

Lemma insert_nodup x l :
  ~ In x l -> NoDup l -> NoDup (insert_sorted x l).
Proof.
  intros Hx Hl. induction Hl as [|z rest Hz Hrest IH]; simpl.
  - repeat constructor. auto.
  - destruct (String.leb x z).
    + constructor; [exact Hx | now constructor].
    + constructor.
      * rewrite insert_in. simpl in Hx. intuition congruence.
      * apply IH. simpl in Hx. tauto.
Qed.

Lemma sorted_nodup l : NoDup l -> NoDup (sorted l).
Proof.
  induction 1 as [|x rest Hx Hrest IH]; simpl; [constructor|].
  apply insert_nodup; auto. now rewrite sorted_in.
Qed.

Lemma fromkeys_in y l : In y (dict_fromkeys l) <-> In y l.
Proof.
  induction l as [|x rest IH]; simpl; [tauto|].
  rewrite filter_In, IH. destruct (String.eqb x y) eqn:E.
  - apply String.eqb_eq in E. subst. simpl. intuition discriminate.
  - apply String.eqb_neq in E. simpl. intuition congruence.
Qed.

Lemma fromkeys_nodup l : NoDup (dict_fromkeys l).
Proof.
  induction l as [|x rest IH]; simpl; constructor.
  - rewrite filter_In, String.eqb_refl. simpl. intuition discriminate.
  - now apply NoDup_filter.
Qed.

(** A strictly increasing arrangement of a set of strings is unique. *)
Lemma sorted_unique : forall l1 l2,
  StronglySorted lex_le l1 -> StronglySorted lex_le l2 ->
  NoDup l1 -> NoDup l2 ->
  (forall x, In x l1 <-> In x l2) ->
  l1 = l2.
Proof.
  induction l1 as [|x r1 IH]; intros [|y r2] S1 S2 N1 N2 Hsame; auto.
  - destruct (proj2 (Hsame y)); simpl; auto.
  - destruct (proj1 (Hsame x)); simpl; auto.
  - inversion S1 as [|? ? S1' F1]; inversion S2 as [|? ? S2' F2]; subst.
    inversion N1 as [|? ? Nx N1']; inversion N2 as [|? ? Ny N2']; subst.
    rewrite Forall_forall in F1, F2.
    assert (x = y).
    { destruct (proj1 (Hsame x) (or_introl eq_refl)) as [E | Hx]; auto.
      destruct (proj2 (Hsame y) (or_introl eq_refl)) as [E | Hy]; auto.
      apply le_antisym; auto. }
    subst y. f_equal. apply IH; auto.
    intros z. split; intros Hz.
    + destruct (proj1 (Hsame z) (or_intror Hz)) as [E | H]; auto.
      subst. contradiction.
    + destruct (proj2 (Hsame z) (or_intror Hz)) as [E | H]; auto.
      subst. contradiction.
Qed.

Lemma strongly_sorted_sorted l : StronglySorted lex_le l -> Sorted lex_le l.
Proof. apply StronglySorted_Sorted. Qed.

(** The emitted list depends only on the set of accumulated media types. *)
Lemma canonical_same_elements l l' :
  (forall x, In x l <-> In x l') ->
  sorted (dict_fromkeys l) = sorted (dict_fromkeys l').
Proof.
  intros H. apply sorted_unique;
    auto using sorted_strongly_sorted, sorted_nodup, fromkeys_nodup.
  intros x. rewrite !sorted_in, !fromkeys_in. apply H.
Qed.

End SortFacts.

(** C5: a converted operation has a [consumes] ([produces]) key exactly when
    it accumulated consumed (produced) media types; the list stored there is
    sorted, duplicate-free, has the accumulated media types as its elements,
    and is the same for any other order of accumulation. *)
Theorem operation_media_types_canonical :
  forall field_order op out consumes produces,
    convert_operation field_order (VDict op) = Some (out, consumes, produces) ->
    (Dict.mem "consumes" out = true <-> consumes <> []) /\
    (Dict.mem "produces" out = true <-> produces <> []) /\
    forall key accumulated,
      (key, accumulated) = ("consumes", consumes) \/
      (key, accumulated) = ("produces", produces) ->
      accumulated <> [] ->
      exists emitted,
        Dict.get key out = Some (media_types emitted) /\
        Sorted lex_le emitted /\
        NoDup emitted /\
        (forall m, In m emitted <-> In m accumulated) /\
        (forall reordered,
            Permutation accumulated reordered ->
            sorted (dict_fromkeys reordered) = emitted).
Proof.
  intros field_order op out consumes produces H.
  apply convert_operation_inv in H
    as (declared & body & responses & _ & _ & _ & _ & _ & Hcons & Hprod).
  assert (Hcanon : forall l, l <> [] ->
            exists emitted,
              media_type_entry l = Some (media_types emitted) /\
              Sorted lex_le emitted /\ NoDup emitted /\
              (forall m, In m emitted <-> In m l) /\
              (forall reordered,
                  Permutation l reordered ->
                  sorted (dict_fromkeys reordered) = emitted)).
  { intros l Hl. exists (sorted (dict_fromkeys l)). repeat split.
    - destruct l; [contradiction | reflexivity].
    - apply SortFacts.strongly_sorted_sorted, SortFacts.sorted_strongly_sorted.
    - apply SortFacts.sorted_nodup, SortFacts.fromkeys_nodup.
    - rewrite SortFacts.sorted_in, SortFacts.fromkeys_in. auto.
    - rewrite SortFacts.sorted_in, SortFacts.fromkeys_in. auto.
    - intros reordered Hperm. apply SortFacts.canonical_same_elements.
      intros x. split; intros Hx.
      + eapply Permutation_in; [apply Permutation_sym|]; eauto.
      + eapply Permutation_in; eauto. }
  unfold Dict.mem. rewrite Hcons, Hprod. repeat split.
  - destruct consumes; [discriminate | discriminate].
  - destruct consumes; [contradiction | reflexivity].
  - destruct produces; [discriminate | discriminate].
  - destruct produces; [contradiction | reflexivity].
  - intros key accumulated [E | E] Hne; inversion E; subst;
      destruct (Hcanon _ Hne) as (emitted & He & Hrest);
      exists emitted; (split; [congruence | exact Hrest]).
Qed.

Lemma operation_media_types_canonical_witness :
  exists out,
    convert_operation PARAMETER_PRIMITIVE_FIELDS (VDict sample_media_operation)
    = Some (out, ["application/json"],
            ["text/plain"; "application/json"; "application/json"]) /\
    Dict.get "produces" out
    = Some (media_types ["application/json"; "text/plain"]).
Proof.
  destruct (convert_operation PARAMETER_PRIMITIVE_FIELDS
              (VDict sample_media_operation))
    as [[[out consumes] produces]|] eqn:E; [|discriminate E].
  destruct (operation_media_types_canonical PARAMETER_PRIMITIVE_FIELDS
              sample_media_operation out consumes produces E)
    as (_ & _ & Hemit).
  assert (Hc : consumes = ["application/json"])
    by (vm_compute in E; now inversion E).
  assert (Hp : produces = ["text/plain"; "application/json"; "application/json"])
    by (vm_compute in E; now inversion E).
  subst consumes produces.
  destruct (Hemit "produces" _ (or_intror eq_refl)) as (emitted & Hget & _ & _ & _ & Hperm).
  { discriminate. }
  exists out. split; [reflexivity|].
  rewrite Hget, <- (Hperm _ (Permutation_refl _)). reflexivity.
Defined.

(** ** Responses converter *)

Module ResponseFacts.

Lemma put_example_other media_type v new_response k :
  k <> "examples" ->
  Dict.get k (put_example media_type v new_response) = Dict.get k new_response.
Proof.
  intros Hk. unfold put_example. apply DictFacts.get_set_other. congruence.
Qed.

Lemma fold_put_example_other media_type (g : string * value -> value) k examples :
  k <> "examples" ->
  forall acc,
    Dict.get k
      (fold_left (fun acc np => put_example media_type (g np) acc) examples acc)
    = Dict.get k acc.
Proof.
  intros Hk. apply fold_left_get_other.
  intros acc x _. now apply put_example_other.
Qed.



Lemma loop_produces_incl field_order items : forall acc produces out produces' m,
  convert_responses_loop field_order items acc produces = Some (out, produces') ->
  In m produces -> In m produces'.
Proof.
  induction items as [|[status response] rest IH]; simpl;
    intros acc produces out produces' m H Hin.
  - now inversion H; subst.
  - bind_inv H. eapply IH; [exact H|]. apply in_or_app. now left.
Qed.

Lemma loop_keeps field_order status items : forall acc produces out produces',
  convert_responses_loop field_order items acc produces = Some (out, produces') ->
  ~ In status (Dict.keys items) ->
  Dict.get status out = Dict.get status acc.
Proof.
  induction items as [|[s r] rest IH]; simpl; intros acc p out p' H Hn.
  - now inversion H; subst.
  - bind_inv H. rewrite (IH _ _ _ _ H) by tauto.
    apply DictFacts.get_set_other. tauto.
Qed.

Lemma loop_get field_order items : forall acc produces out produces' status response,
  convert_responses_loop field_order items acc produces = Some (out, produces') ->
  NoDup (Dict.keys items) ->
  Dict.get status items = Some response ->
  exists converted produced,
    convert_response field_order response = Some (converted, produced) /\
    Dict.get status out = Some (VDict converted) /\
    (forall m, In m produced -> In m produces').
Proof.
  induction items as [|[s r] rest IH]; simpl;
    intros acc produces out produces' status response H Hnd Hget.
  - discriminate.
  - bind_inv H. destruct a as [converted produced]. simpl in H.
    inversion Hnd as [|? ? Hnotin Hnd']; subst.
    destruct (String.eqb status s) eqn:E.
    + apply String.eqb_eq in E. subst s. inversion Hget; subst r.
      exists converted, produced. split; [exact Ha|]. split.
      * rewrite (loop_keeps _ _ _ _ _ _ _ H Hnotin).
        apply DictFacts.get_set_same.
      * intros m Hm. eapply loop_produces_incl; [exact H|].
        apply in_or_app. now right.
    + eapply IH; eauto.
Qed.

End ResponseFacts.



(** ** Keys written by the schema transformer *)

Lemma rename_of_target key k :
  rename_of key = Some k -> In k RENAME_TARGETS.
Proof.
  unfold rename_of. destruct (existsb _ _) eqn:E; [|discriminate].
  intros H. inversion H; subst k. clear H.
  apply existsb_eqb_in in E. simpl in E.
  repeat (destruct E as [<- | E]; [simpl; tauto|]). contradiction.
Qed.

(** An iteration writes at most the entry's own key or its renamed form. *)
Lemma convert_schema_entry_get_unrelated rec key val converted out k :
  convert_schema_entry rec key val converted = Some out ->
  k <> key -> rename_of key <> Some k ->
  Dict.get k out = Dict.get k converted.
Proof.
  intros H Hkey Hren.
  assert (Hother : forall w, Dict.get k (Dict.set key w converted) = Dict.get k converted).
  { intros w. apply DictFacts.get_set_other. congruence. }
  assert (Hrenamed : forall t w, rename_of key = Some t ->
             Dict.get k (Dict.set t w converted) = Dict.get k converted).
  { intros t w Ht. apply DictFacts.get_set_other. intros ->. now apply Hren. }
  unfold convert_schema_entry in H.
  destruct (String.eqb key "$ref").
  { destruct val; try discriminate H. inversion H; subst. apply Hother. }
  destruct (String.eqb key "nullable") eqn:E2.
  { apply String.eqb_eq in E2. subst key.
    destruct (truthy val); inversion H; subst; auto; now apply Hrenamed. }
  destruct (String.eqb key "deprecated") eqn:E3.
  { apply String.eqb_eq in E3. subst key. inversion H; subst. now apply Hrenamed. }
  destruct (String.eqb key "discriminator") eqn:E4.
  { apply String.eqb_eq in E4. subst key. inversion H; subst. now apply Hrenamed. }
  destruct (String.eqb key "example") eqn:E.
  { apply String.eqb_eq in E. subst key. inversion H; subst. apply Hother. }
  destruct (String.eqb key "examples") eqn:E6.
  { apply String.eqb_eq in E6. subst key. inversion H; subst. now apply Hrenamed. }
  destruct (is_composition key) eqn:C.
  { apply is_composition_cases in C.
    destruct C as [-> | [-> | [-> | ->]]]; simpl in H; bind_inv H;
      inversion H; subst; now apply Hrenamed. }
  destruct (String.eqb key "items" || String.eqb key "additionalProperties").
  { bind_inv H. inversion H; subst. apply Hother. }
  destruct (String.eqb key "properties").
  { destruct val; try discriminate H. bind_inv H. inversion H; subst. apply Hother. }
  destruct (String.eqb key "patternProperties").
  { destruct val; try discriminate H. bind_inv H. inversion H; subst. apply Hother. }
  destruct (String.eqb key "xml").
  { inversion H; subst. apply Hother. }
  bind_inv H. inversion H; subst. apply Hother.
Qed.

Lemma convert_schema_entry_get_other rec key val converted out k :
  convert_schema_entry rec key val converted = Some out ->
  k <> key -> ~ In k RENAME_TARGETS ->
  Dict.get k out = Dict.get k converted.
Proof.
  intros H Hkey Htarget.
  eapply convert_schema_entry_get_unrelated; eauto.
  intros Hren. apply Htarget. eapply rename_of_target; eauto.
Qed.

Lemma convert_schema_items_get_absent rec items k : forall converted out,
  convert_schema_items rec items converted = Some out ->
  ~ In k (Dict.keys items) -> ~ In k RENAME_TARGETS ->
  Dict.get k out = Dict.get k converted.
Proof.
  induction items as [|[key val] rest IH]; simpl; intros converted out H Hn Ht.
  - now inversion H; subst.
  - bind_inv H. rewrite (IH _ _ H) by tauto.
    eapply convert_schema_entry_get_other; eauto.
Qed.

Lemma mem_false_not_in k d : Dict.mem k d = false -> ~ In k (Dict.keys d).
Proof.
  unfold Dict.mem. intros H Hin.
  apply DictFacts.in_keys_get in Hin as (v & Hv). now rewrite Hv in H.
Qed.

(** ** Parameter extractor and converter *)

Module ParameterFacts.

Lemma update_get_absent d other k :
  Dict.get k other = None -> Dict.get k (Dict.update d other) = Dict.get k d.
Proof.
  unfold Dict.update. revert d.
  induction other as [|[key v] rest IH]; simpl; intros d H; auto.
  destruct (String.eqb k key) eqn:E; [discriminate|].
  rewrite IH by exact H. apply DictFacts.get_set_other.
  apply String.eqb_neq in E. congruence.
Qed.

(** A flattened field that is not an extension comes from the schema. *)
Lemma fields_get_absent field_order s fields k :
  schema_to_parameter_fields field_order (VDict s) = Some fields ->
  startswith k "x-" = false -> k <> "items" ->
  Dict.mem k s = false ->
  Dict.get k fields = None.
Proof.
  intros H Hx Hitems Hmem. simpl in H. bind_inv H. inversion H; subst. clear H.
  rewrite fold_left_get_other.
  2:{ intros acc [key v] _. unfold copy_new_extension. simpl.
      destruct (startswith key "x-") eqn:K; simpl; auto.
      destruct (negb (Dict.mem key acc)); auto.
      apply DictFacts.get_set_other. intros ->. congruence. }
  rewrite fold_left_get_other.
  2:{ intros acc field _. unfold copy_field.
      destruct (Dict.mem field s) eqn:M; auto.
      apply DictFacts.get_set_other. intros ->. congruence. }
  destruct (eq_str (py_get "type" s) "array" && is_dict (py_get "items" s)).
  - destruct (Dict.get_with _ _ _); [|discriminate Ha].
    bind_inv Ha. inversion Ha; subst. simpl.
    destruct (String.eqb k "items") eqn:E; auto.
    apply String.eqb_eq in E. contradiction.
  - now inversion Ha.
Qed.

Lemma base_get_absent p k :
  ~ In k ["name"; "in"; "description"; "required"; "x-deprecated";
          "allowEmptyValue"] ->
  Dict.get k
    (fold_left (copy_parameter_key p)
       ["name"; "in"; "description"; "required"; "deprecated";
        "allowEmptyValue"] []) = None.
Proof.
  intros Hk.
  rewrite fold_left_get_other; auto.
  intros acc key Hin. unfold copy_parameter_key.
  destruct (Dict.mem key p); auto.
  destruct (String.eqb key "deprecated") eqn:E;
    apply DictFacts.get_set_other; intros <-; apply Hk; simpl in *.
  - tauto.
  - apply String.eqb_neq in E. intuition congruence.
Qed.

End ParameterFacts.

Lemma apply_style_get p new_param :
  Dict.get "collectionFormat" (apply_style p new_param) =
  match collection_format_of_style (py_get "style" p) (py_get "explode" p) with
  | Some f => Some (VStr f)
  | None => Dict.get "collectionFormat" new_param
  end.
Proof.
  unfold apply_style, collection_format_of_style.
  destruct (py_get "style" p) as [| | | |style| |]; simpl; auto.
  destruct (String.eqb style "form") eqn:F.
  { apply String.eqb_eq in F. subst style. simpl.
    destruct (truthy (py_get "explode" p)); apply DictFacts.get_set_same. }
  simpl.
  destruct (String.eqb style "spaceDelimited") eqn:S.
  { apply String.eqb_eq in S. subst style. simpl. apply DictFacts.get_set_same. }
  destruct (String.eqb style "pipeDelimited") eqn:P.
  { apply DictFacts.get_set_same. }
  reflexivity.
Qed.

Lemma convert_schema_dict_inv schema converted :
  convert_schema schema = Some (VDict converted) ->
  exists entries,
    schema = VDict entries /\
    convert_schema_items convert_schema entries [] = Some converted.
Proof.
  destruct schema; simpl; intros H; try discriminate H.
  - bind_inv H. discriminate H.
  - bind_inv H. inversion H; subst. eauto.
Qed.

Lemma flatten_collection_format field_order schema new_param out :
  flatten_schema_into field_order schema new_param = Some out ->
  schema_has_key "collectionFormat" schema = false ->
  Dict.get "collectionFormat" out = Dict.get "collectionFormat" new_param.
Proof.
  unfold flatten_schema_into. intros H Hkey.
  destruct (truthy schema); [|now inversion H].
  bind_inv H. rename a into converted_schema. bind_inv H. rename a into fields.
  destruct converted_schema as [| | | | | |cs]; try discriminate H.
  apply convert_schema_dict_inv in Ha as (entries & -> & Hitems).
  simpl in Hkey.
  assert (Hcs : Dict.mem "collectionFormat" cs = false).
  { unfold Dict.mem.
    rewrite (convert_schema_items_get_absent _ _ "collectionFormat" _ _ Hitems).
    - reflexivity.
    - now apply mem_false_not_in.
    - simpl. intuition discriminate. }
  assert (Hfields : Dict.get "collectionFormat" fields = None).
  { eapply ParameterFacts.fields_get_absent; eauto. discriminate. }
  assert (Hupd : Dict.get "collectionFormat" (Dict.update new_param fields)
                 = Dict.get "collectionFormat" new_param)
    by now apply ParameterFacts.update_get_absent.
  destruct (Dict.mem "example" cs && negb (Dict.mem "x-example" _));
    inversion H; subst; auto.
  rewrite DictFacts.get_set_other by discriminate. exact Hupd.
Qed.

(** C4 (as amended): the style table always decides [collectionFormat] when
    the style is one of the three recognised ones; when the parameter's
    schema carries no [collectionFormat] of its own, the emitted
    [collectionFormat] is exactly what the table gives, so nothing is emitted
    for any other or absent style.  [explode] counts as true when truthy. *)
Theorem parameter_collection_format :
  forall field_order p out,
    convert_parameter field_order (VDict p) = Some out ->
    eq_str (py_get "in" p) "body" = false ->
    (forall f,
        collection_format_of_style (py_get "style" p) (py_get "explode" p)
        = Some f ->
        Dict.get "collectionFormat" out = Some (VStr f)) /\
    (schema_has_key "collectionFormat" (py_get "schema" p) = false ->
     Dict.get "collectionFormat" out
     = option_map VStr
         (collection_format_of_style (py_get "style" p) (py_get "explode" p))).
Proof.
  intros field_order p out H Hbody.
  unfold convert_parameter in H. rewrite Hbody in H.
  bind_inv H. inversion H; subst out. clear H.
  rewrite ExtFacts.copy_get_other by reflexivity.
  rewrite apply_style_get. split.
  - now intros f ->.
  - intros Hkey.
    destruct (collection_format_of_style _ _); [reflexivity|]. simpl.
    rewrite (flatten_collection_format _ _ _ _ Ha Hkey).
    apply ParameterFacts.base_get_absent. simpl. intuition discriminate.
Qed.

Lemma parameter_collection_format_witness :
  exists out,
    convert_parameter PARAMETER_PRIMITIVE_FIELDS (VDict sample_parameter)
    = Some out /\
    Dict.get "collectionFormat" out = Some (VStr "multi").
Proof.
  destruct (convert_parameter PARAMETER_PRIMITIVE_FIELDS (VDict sample_parameter))
    as [out|] eqn:E; [|discriminate E].
  exists out. split; [reflexivity|].
  destruct (parameter_collection_format PARAMETER_PRIMITIVE_FIELDS
              sample_parameter out E eq_refl) as [_ Hexact].
  exact (Hexact eq_refl).
Defined.

(** C4 (as stated) fails: a schema-level [collectionFormat] is flattened into
    the parameter although no style is given. *)
Lemma parameter_collection_format_from_schema :
  exists out,
    convert_parameter PARAMETER_PRIMITIVE_FIELDS (VDict styleless_parameter)
    = Some out /\
    eq_str (py_get "in" styleless_parameter) "body" = false /\
    py_get "style" styleless_parameter = VNone /\
    Dict.get "collectionFormat" out = Some (VStr "multi").
Proof.
  exists [("name", VStr "ids"); ("in", VStr "query");
          ("type", VStr "array"); ("collectionFormat", VStr "multi")].
  repeat split.
Qed.

(** ** Document converter *)

Module DocumentFacts.

Lemma components_get_absent field_order components out k :
  convert_components field_order components = Some out ->
  ~ In k ["definitions"; "parameters"; "responses"; "securityDefinitions"] ->
  Dict.get k out = None.
Proof.
  unfold convert_components. intros H Hk. simpl in Hk.
  destruct components; try discriminate H. do 3 bind_inv H.
  rewrite (convert_section_other _ _ _ _ _ k H) by intuition.
  rewrite (convert_section_other _ _ _ _ _ k Ha1) by intuition.
  rewrite (convert_section_other _ _ _ _ _ k Ha0) by intuition.
  rewrite (convert_section_other _ _ _ _ _ k Ha) by intuition.
  reflexivity.
Qed.

Lemma copy_if_truthy_other spec key swagger k :
  k <> key ->
  Dict.get k (copy_if_truthy spec key swagger) = Dict.get k swagger.
Proof.
  intros Hk. unfold copy_if_truthy. destruct (truthy (py_get key spec)); auto.
  apply DictFacts.get_set_other. congruence.
Qed.

Lemma apply_servers_first urlparse first rest swagger out :
  apply_servers urlparse (VList (first :: rest)) swagger = Some out ->
  exists host base_path schemes,
    parse_server urlparse first = Some (host, base_path, schemes) /\
    forall k,
      Dict.get k out =
      if String.eqb k "schemes" then
        match schemes_entry schemes with
        | Some v => Some v
        | None => Dict.get k swagger
        end
      else if String.eqb k "basePath" then
        match base_path_entry base_path with
        | Some v => Some v
        | None => Dict.get k swagger
        end
      else if String.eqb k "host" then
        match host_entry host with
        | Some v => Some v
        | None => Dict.get k swagger
        end
      else Dict.get k swagger.
Proof.
  unfold apply_servers. cbn [truthy]. intros H. bind_inv H.
  destruct a as [[host base_path] schemes].
  exists host, base_path, schemes. split; [exact Ha|].
  inversion H; subst out. clear H. intros k.
  unfold schemes_entry, base_path_entry, host_entry.
  destruct schemes as [|s ss]; cbn [truthy media_types map];
    destruct (String.eqb base_path "") eqn:B; cbn [negb andb orb];
    destruct (String.eqb base_path "/") eqn:B'; cbn [negb andb orb];
    destruct (String.eqb host "") eqn:Hh; cbn [negb];
    rewrite ?DictFacts.get_set;
    destruct (String.eqb k "schemes") eqn:K1; auto;
    rewrite ?DictFacts.get_set;
    destruct (String.eqb k "basePath") eqn:K2; auto;
    rewrite ?DictFacts.get_set;
    destruct (String.eqb k "host") eqn:K3; auto;
    try (apply String.eqb_eq in K1; subst k; discriminate);
    try (apply String.eqb_eq in K2; subst k; discriminate).
Qed.

Lemma copy_entry_set src key v dst k :
  startswith key "x-" = false ->
  Ext.copy_entry (Dict.set key v src) dst k = Ext.copy_entry src dst k.
Proof.
  intros Hkey. unfold Ext.copy_entry, Dict.item.
  destruct (startswith k "x-") eqn:K; auto.
  rewrite DictFacts.get_set_other; auto. congruence.
Qed.

(** Overwriting a key that is not an extension does not change what is
    copied. *)
Lemma copy_set src key v dst :
  startswith key "x-" = false -> Dict.mem key src = true ->
  Ext.copy (Dict.set key v src) dst = Ext.copy src dst.
Proof.
  intros Hkey Hmem. unfold Ext.copy.
  rewrite DictFacts.keys_set_present by exact Hmem.
  generalize (Dict.keys src) dst.
  induction l as [|k rest IH]; simpl; intros acc; auto.
  now rewrite copy_entry_set, IH.
Qed.

Lemma copy_if_truthy_set key v spec k swagger :
  k <> key ->
  copy_if_truthy (Dict.set key v spec) k swagger = copy_if_truthy spec k swagger.
Proof.
  intros Hk. unfold copy_if_truthy, Dict.item.
  rewrite DictFacts.py_get_set_other by exact Hk.
  rewrite DictFacts.get_set_other; auto.
Qed.

(** Only the head of the [servers] list is read. *)
Lemma servers_tail_irrelevant field_order urlparse spec first rest others :
  Dict.get "servers" spec = Some (VList (first :: rest)) ->
  convert_openapi_to_swagger field_order urlparse
    (VDict (Dict.set "servers" (VList (first :: others)) spec))
  = convert_openapi_to_swagger field_order urlparse (VDict spec).
Proof.
  intros Hservers. unfold convert_openapi_to_swagger.
  rewrite !DictFacts.py_get_default_set_other by discriminate.
  rewrite (DictFacts.py_get_set_other "servers" _ spec "components") by discriminate.
  unfold py_get at 1 2. rewrite DictFacts.get_set_same.
  replace (py_get "servers" spec) with (VList (first :: rest))
    by (unfold py_get; now rewrite Hservers).
  cbn [truthy].
  apply bind_ext; [reflexivity|]. intros swagger.
  rewrite !copy_if_truthy_set by discriminate.
  apply bind_ext; [reflexivity|]. intros converted_components.
  destruct (py_get_default "paths" (VDict []) spec); try reflexivity.
  apply bind_ext; [reflexivity|]. intros converted_paths.
  rewrite copy_set;
    [reflexivity | reflexivity | unfold Dict.mem; now rewrite Hservers].
Qed.

End DocumentFacts.

(** C8 (as amended): with a non-empty [servers] list the first entry is a
    server object, and [host], [basePath] and [schemes] of the converted
    document are the network location, the path and the scheme that
    [urlparse] finds in its [url] (["/"] when it has none), each left out
    when empty and [basePath] also when it is ["/"]; the output is the same
    whatever servers follow the first.  With a URL parser that splits
    [https://api.example.com/v1] as the standard library does, the scenario
    of the specification, written with server objects, gives host
    [api.example.com], basePath [/v1] and schemes [[https]]. *)
Theorem first_server_only :
  forall field_order urlparse spec first rest out,
    Dict.get "servers" spec = Some (VList (first :: rest)) ->
    convert_openapi_to_swagger field_order urlparse (VDict spec) = Some out ->
    (exists server parsed,
        first = VDict server /\
        urlparse (py_get_default "url" (VStr "/") server) = Some parsed /\
        Dict.get "host" out = host_entry (netloc parsed) /\
        Dict.get "basePath" out = base_path_entry (path parsed) /\
        Dict.get "schemes" out = scheme_entry (scheme parsed)) /\
    (forall others,
        convert_openapi_to_swagger field_order urlparse
          (VDict (Dict.set "servers" (VList (first :: others)) spec))
        = Some out) /\
    (first = VDict [("url", VStr "https://api.example.com/v1")] ->
     urlparse (VStr "https://api.example.com/v1")
     = Some (mkParseResult "https" "api.example.com" "/v1") ->
     Dict.get "host" out = Some (VStr "api.example.com") /\
     Dict.get "basePath" out = Some (VStr "/v1") /\
     Dict.get "schemes" out = Some (VList [VStr "https"])).
Proof.
  intros field_order urlparse spec first rest out Hservers H.
  assert (Hfirst : exists host base_path schemes,
             parse_server urlparse first = Some (host, base_path, schemes) /\
             Dict.get "host" out = host_entry host /\
             Dict.get "basePath" out = base_path_entry base_path /\
             Dict.get "schemes" out = schemes_entry schemes).
  { unfold convert_openapi_to_swagger in H.
    replace (py_get "servers" spec) with (VList (first :: rest)) in H
      by (unfold py_get; now rewrite Hservers).
    cbn [truthy] in H. bind_inv H. rename a into swagger.
    bind_inv H. rename a into converted_components.
    destruct (py_get_default "paths" (VDict []) spec); try discriminate H.
    bind_inv H. inversion H; subst out. clear H.
    apply DocumentFacts.apply_servers_first in Ha
      as (host & base_path & schemes & Hparse & Hget).
    exists host, base_path, schemes. split; [exact Hparse|].
    assert (Hout : forall k,
               startswith k "x-" = false -> k <> "paths" ->
               ~ In k ["definitions"; "parameters"; "responses";
                       "securityDefinitions"] ->
               k <> "security" -> k <> "externalDocs" -> k <> "tags" ->
               Dict.get k
                 (Ext.copy spec
                    (Dict.set "paths" (VDict a)
                       (Dict.update
                          (copy_if_truthy spec "security"
                             (copy_if_truthy spec "externalDocs"
                                (copy_if_truthy spec "tags" swagger)))
                          converted_components)))
               = Dict.get k swagger).
    { intros k Hx Hpaths Hcomp Hs He Ht.
      rewrite ExtFacts.copy_get_other by exact Hx.
      rewrite DictFacts.get_set_other by congruence.
      rewrite ParameterFacts.update_get_absent
        by (eapply DocumentFacts.components_get_absent; eauto).
      now rewrite !DocumentFacts.copy_if_truthy_other. }
    rewrite !Hout; try discriminate; try reflexivity;
      try (simpl; intuition discriminate).
    rewrite !Hget. simpl.
    unfold host_entry, base_path_entry, schemes_entry.
    repeat split.
    - now destruct (String.eqb host "").
    - now destruct (String.eqb base_path "" || String.eqb base_path "/").
    - now destruct schemes. }
  assert (Hurl : exists server parsed,
             first = VDict server /\
             urlparse (py_get_default "url" (VStr "/") server) = Some parsed /\
             Dict.get "host" out = host_entry (netloc parsed) /\
             Dict.get "basePath" out = base_path_entry (path parsed) /\
             Dict.get "schemes" out = scheme_entry (scheme parsed)).
  { destruct Hfirst as (host & base_path & schemes & Hparse & Hh & Hb & Hs).
    unfold parse_server in Hparse.
    destruct first as [| | | | | |server]; try discriminate Hparse.
    bind_inv Hparse. rename a into parsed.
    inversion Hparse; subst host base_path schemes. clear Hparse.
    exists server, parsed. split; [reflexivity|]. split; [exact Ha|].
    rewrite Hh, Hb, Hs.
    unfold host_entry, base_path_entry, schemes_entry, scheme_entry, media_types.
    repeat split.
    - destruct (String.eqb (netloc parsed) "") eqn:E; cbn [negb];
        [reflexivity | now rewrite E].
    - destruct (String.eqb (path parsed) "") eqn:E; cbn [negb orb];
        [reflexivity | now rewrite E].
    - now destruct (String.eqb (scheme parsed) ""). }
  split; [exact Hurl|]. split.
  - intros others. rewrite <- H.
    eapply DocumentFacts.servers_tail_irrelevant; eauto.
  - intros -> Hsplit.
    destruct Hurl as (server & parsed & Hserver & Hparsed & Hh & Hb & Hs).
    inversion Hserver; subst server. clear Hserver.
    change (py_get_default "url" (VStr "/")
              [("url", VStr "https://api.example.com/v1")])
      with (VStr "https://api.example.com/v1") in Hparsed.
    rewrite Hsplit in Hparsed. inversion Hparsed; subst parsed.
    rewrite Hh, Hb, Hs. repeat split.
Qed.

Lemma first_server_only_witness :
  exists out,
    convert_openapi_to_swagger PARAMETER_PRIMITIVE_FIELDS Url.urlparse
      (VDict sample_document) = Some out /\
    Dict.get "host" out = Some (VStr "api.example.com") /\
    Dict.get "basePath" out = Some (VStr "/v1") /\
    Dict.get "schemes" out = Some (VList [VStr "https"]) /\
    convert_openapi_to_swagger PARAMETER_PRIMITIVE_FIELDS Url.urlparse
      (VDict (Dict.set "servers"
                (VList [VDict [("url", VStr "https://api.example.com/v1")]])
                sample_document)) = Some out.
Proof.
  destruct (convert_openapi_to_swagger PARAMETER_PRIMITIVE_FIELDS Url.urlparse
              (VDict sample_document)) as [out|] eqn:E; [|discriminate E].
  destruct (first_server_only PARAMETER_PRIMITIVE_FIELDS Url.urlparse
              sample_document
              (VDict [("url", VStr "https://api.example.com/v1")])
              [VDict [("url", VStr "https://backup.example.com/v1")]]
              out eq_refl E) as (_ & Htail & Hscenario).
  destruct (Hscenario eq_refl eq_refl) as (Hh & Hb & Hs).
  exists out. repeat split; auto.
Defined.

(** C8 (as stated) fails on its own example: an entry of [servers] is read
    with [server.get], so a list of bare URL strings makes the conversion
    raise instead of yielding a host. *)
Lemma servers_as_url_strings_raise :
  convert_openapi_to_swagger PARAMETER_PRIMITIVE_FIELDS Url.urlparse
    (VDict [("servers",
             VList [VStr "https://api.example.com/v1";
                    VStr "https://backup.example.com/v1"])])
  = None
  /\ forall field_order urlparse spec url rest,
       Dict.get "servers" spec = Some (VList (VStr url :: rest)) ->
       convert_openapi_to_swagger field_order urlparse (VDict spec) = None.
Proof.
  split; [reflexivity|].
  intros field_order urlparse spec url rest Hservers.
  unfold convert_openapi_to_swagger.
  replace (py_get "servers" spec) with (VList (VStr url :: rest))
    by (unfold py_get; now rewrite Hservers).
  reflexivity.
Qed.

(** ** Vendor extensions *)

Module ExtensionFacts.

Lemma extension_neq key c :
  startswith key "x-" = true -> startswith c "x-" = false ->
  String.eqb key c = false.
Proof.
  intros Hk Hc. rewrite String.eqb_sym. now apply not_extension_neq.
Qed.

(** An extension key falls through to the last branch of the loop body. *)
Lemma schema_entry_extension rec key val converted :
  startswith key "x-" = true ->
  convert_schema_entry rec key val converted
  = (val' <- rec val ;; Some (Dict.set key val' converted)).
Proof.
  intros Hx. unfold convert_schema_entry, is_composition. simpl.
  rewrite !(extension_neq key _ Hx) by reflexivity. reflexivity.
Qed.

Lemma schema_items_untouched key items : forall converted out,
  convert_schema_items convert_schema items converted = Some out ->
  ~ In key (Dict.keys items) ->
  (forall k, In k (Dict.keys items) -> rename_of k <> Some key) ->
  Dict.get key out = Dict.get key converted.
Proof.
  induction items as [|[k w] rest IH]; simpl; intros c out H Hn He.
  - now inversion H; subst.
  - bind_inv H. rewrite (IH _ _ H); [|tauto|auto].
    eapply convert_schema_entry_get_unrelated;
      [exact Ha | intros ->; tauto | apply He; auto].
Qed.

Lemma schema_items_extension items key : forall converted out v,
  startswith key "x-" = true ->
  convert_schema_items convert_schema items converted = Some out ->
  NoDup (Dict.keys items) ->
  Dict.get key items = Some v ->
  (forall k, In k (Dict.keys items) -> rename_of k <> Some key) ->
  Dict.get key out = convert_schema v.
Proof.
  induction items as [|[k w] rest IH]; simpl;
    intros converted out v Hx H Hnd Hget Hexempt.
  - discriminate.
  - bind_inv H. inversion Hnd as [|? ? Hnotin Hnd']; subst.
    destruct (String.eqb key k) eqn:E.
    + apply String.eqb_eq in E. subst k. inversion Hget; subst w.
      rewrite schema_entry_extension in Ha by exact Hx. bind_inv Ha.
      inversion Ha; subst a. rewrite Ha0.
      rewrite (schema_items_untouched _ _ _ _ H Hnotin) by auto.
      apply DictFacts.get_set_same.
    + rewrite (IH _ _ _ Hx H Hnd' Hget) by auto.
      reflexivity.
Qed.

Lemma schema_exempt_spec key node :
  extension_exempt SchemaNode key node = false ->
  forall k, In k (Dict.keys node) -> rename_of k <> Some key.
Proof.
  simpl. intros H k Hin Hren.
  assert (existsb (fun k => match rename_of k with
                            | Some target => String.eqb key target
                            | None => false
                            end) (Dict.keys node) = true).
  { apply existsb_exists. exists k. split; auto.
    rewrite Hren. apply String.eqb_refl. }
  congruence.
Qed.

Lemma operation_step op acc key k :
  startswith k "x-" = true ->
  (key = "callbacks" -> k <> "x-callbacks") ->
  (key = "servers" -> k <> "x-servers") ->
  Dict.get k (operation_extension op acc key) =
  if String.eqb k key then Some (Dict.item key op) else Dict.get k acc.
Proof.
  intros Hx Hc Hs. unfold operation_extension.
  assert (Hcopy : Dict.get k (Ext.copy_entry op acc key) =
                  if String.eqb k key then Some (Dict.item key op)
                  else Dict.get k acc).
  { rewrite ExtFacts.copy_entry_get.
    destruct (String.eqb k key) eqn:E.
    - apply String.eqb_eq in E. subst key. now rewrite Hx.
    - now rewrite andb_false_r. }
  destruct (String.eqb key "servers") eqn:S.
  - apply String.eqb_eq in S. subst key.
    rewrite DictFacts.get_set_other by (intros E; now apply Hs).
    exact Hcopy.
  - destruct (String.eqb key "callbacks") eqn:C; [|exact Hcopy].
    apply String.eqb_eq in C. subst key.
    rewrite DictFacts.get_set_other by (intros E; now apply Hc).
    exact Hcopy.
Qed.

Lemma operation_fold op k keys : forall acc,
  startswith k "x-" = true ->
  (k = "x-callbacks" -> ~ In "callbacks" keys) ->
  (k = "x-servers" -> ~ In "servers" keys) ->
  Dict.get k (fold_left (operation_extension op) keys acc) =
  if existsb (String.eqb k) keys then Some (Dict.item k op)
  else Dict.get k acc.
Proof.
  induction keys as [|key rest IH]; simpl; intros acc Hx Hc Hs; auto.
  rewrite IH by (auto; intros E; specialize (Hc E) || specialize (Hs E); tauto).
  rewrite operation_step;
    [|exact Hx | intros -> E; apply (Hc E); auto | intros -> E; apply (Hs E); auto].
  destruct (String.eqb k key) eqn:E; simpl.
  - apply String.eqb_eq in E. subst key.
    now destruct (existsb (String.eqb k) rest).
  - reflexivity.
Qed.

Lemma path_step pi acc key k :
  startswith k "x-" = true ->
  (key = "servers" -> k <> "x-servers") ->
  Dict.get k (path_extension pi acc key) =
  if String.eqb k key then Some (Dict.item key pi) else Dict.get k acc.
Proof.
  intros Hx Hs. unfold path_extension.
  assert (Hcopy : Dict.get k (Ext.copy_entry pi acc key) =
                  if String.eqb k key then Some (Dict.item key pi)
                  else Dict.get k acc).
  { rewrite ExtFacts.copy_entry_get.
    destruct (String.eqb k key) eqn:E.
    - apply String.eqb_eq in E. subst key. now rewrite Hx.
    - now rewrite andb_false_r. }
  destruct (String.eqb key "servers") eqn:S; [|exact Hcopy].
  apply String.eqb_eq in S. subst key.
  rewrite DictFacts.get_set_other by (intros E; now apply Hs).
  exact Hcopy.
Qed.

Lemma path_fold pi k keys : forall acc,
  startswith k "x-" = true ->
  (k = "x-servers" -> ~ In "servers" keys) ->
  Dict.get k (fold_left (path_extension pi) keys acc) =
  if existsb (String.eqb k) keys then Some (Dict.item k pi)
  else Dict.get k acc.
Proof.
  induction keys as [|key rest IH]; simpl; intros acc Hx Hs; auto.
  rewrite IH by (auto; intros E; specialize (Hs E); tauto).
  rewrite path_step; [|exact Hx | intros -> E; apply (Hs E); auto].
  destruct (String.eqb k key) eqn:E; simpl.
  - apply String.eqb_eq in E. subst key.
    now destruct (existsb (String.eqb k) rest).
  - reflexivity.
Qed.

Lemma fold_present k node v (acc_get : option value) :
  Dict.get k node = Some v ->
  (if existsb (String.eqb k) (Dict.keys node) then Some (Dict.item k node)
   else acc_get) = Some v.
Proof.
  intros Hget. apply DictFacts.get_in_keys in Hget as Hin.
  apply existsb_eqb_in in Hin. rewrite Hin.
  unfold Dict.item. now rewrite Hget.
Qed.

Lemma security_scheme_extension scheme out k v :
  startswith k "x-" = true ->
  convert_security_scheme (VDict scheme) = Some out ->
  extension_exempt SecuritySchemeNode k scheme = false ->
  Dict.get k scheme = Some v ->
  Dict.get k out = Some v.
Proof.
  intros Hx H Hexempt Hget. unfold convert_security_scheme in H.
  inversion H; subst out. clear H.
  rewrite DictFacts.get_setdefault. simpl in Hexempt.
  assert (Htype : forall w d, Dict.get k (Dict.set "type" w d) = Dict.get k d).
  { intros. apply DictFacts.get_set_other. intros <-. discriminate. }
  assert (Hname : forall w d, Dict.get k (Dict.set "name" w d) = Dict.get k d).
  { intros. apply DictFacts.get_set_other. intros <-. discriminate. }
  assert (Hin : forall w d, Dict.get k (Dict.set "in" w d) = Dict.get k d).
  { intros. apply DictFacts.get_set_other. intros <-. discriminate. }
  assert (Hpop : forall d, Dict.get k (Dict.pop "scheme" d) = Dict.get k d).
  { intros. rewrite DictFacts.get_pop.
    now rewrite (extension_neq k "scheme" Hx eq_refl). }
  destruct (eq_str (py_get "type" scheme) "http");
    [|now rewrite Hget].
  destruct (eq_str (py_get "scheme" scheme) "basic").
  { now rewrite Hpop, Htype, Hget. }
  destruct (eq_str (py_get "scheme" scheme) "bearer"); [|now rewrite Hget].
  rewrite !andb_true_r in Hexempt.
  rewrite Hpop, DictFacts.get_set, Hexempt, Hin, Hname, Htype.
  now rewrite Hget.
Qed.

End ExtensionFacts.

(** C2 (as amended): on every node type, an extension key of the input that
    is not exempt is a key of the converted node; its value is the input's
    value, except in schemas, where the value is transformed like that of any
    other unrecognised key.  Exempt are: schema keys that collide with the
    renamed form of another key, [x-callbacks] / [x-servers] beside
    [callbacks] / [servers] on operations and path items,
    [x-original-http-scheme] on bearer schemes, and the keys of a request
    body without content. *)
Theorem vendor_extensions_carried :
  forall field_order urlparse kind node out key v,
    convert_node field_order urlparse kind (VDict node) = Some out ->
    NoDup (Dict.keys node) ->
    startswith key "x-" = true ->
    Dict.get key node = Some v ->
    extension_exempt kind key node = false ->
    Dict.get key out = carried kind v.
Proof.
  intros field_order urlparse kind node out key v H Hnd Hx Hget Hexempt.
  destruct kind; unfold convert_node in H; cbn [carried].
  - (* document *)
    unfold convert_openapi_to_swagger in H. bind_inv H. bind_inv H.
    destruct (py_get_default "paths" (VDict []) node); try discriminate H.
    bind_inv H. inversion H; subst out.
    now apply ExtFacts.copy_get_extension.
  - (* path item *)
    unfold convert_path_item in H. bind_inv H. bind_inv H. inversion H; subst out.
    cbn [extension_exempt] in Hexempt.
    rewrite ExtensionFacts.path_fold.
    + eapply ExtensionFacts.fold_present; eauto.
    + exact Hx.
    + intros -> Hin. apply DictFacts.in_keys_get in Hin as (w & Hw).
      unfold Dict.mem in Hexempt. rewrite Hw in Hexempt. discriminate Hexempt.
  - (* operation *)
    destruct (convert_operation field_order (VDict node))
      as [[[converted consumes] produces]|] eqn:E; [|discriminate H].
    cbn in H. inversion H; subst converted. clear H.
    unfold convert_operation in E. do 3 bind_inv E.
    inversion E; subst out. cbn [extension_exempt] in Hexempt.
    apply orb_false_iff in Hexempt as [Hc Hs].
    rewrite ExtensionFacts.operation_fold.
    + eapply ExtensionFacts.fold_present; eauto.
    + exact Hx.
    + intros -> Hin. apply DictFacts.in_keys_get in Hin as (w & Hw).
      unfold Dict.mem in Hc. rewrite Hw in Hc. discriminate Hc.
    + intros -> Hin. apply DictFacts.in_keys_get in Hin as (w & Hw).
      unfold Dict.mem in Hs. rewrite Hw in Hs. discriminate Hs.
  - (* parameter *)
    unfold convert_parameter in H.
    destruct (eq_str (py_get "in" node) "body");
      bind_inv H; inversion H; subst out;
      now apply ExtFacts.copy_get_extension.
  - (* request body *)
    cbn [extension_exempt] in Hexempt. apply negb_false_iff in Hexempt.
    destruct (convert_request_body (VDict node)) as [[body consumes]|] eqn:E;
      [|discriminate H].
    cbn in H. inversion H; subst body. clear H.
    unfold convert_request_body in E. rewrite Hexempt in E. cbn [negb] in E.
    destruct (py_get_default "content" (VDict []) node) as [| | | | | |content];
      try discriminate E.
    destruct content as [|[media_type media_obj] content]; [discriminate E|].
    destruct media_obj; try discriminate E.
    bind_inv E. inversion E; subst out.
    now apply ExtFacts.copy_get_extension.
  - (* response *)
    destruct (convert_response field_order (VDict node)) as [[converted produced]|]
      eqn:E; [|discriminate H].
    cbn in H. inversion H; subst converted. clear H.
    unfold convert_response in E. do 2 bind_inv E. inversion E; subst out.
    now apply ExtFacts.copy_get_extension.
  - (* header *)
    unfold convert_header in H. bind_inv H. inversion H; subst out.
    now apply ExtFacts.copy_get_extension.
  - (* schema *)
    cbn [convert_schema] in H.
    destruct (convert_schema_items convert_schema node []) as [converted|] eqn:E;
      cbn in H; [|discriminate H].
    inversion H; subst converted.
    eapply ExtensionFacts.schema_items_extension; eauto.
    now apply ExtensionFacts.schema_exempt_spec.
  - (* security scheme *)
    eapply ExtensionFacts.security_scheme_extension; eauto.
Qed.

Lemma vendor_extensions_carried_witness :
  exists out,
    convert_node PARAMETER_PRIMITIVE_FIELDS Url.urlparse ParameterNode
      (VDict sample_node) = Some out /\
    Dict.get "x-example" out = Some (VInt 5).
Proof.
  destruct (convert_node PARAMETER_PRIMITIVE_FIELDS Url.urlparse ParameterNode
              (VDict sample_node)) as [out|] eqn:E; [|discriminate E].
  exists out. split; [reflexivity|].
  apply (vendor_extensions_carried PARAMETER_PRIMITIVE_FIELDS Url.urlparse
           ParameterNode sample_node out "x-example" (VInt 5) E).
  - repeat constructor; simpl; intuition discriminate.
  - reflexivity.
  - reflexivity.
  - reflexivity.
Defined.

(** C2 (as stated) fails.  A schema transforms the value of an extension, and
    a renamed key may overwrite one; a request body without content drops
    its extensions; [servers] overwrites [x-servers] on operations and path
    items; the bearer rewrite overwrites [x-original-http-scheme]. *)
Lemma vendor_extensions_not_always_kept :
  ~ extension_kept PARAMETER_PRIMITIVE_FIELDS Url.urlparse SchemaNode
      [("x-meta", VDict [("nullable", VBool true)])] "x-meta" /\
  ~ extension_kept PARAMETER_PRIMITIVE_FIELDS Url.urlparse SchemaNode
      [("x-deprecated", VStr "soon"); ("deprecated", VBool true)]
      "x-deprecated" /\
  ~ extension_kept PARAMETER_PRIMITIVE_FIELDS Url.urlparse RequestBodyNode
      [("x-codegen", VStr "skip"); ("content", VDict [])] "x-codegen" /\
  ~ extension_kept PARAMETER_PRIMITIVE_FIELDS Url.urlparse OperationNode
      [("x-servers", VStr "internal");
       ("servers", VList [VDict [("url", VStr "https://eu.example.com")]]);
       ("responses", VDict [])] "x-servers" /\
  ~ extension_kept PARAMETER_PRIMITIVE_FIELDS Url.urlparse PathItemNode
      [("x-servers", VStr "internal");
       ("servers", VList [VDict [("url", VStr "https://eu.example.com")]])]
      "x-servers" /\
  ~ extension_kept PARAMETER_PRIMITIVE_FIELDS Url.urlparse SecuritySchemeNode
      [("type", VStr "http"); ("scheme", VStr "bearer");
       ("x-original-http-scheme", VStr "token")] "x-original-http-scheme".
Proof.
  repeat split; intros H; specialize (H _ _ eq_refl eq_refl); discriminate H.
Qed.

(** * Further properties of the converters *)

(** ** Reference rewriter *)

Lemma replace_at_prefix old new c rest :
  String.prefix old (String c rest) = true ->
  replace (String c rest) old new
  = (new ++ replace_from old new rest (String.length old - 1))%string.
Proof.
  intros H. unfold replace. cbn [replace_from]. now rewrite H.
Qed.

Lemma prefix_nonempty_inv old s :
  old <> "" -> String.prefix old s = true -> exists c rest, s = String c rest.
Proof.
  intros Hold H. destruct s as [|c rest]; [|eauto].
  destruct old; [contradiction | discriminate H].
Qed.

Lemma convert_ref_not_source ref :
  forallb (fun pre => negb (startswith (convert_ref ref) pre)) SOURCE_REF_PREFIXES
  = true.
Proof.
  unfold convert_ref.
  repeat match goal with
         | |- context [if startswith ref ?pre then _ else _] =>
             let E := fresh "E" in
             destruct (startswith ref pre) eqn:E;
             [ unfold startswith in E;
               destruct (prefix_nonempty_inv pre ref) as (c & rest & ->);
               [discriminate | exact E |];
               rewrite (replace_at_prefix _ _ _ _ E); reflexivity | ]
         end.
  simpl. now rewrite E, E0, E1, E2, E3.
Qed.

(** X1: whatever the reference, the rewritten reference does not start with
    any of the five source-dialect prefixes. *)
Theorem convert_ref_leaves_no_source_prefix :
  forall ref pre,
    In pre SOURCE_REF_PREFIXES -> startswith (convert_ref ref) pre = false.
Proof.
  intros ref pre Hin.
  pose proof (convert_ref_not_source ref) as H.
  rewrite forallb_forall in H. apply negb_true_iff. now apply H.
Qed.

Lemma convert_ref_leaves_no_source_prefix_witness :
  startswith (convert_ref "#/components/responses/NotFound")
    "#/components/responses/" = false.
Proof.
  apply convert_ref_leaves_no_source_prefix. simpl. tauto.
Defined.

(** X2: rewriting a reference twice is the same as rewriting it once. *)
Theorem convert_ref_idempotent :
  forall ref, convert_ref (convert_ref ref) = convert_ref ref.
Proof.
  intros ref. pose proof (convert_ref_not_source ref) as H.
  simpl in H. rewrite !andb_true_iff, !negb_true_iff in H.
  destruct H as (H1 & H2 & H3 & H4 & H5 & _).
  now apply convert_ref_unrecognized.
Qed.

(** ** Where the schema transformer raises *)

Section SchemaDefined.



Lemma is_some_bind {A B : Type} (m : option A) (k : A -> option B) :
  (forall a, is_some (k a) = true) -> is_some (bind m k) = is_some m.
Proof. intros Hk. destruct m; simpl; auto. Qed.






End SchemaDefined.



(** ** Keys and values of a converted schema *)

Module SchemaFacts.

Lemma keys_set_absent key v d :
  ~ In key (Dict.keys d) -> Dict.keys (Dict.set key v d) = Dict.keys d ++ [key].
Proof.
  unfold Dict.keys. induction d as [|[k w] rest IH]; simpl; intros Hn; auto.
  destruct (String.eqb key k) eqn:E.
  - apply String.eqb_eq in E. subst. tauto.
  - simpl. rewrite IH; tauto.
Qed.

(** An iteration writes the keys [entry_keys] lists, and nothing else. *)
Lemma entry_writes rec key val converted out :
  convert_schema_entry rec key val converted = Some out ->
  (entry_keys (key, val) = [] /\ out = converted) \/
  (exists k v, entry_keys (key, val) = [k] /\ out = Dict.set k v converted).
Proof.
  unfold convert_schema_entry. intros H.
  destruct (String.eqb key "$ref") eqn:E1.
  { apply String.eqb_eq in E1. subst key. destruct val; try discriminate H.
    inversion H; subst. right. do 2 eexists. split; reflexivity. }
  destruct (String.eqb key "nullable") eqn:E2.
  { apply String.eqb_eq in E2. subst key. unfold entry_keys. cbn [fst snd].
    rewrite String.eqb_refl.
    destruct (truthy val); inversion H; subst;
      [right; do 2 eexists; split; reflexivity | left; auto]. }
  destruct (String.eqb key "deprecated") eqn:E3.
  { apply String.eqb_eq in E3. subst key. inversion H; subst.
    right. do 2 eexists. split; reflexivity. }
  destruct (String.eqb key "discriminator") eqn:E4.
  { apply String.eqb_eq in E4. subst key. inversion H; subst.
    right. do 2 eexists. split; reflexivity. }
  destruct (String.eqb key "example") eqn:E5.
  { apply String.eqb_eq in E5. subst key. inversion H; subst.
    right. do 2 eexists. split; reflexivity. }
  destruct (String.eqb key "examples") eqn:E6.
  { apply String.eqb_eq in E6. subst key. inversion H; subst.
    right. do 2 eexists. split; reflexivity. }
  destruct (is_composition key) eqn:C.
  { apply is_composition_cases in C.
    destruct C as [-> | [-> | [-> | ->]]]; simpl in H; bind_inv H;
      inversion H; subst; right; do 2 eexists; split; reflexivity. }
  assert (Hplain : entry_keys (key, val) = [key]).
  { unfold entry_keys, rename_of. cbn [fst snd existsb].
    rewrite E2, E3, E4, E6. cbn [orb].
    unfold is_composition in C. cbn [existsb] in C. now rewrite C. }
  rewrite Hplain.
  destruct (String.eqb key "items" || String.eqb key "additionalProperties").
  { bind_inv H. inversion H; subst. right. eauto. }
  destruct (String.eqb key "properties").
  { destruct val; try discriminate H. bind_inv H. inversion H; subst.
    right. eauto. }
  destruct (String.eqb key "patternProperties").
  { destruct val; try discriminate H. bind_inv H. inversion H; subst.
    right. eauto. }
  destruct (String.eqb key "xml").
  { inversion H; subst. right. eauto. }
  bind_inv H. inversion H; subst. right. eauto.
Qed.

Lemma items_keys rec items : forall converted out,
  convert_schema_items rec items converted = Some out ->
  NoDup (Dict.keys converted ++ converted_keys items) ->
  Dict.keys out = Dict.keys converted ++ converted_keys items.
Proof.
  induction items as [|[key val] rest IH]; simpl; intros converted out H Hnd.
  - inversion H; subst. now rewrite app_nil_r.
  - bind_inv H. apply entry_writes in Ha.
    destruct Ha as [[Hk ->] | (k & v & Hk & ->)]; rewrite Hk in *; simpl in *.
    + now apply IH.
    + assert (Hn : ~ In k (Dict.keys converted)).
      { intros Hin. apply NoDup_remove_2 in Hnd. apply Hnd.
        apply in_or_app. now left. }
      rewrite (IH _ _ H); rewrite keys_set_absent by exact Hn;
        rewrite <- app_assoc; simpl; auto.
Qed.

Lemma nodup_app_disjoint {A : Type} (l1 l2 : list A) x :
  NoDup (l1 ++ l2) -> In x l1 -> In x l2 -> False.
Proof.
  induction l1 as [|y l1 IH]; simpl; intros Hnd H1 H2; [contradiction|].
  inversion Hnd as [|? ? Hy Hnd']; subst. destruct H1 as [-> | H1].
  - apply Hy, in_or_app. now right.
  - eauto.
Qed.

Lemma items_app rec pre : forall post converted out,
  convert_schema_items rec (pre ++ post) converted = Some out ->
  exists mid,
    convert_schema_items rec pre converted = Some mid /\
    convert_schema_items rec post mid = Some out.
Proof.
  induction pre as [|[k w] pre IH]; simpl; intros post converted out H.
  - eauto.
  - bind_inv H. destruct (IH _ _ _ H) as (mid & Hpre & Hpost).
    exists mid. rewrite Ha. simpl. auto.
Qed.

Lemma items_untouched rec key items : forall converted out,
  convert_schema_items rec items converted = Some out ->
  ~ In key (converted_keys items) ->
  Dict.get key out = Dict.get key converted.
Proof.
  induction items as [|[k w] rest IH]; simpl; intros converted out H Hn.
  - now inversion H; subst.
  - bind_inv H. rewrite (IH _ _ H) by (intros Hin; apply Hn, in_or_app; auto).
    apply entry_writes in Ha.
    destruct Ha as [[_ ->] | (k' & v' & Hk & ->)]; auto.
    apply DictFacts.get_set_other. intros ->. apply Hn, in_or_app. left.
    rewrite Hk. simpl. auto.
Qed.

(** With all converted keys different, what an entry writes is still there
    at the end of the loop. *)
Lemma written_by rec entries out src v key :
  convert_schema_items rec entries [] = Some out ->
  NoDup (converted_keys entries) ->
  In (src, v) entries ->
  In key (entry_keys (src, v)) ->
  exists before after,
    convert_schema_entry rec src v before = Some after /\
    Dict.get key out = Dict.get key after.
Proof.
  intros H Hnd Hin Hkey.
  apply in_split in Hin as (pre & post & ->).
  apply items_app in H as (mid & Hpre & Hpost). simpl in Hpost. bind_inv Hpost.
  exists mid, a. split; [exact Ha|].
  eapply items_untouched; [exact Hpost|].
  unfold converted_keys in Hnd. rewrite flat_map_app in Hnd. simpl in Hnd.
  apply NoDup_app_remove_l in Hnd.
  intros Hpostkey.
  exact (nodup_app_disjoint _ _ _ Hnd Hkey Hpostkey).
Qed.

End SchemaFacts.

(** X4: the keys of a converted schema are the keys of the input in their
    order, each renamed key under its [x-] name and a falsy [nullable] left
    out, provided these names are all different. *)
Theorem convert_schema_keys_in_order :
  forall entries out,
    convert_schema (VDict entries) = Some (VDict out) ->
    NoDup (converted_keys entries) ->
    Dict.keys out = converted_keys entries.
Proof.
  intros entries out H Hnd. simpl in H. bind_inv H. inversion H; subst a.
  exact (SchemaFacts.items_keys _ _ _ _ Ha Hnd).
Qed.

Lemma convert_schema_keys_in_order_witness :
  exists out,
    convert_schema sample_schema = Some (VDict out) /\
    Dict.keys out = ["type"; "x-nullable"; "x-deprecated"; "properties"].
Proof.
  destruct (convert_schema sample_schema) as [[| | | | | |out]|] eqn:E;
    try discriminate E.
  exists out. split; [reflexivity|].
  apply (convert_schema_keys_in_order _ out E).
  repeat constructor; simpl; intuition discriminate.
Defined.

Lemma map_values_keys f items : forall acc out,
  map_values f items acc = Some out ->
  NoDup (Dict.keys acc ++ Dict.keys items) ->
  Dict.keys out = Dict.keys acc ++ Dict.keys items.
Proof.
  induction items as [|[name sub] rest IH]; simpl; intros acc out H Hnd.
  - inversion H; subst. now rewrite app_nil_r.
  - bind_inv H.
    assert (Hn : ~ In name (Dict.keys acc)).
    { intros Hin. apply NoDup_remove_2 in Hnd. apply Hnd, in_or_app. now left. }
    rewrite (IH _ _ H); rewrite SchemaFacts.keys_set_absent by exact Hn;
      rewrite <- app_assoc; simpl; auto.
Qed.

Lemma recursed_key_entry rec key val converted :
  is_recursed_key key = true ->
  convert_schema_entry rec key val converted
  = (val' <- rec val ;; Some (Dict.set key val' converted)) /\
  entry_keys (key, val) = [key].
Proof.
  unfold is_recursed_key. cbn [existsb]. rewrite negb_true_iff.
  intros H. repeat (apply orb_false_iff in H; destruct H as [? H]).
  unfold convert_schema_entry, entry_keys, rename_of, is_composition.
  cbn [fst snd existsb].
  repeat match goal with
         | E : String.eqb key _ = false |- _ => rewrite E; clear E
         end.
  cbn [orb].
  destruct (String.eqb key "items" || String.eqb key "additionalProperties");
    split; reflexivity.
Qed.

(** X5: in a converted schema whose keys are all different, [$ref] holds the
    rewritten reference, [example] and [xml] hold the input's value as it
    was, and every key without a rule of its own holds the transform of the
    input's value. *)
Theorem convert_schema_kept_keys :
  forall entries out,
    convert_schema (VDict entries) = Some (VDict out) ->
    NoDup (converted_keys entries) ->
    (forall v,
        In ("$ref", v) entries ->
        exists ref, v = VStr ref /\
                    Dict.get "$ref" out = Some (VStr (convert_ref ref))) /\
    (forall key v,
        In key ["example"; "xml"] -> In (key, v) entries ->
        Dict.get key out = Some v) /\
    (forall key v,
        is_recursed_key key = true -> In (key, v) entries ->
        Dict.get key out = convert_schema v).
Proof.
  intros entries out H Hnd. simpl in H. bind_inv H. inversion H; subst a.
  clear H. repeat split.
  - intros v Hin.
    destruct (SchemaFacts.written_by _ _ _ _ _ "$ref" Ha Hnd Hin)
      as (before & after & Hentry & Hget); [simpl; auto|].
    destruct v; try discriminate Hentry.
    change (Some (Dict.set "$ref" (VStr (convert_ref s)) before) = Some after)
      in Hentry.
    inversion Hentry; subst after. exists s. split; [reflexivity|].
    rewrite Hget. apply DictFacts.get_set_same.
  - intros key v Hkey Hin.
    destruct (SchemaFacts.written_by _ _ _ _ _ key Ha Hnd Hin)
      as (before & after & Hentry & Hget).
    { destruct Hkey as [<- | [<- | []]]; simpl; auto. }
    rewrite Hget.
    destruct Hkey as [<- | [<- | []]];
      [change (Some (Dict.set "example" v before) = Some after) in Hentry
      |change (Some (Dict.set "xml" v before) = Some after) in Hentry];
      inversion Hentry; subst after; apply DictFacts.get_set_same.
  - intros key v Hkey Hin.
    destruct (recursed_key_entry convert_schema key v [] Hkey) as [_ Hkeys].
    destruct (SchemaFacts.written_by _ _ _ _ _ key Ha Hnd Hin)
      as (before & after & Hentry & Hget).
    { rewrite Hkeys. simpl. auto. }
    rewrite (proj1 (recursed_key_entry convert_schema key v before Hkey)) in Hentry.
    bind_inv Hentry. inversion Hentry; subst after.
    rewrite Hget, Ha0. apply DictFacts.get_set_same.
Qed.

Lemma convert_schema_kept_keys_witness :
  exists out,
    convert_schema
      (VDict [("$ref", VStr "#/components/schemas/Pet");
              ("example", VDict [("nullable", VBool true)]);
              ("items", VDict [("nullable", VBool true)])])
    = Some (VDict out) /\
    Dict.get "$ref" out = Some (VStr "#/definitions/Pet") /\
    Dict.get "example" out = Some (VDict [("nullable", VBool true)]) /\
    Dict.get "items" out = Some (VDict [("x-nullable", VBool true)]).
Proof.
  destruct (convert_schema
              (VDict [("$ref", VStr "#/components/schemas/Pet");
                      ("example", VDict [("nullable", VBool true)]);
                      ("items", VDict [("nullable", VBool true)])]))
    as [[| | | | | |out]|] eqn:E; try discriminate E.
  destruct (convert_schema_kept_keys _ out E) as (Href & Hverb & Hrec).
  { repeat constructor; simpl; intuition discriminate. }
  exists out. split; [reflexivity|]. repeat split.
  - destruct (Href (VStr "#/components/schemas/Pet")) as (r & Hr & Hget);
      [simpl; auto|]. inversion Hr; subst r. exact Hget.
  - apply Hverb; simpl; auto.
  - rewrite (Hrec "items" (VDict [("nullable", VBool true)]));
      [reflexivity | reflexivity | simpl; auto].
Defined.

(** X6: in a converted schema whose keys are all different, [deprecated],
    [discriminator] and [examples] arrive under their [x-] name with the
    input's value as it was, [allOf], [anyOf], [oneOf] and [not] arrive under
    their [x-] name with the transform of the input's value, and a truthy
    [nullable] arrives as [x-nullable: true]. *)
Theorem convert_schema_renamed_values :
  forall entries out,
    convert_schema (VDict entries) = Some (VDict out) ->
    NoDup (converted_keys entries) ->
    (forall key v,
        In key ["deprecated"; "discriminator"; "examples"] ->
        In (key, v) entries ->
        Dict.get ("x-" ++ key) out = Some v) /\
    (forall key v,
        In key ["allOf"; "anyOf"; "oneOf"; "not"] ->
        In (key, v) entries ->
        Dict.get ("x-" ++ key) out = convert_schema v) /\
    (forall v,
        In ("nullable", v) entries -> truthy v = true ->
        Dict.get "x-nullable" out = Some (VBool true)).
Proof.
  intros entries out H Hnd. simpl in H. bind_inv H. inversion H; subst a.
  clear H. repeat split.
  - intros key v Hkey Hin.
    destruct (SchemaFacts.written_by _ _ _ _ _ ("x-" ++ key)%string Ha Hnd Hin)
      as (before & after & Hentry & Hget).
    { destruct Hkey as [<- | [<- | [<- | []]]]; simpl; auto. }
    rewrite Hget.
    destruct Hkey as [<- | [<- | [<- | []]]];
      [change (Some (Dict.set "x-deprecated" v before) = Some after) in Hentry
      |change (Some (Dict.set "x-discriminator" v before) = Some after) in Hentry
      |change (Some (Dict.set "x-examples" v before) = Some after) in Hentry];
      inversion Hentry; subst after; apply DictFacts.get_set_same.
  - intros key v Hkey Hin.
    destruct (SchemaFacts.written_by _ _ _ _ _ ("x-" ++ key)%string Ha Hnd Hin)
      as (before & after & Hentry & Hget).
    { destruct Hkey as [<- | [<- | [<- | [<- | []]]]]; simpl; auto. }
    rewrite Hget.
    destruct Hkey as [<- | [<- | [<- | [<- | []]]]];
      [change ((v' <- convert_schema v ;; Some (Dict.set "x-allOf" v' before))
               = Some after) in Hentry
      |change ((v' <- convert_schema v ;; Some (Dict.set "x-anyOf" v' before))
               = Some after) in Hentry
      |change ((v' <- convert_schema v ;; Some (Dict.set "x-oneOf" v' before))
               = Some after) in Hentry
      |change ((v' <- convert_schema v ;; Some (Dict.set "x-not" v' before))
               = Some after) in Hentry];
      bind_inv Hentry; inversion Hentry; subst after;
      rewrite Ha0; apply DictFacts.get_set_same.
  - intros v Hin Ht.
    destruct (SchemaFacts.written_by _ _ _ _ _ "x-nullable" Ha Hnd Hin)
      as (before & after & Hentry & Hget).
    { unfold entry_keys. cbn [fst snd]. rewrite String.eqb_refl, Ht. simpl. auto. }
    rewrite Hget.
    change ((if truthy v then Some (Dict.set "x-nullable" (VBool true) before)
             else Some before) = Some after) in Hentry.
    rewrite Ht in Hentry. inversion Hentry; subst after.
    apply DictFacts.get_set_same.
Qed.

Lemma convert_schema_renamed_values_witness :
  exists out,
    convert_schema
      (VDict [("deprecated", VBool true);
              ("nullable", VInt 1);
              ("oneOf", VList [VDict [("$ref", VStr "#/components/schemas/A")]])])
    = Some (VDict out) /\
    Dict.get "x-deprecated" out = Some (VBool true) /\
    Dict.get "x-nullable" out = Some (VBool true) /\
    Dict.get "x-oneOf" out
    = Some (VList [VDict [("$ref", VStr "#/definitions/A")]]).
Proof.
  destruct (convert_schema
              (VDict [("deprecated", VBool true);
                      ("nullable", VInt 1);
                      ("oneOf",
                       VList [VDict [("$ref", VStr "#/components/schemas/A")]])]))
    as [[| | | | | |out]|] eqn:E; try discriminate E.
  destruct (convert_schema_renamed_values _ out E) as (Hverb & Hrec & Hnull).
  { repeat constructor; simpl; intuition discriminate. }
  exists out. split; [reflexivity|]. repeat split.
  - apply (Hverb "deprecated"); simpl; auto.
  - apply (Hnull (VInt 1)); simpl; auto.
  - refine (eq_trans
              (Hrec "oneOf"
                 (VList [VDict [("$ref", VStr "#/components/schemas/A")]]) _ _)
              _);
      [simpl; auto | simpl; auto | reflexivity].
Defined.

(** X7: [properties] and [patternProperties] of a converted schema whose keys
    are all different list the same names in the same order, and each name
    holds the transform of the schema it held in the input. *)
Theorem convert_schema_properties :
  forall entries out key v,
    convert_schema (VDict entries) = Some (VDict out) ->
    NoDup (converted_keys entries) ->
    In key ["properties"; "patternProperties"] ->
    In (key, v) entries ->
    exists props props',
      v = VDict props /\
      Dict.get key out = Some (VDict props') /\
      (NoDup (Dict.keys props) ->
       Dict.keys props' = Dict.keys props /\
       forall name sub,
         Dict.get name props = Some sub ->
         Dict.get name props' = convert_schema sub).
Proof.
  intros entries out key v H Hnd Hkey Hin.
  simpl in H. bind_inv H. inversion H; subst a. clear H.
  destruct (SchemaFacts.written_by _ _ _ _ _ key Ha Hnd Hin)
    as (before & after & Hentry & Hget).
  { destruct Hkey as [<- | [<- | []]]; simpl; auto. }
  assert (Hshape : exists props props',
             v = VDict props /\
             map_values convert_schema props [] = Some props' /\
             after = Dict.set key (VDict props') before).
  { destruct Hkey as [<- | [<- | []]];
      [change (match v with
               | VDict items =>
                   props <- map_values convert_schema items [] ;;
                   Some (Dict.set "properties" (VDict props) before)
               | _ => None
               end = Some after) in Hentry
      |change (match v with
               | VDict items =>
                   props <- map_values convert_schema items [] ;;
                   Some (Dict.set "patternProperties" (VDict props) before)
               | _ => None
               end = Some after) in Hentry];
      destruct v; try discriminate Hentry; bind_inv Hentry;
      inversion Hentry; subst after; eauto. }
  destruct Hshape as (props & props' & -> & Hmap & ->).
  exists props, props'. split; [reflexivity|]. split.
  - rewrite Hget. apply DictFacts.get_set_same.
  - intros Hprops. split.
    + now apply (map_values_keys _ _ _ _ Hmap).
    + intros name sub Hsub.
      rewrite (map_values_get _ _ _ _ name Hmap Hprops). now rewrite Hsub.
Qed.

Lemma convert_schema_properties_witness :
  exists out props',
    convert_schema sample_schema = Some (VDict out) /\
    Dict.get "properties" out = Some (VDict props') /\
    Dict.keys props' = ["owner"; "tags"] /\
    Dict.get "owner" props'
    = Some (VDict [("$ref", VStr "#/definitions/User")]).
Proof.
  destruct (convert_schema sample_schema) as [[| | | | | |out]|] eqn:E;
    try discriminate E.
  destruct (convert_schema_properties _ out "properties"
              (match sample_schema with
               | VDict e => Dict.item "properties" e
               | _ => VNone
               end) E)
    as (props & props' & Hv & Hget & Hprops).
  - repeat constructor; simpl; intuition discriminate.
  - simpl. auto.
  - simpl. do 3 right. left. reflexivity.
  - cbv in Hv. inversion Hv; subst props. destruct Hprops as [Hkeys Hsub].
    { repeat constructor; simpl; intuition discriminate. }
    exists out, props'. split; [reflexivity|]. repeat split; auto.
    rewrite (Hsub "owner" _ eq_refl). reflexivity.
Defined.

(** ** Parameter extractor *)

Module FlattenFacts.

Lemma get_in_values key d v : Dict.get key d = Some v -> In v (map snd d).
Proof.
  induction d as [|[k w] rest IH]; simpl; [discriminate|].
  destruct (String.eqb key k); intros H; [inversion H; auto | auto].
Qed.

Lemma nodup_set key v d :
  NoDup (Dict.keys d) -> NoDup (Dict.keys (Dict.set key v d)).
Proof.
  intros Hnd. destruct (Dict.mem key d) eqn:M.
  - now rewrite DictFacts.keys_set_present.
  - rewrite SchemaFacts.keys_set_absent by now apply mem_false_not_in.
    apply NoDup_app; auto.
    + repeat constructor. simpl. tauto.
    + intros x Hx [<- | []]. now apply mem_false_not_in in M.
Qed.

Lemma nodup_fold {A : Type} (step : dict -> A -> dict) xs :
  (forall acc x, NoDup (Dict.keys acc) -> NoDup (Dict.keys (step acc x))) ->
  forall acc, NoDup (Dict.keys acc) -> NoDup (Dict.keys (fold_left step xs acc)).
Proof.
  intros Hstep. induction xs as [|x rest IH]; simpl; auto.
Qed.

Lemma fields_nodup field_order s fields :
  schema_to_parameter_fields field_order (VDict s) = Some fields ->
  NoDup (Dict.keys fields).
Proof.
  simpl. intros H. bind_inv H. inversion H; subst fields. clear H.
  apply nodup_fold.
  { intros acc [k v] Hacc. unfold copy_new_extension. cbn [fst snd].
    destruct (startswith k "x-" && negb (Dict.mem k acc));
      [apply nodup_set|]; assumption. }
  apply nodup_fold.
  { intros acc k Hacc. unfold copy_field.
    destruct (Dict.mem k s); [apply nodup_set|]; assumption. }
  destruct (eq_str (py_get "type" s) "array" && is_dict (py_get "items" s)).
  - destruct (Dict.get_with _ _ _); [|discriminate Ha].
    bind_inv Ha. inversion Ha; subst. repeat constructor. simpl. tauto.
  - inversion Ha; subst. constructor.
Qed.

Lemma update_get d other k :
  NoDup (Dict.keys other) ->
  Dict.get k (Dict.update d other) =
  match Dict.get k other with
  | Some v => Some v
  | None => Dict.get k d
  end.
Proof.
  unfold Dict.update. revert d.
  induction other as [|[key v] rest IH]; simpl; intros d Hnd; auto.
  inversion Hnd as [|? ? Hn Hnd']; subst. rewrite IH by exact Hnd'.
  rewrite DictFacts.get_set. destruct (String.eqb k key) eqn:E.
  - apply String.eqb_eq in E. subst key.
    destruct (Dict.get k rest) eqn:G; auto.
    apply DictFacts.get_in_keys in G. contradiction.
  - reflexivity.
Qed.

Lemma copy_fields_get s k fields : forall result,
  Dict.get k (fold_left (copy_field s) fields result) =
  if existsb (String.eqb k) fields && Dict.mem k s
  then Some (Dict.item k s) else Dict.get k result.
Proof.
  induction fields as [|field rest IH]; simpl; intros result; auto.
  rewrite IH. unfold copy_field.
  destruct (String.eqb k field) eqn:E; simpl.
  - apply String.eqb_eq in E. subst field.
    destruct (Dict.mem k s) eqn:M.
    + rewrite andb_true_r, DictFacts.get_set_same.
      now destruct (existsb (String.eqb k) rest).
    + now rewrite andb_false_r.
  - destruct (Dict.mem field s); auto.
    rewrite DictFacts.get_set, E. reflexivity.
Qed.

Lemma new_extensions_get k items : forall result,
  startswith k "x-" = true ->
  Dict.get k (fold_left copy_new_extension items result) =
  match Dict.get k result with
  | Some w => Some w
  | None => Dict.get k items
  end.
Proof.
  induction items as [|[key v] rest IH]; simpl; intros result Hx.
  - now destruct (Dict.get k result).
  - rewrite IH by exact Hx. unfold copy_new_extension. cbn [fst snd].
    destruct (String.eqb k key) eqn:E.
    + apply String.eqb_eq in E. subst key. rewrite Hx. cbn [andb].
      unfold Dict.mem. destruct (Dict.get k result) eqn:G; cbn [negb].
      * now rewrite G.
      * now rewrite DictFacts.get_set_same.
    + destruct (startswith key "x-" && negb (Dict.mem key result)); auto.
      rewrite DictFacts.get_set, E. reflexivity.
Qed.

Lemma new_extensions_other k items : forall result,
  startswith k "x-" = false ->
  Dict.get k (fold_left copy_new_extension items result) = Dict.get k result.
Proof.
  intros result Hx. apply fold_left_get_other. intros acc [key v] _.
  unfold copy_new_extension. cbn [fst snd].
  destruct (startswith key "x-") eqn:K; cbn [andb]; auto.
  destruct (negb (Dict.mem key acc)); auto.
  apply DictFacts.get_set_other. intros ->. congruence.
Qed.

Lemma permuted_fields field_order k :
  Permutation PARAMETER_PRIMITIVE_FIELDS field_order ->
  existsb (String.eqb k) field_order = is_primitive_field k.
Proof.
  intros Hperm. unfold is_primitive_field.
  destruct (existsb (String.eqb k) PARAMETER_PRIMITIVE_FIELDS) eqn:E.
  - apply existsb_eqb_in. apply existsb_eqb_in in E.
    eapply Permutation_in; eauto.
  - destruct (existsb (String.eqb k) field_order) eqn:E'; auto.
    apply existsb_eqb_in in E'.
    apply Permutation_sym in Hperm.
    pose proof (Permutation_in _ Hperm E') as Hin.
    apply existsb_eqb_in in Hin. congruence.
Qed.

(** The entry of the flattened mapping under each key. *)
Lemma fields_get field_order s fields k :
  Permutation PARAMETER_PRIMITIVE_FIELDS field_order ->
  schema_to_parameter_fields field_order (VDict s) = Some fields ->
  Dict.get k fields =
  if String.eqb k "items" then
    if eq_str (py_get "type" s) "array" && is_dict (py_get "items" s)
    then option_map VDict
           (schema_to_parameter_fields field_order (py_get "items" s))
    else None
  else if is_primitive_field k || startswith k "x-" then Dict.get k s
  else None.
Proof.
  intros Hperm H. simpl in H. bind_inv H. inversion H; subst fields. clear H.
  assert (Hbase : Dict.get k a =
                  if String.eqb k "items" then
                    if eq_str (py_get "type" s) "array" && is_dict (py_get "items" s)
                    then option_map VDict
                           (schema_to_parameter_fields field_order (py_get "items" s))
                    else None
                  else None).
  { destruct (eq_str (py_get "type" s) "array" && is_dict (py_get "items" s)) eqn:C.
    - rewrite DictFacts.get_with_spec in Ha.
      apply andb_true_iff in C as [_ Hd]. unfold py_get in *.
      destruct (Dict.get "items" s) as [items|]; [|discriminate Hd].
      simpl in Ha. bind_inv Ha. inversion Ha; subst a. rewrite Ha0. simpl.
      now destruct (String.eqb k "items").
    - inversion Ha; subst a. simpl. now destruct (String.eqb k "items"). }
  destruct (String.eqb k "items") eqn:I.
  - apply String.eqb_eq in I. subst k.
    rewrite new_extensions_other by reflexivity.
    rewrite copy_fields_get, (permuted_fields _ _ Hperm). exact Hbase.
  - destruct (startswith k "x-") eqn:X.
    + rewrite new_extensions_get by exact X.
      rewrite copy_fields_get, (permuted_fields _ _ Hperm), Hbase.
      rewrite orb_true_r. unfold Dict.mem, Dict.item.
      destruct (is_primitive_field k); cbn [andb];
        now destruct (Dict.get k s).
    + rewrite new_extensions_other by exact X.
      rewrite copy_fields_get, (permuted_fields _ _ Hperm), Hbase.
      rewrite orb_false_r. unfold Dict.mem, Dict.item.
      destruct (is_primitive_field k); cbn [andb]; auto.
      now destruct (Dict.get k s).
Qed.

End FlattenFacts.

(** X9: the flattened mapping holds, with the schema's value, every
    allow-listed key and every extension key of the schema; under [items] it
    holds the flattened [items] of an array schema whose [items] is a
    mapping; it holds no other key. *)
Theorem schema_to_parameter_fields_lookup :
  forall field_order s fields k,
    Permutation PARAMETER_PRIMITIVE_FIELDS field_order ->
    schema_to_parameter_fields field_order (VDict s) = Some fields ->
    Dict.get k fields =
    if String.eqb k "items" then
      if eq_str (py_get "type" s) "array" && is_dict (py_get "items" s)
      then option_map VDict
             (schema_to_parameter_fields field_order (py_get "items" s))
      else None
    else if is_primitive_field k || startswith k "x-" then Dict.get k s
    else None.
Proof. exact FlattenFacts.fields_get. Qed.

Lemma schema_to_parameter_fields_lookup_witness :
  exists fields,
    schema_to_parameter_fields PARAMETER_PRIMITIVE_FIELDS
      (VDict sample_array_schema) = Some fields /\
    Dict.get "minItems" fields = Some (VInt 1) /\
    Dict.get "x-order" fields = Some (VInt 2) /\
    Dict.get "description" fields = None /\
    Dict.get "items" fields = Some (VDict [("type", VStr "string")]).
Proof.
  destruct (schema_to_parameter_fields PARAMETER_PRIMITIVE_FIELDS
              (VDict sample_array_schema)) as [fields|] eqn:E; [|discriminate E].
  exists fields. split; [reflexivity|].
  repeat split;
    rewrite (schema_to_parameter_fields_lookup _ _ _ _ (Permutation_refl _) E);
    reflexivity.
Defined.

(** ** Parameter converter *)

Module ParameterLookup.

Lemma base_get p k keys : forall acc,
  k <> "deprecated" -> k <> "x-deprecated" ->
  Dict.get k (fold_left (copy_parameter_key p) keys acc) =
  if existsb (String.eqb k) keys && Dict.mem k p
  then Some (Dict.item k p) else Dict.get k acc.
Proof.
  intros acc Hd Hx. revert acc.
  induction keys as [|key rest IH]; simpl; intros acc; auto.
  rewrite IH. unfold copy_parameter_key.
  destruct (String.eqb k key) eqn:E; simpl.
  - apply String.eqb_eq in E. subst key.
    destruct (Dict.mem k p) eqn:M.
    + rewrite andb_true_r.
      destruct (String.eqb k "deprecated") eqn:D;
        [apply String.eqb_eq in D; contradiction|].
      rewrite DictFacts.get_set_same.
      now destruct (existsb (String.eqb k) rest).
    + now rewrite andb_false_r.
  - destruct (Dict.mem key p); auto.
    destruct (String.eqb key "deprecated");
      rewrite DictFacts.get_set_other; auto.
    intros ->. now rewrite String.eqb_refl in E.
Qed.

Lemma apply_style_other p new_param k :
  k <> "collectionFormat" ->
  Dict.get k (apply_style p new_param) = Dict.get k new_param.
Proof.
  intros Hk. unfold apply_style.
  repeat match goal with
         | |- context [if ?c then _ else _] => destruct c
         end;
    rewrite ?DictFacts.get_set_other by congruence; reflexivity.
Qed.

(** What the [if schema:] block leaves under a key that is not an extension. *)
Lemma flatten_get field_order schema new_param out k :
  Permutation PARAMETER_PRIMITIVE_FIELDS field_order ->
  flatten_schema_into field_order schema new_param = Some out ->
  startswith k "x-" = false -> k <> "items" ->
  Dict.get k out =
  if truthy schema && is_primitive_field k then
    match convert_schema schema with
    | Some (VDict c) =>
        match Dict.get k c with
        | Some v => Some v
        | None => Dict.get k new_param
        end
    | _ => None
    end
  else Dict.get k new_param.
Proof.
  intros Hperm H Hx Hitems. unfold flatten_schema_into in H.
  destruct (truthy schema); [|now inversion H].
  bind_inv H. rename a into cs. bind_inv H. rename a into fields.
  destruct cs as [| | | | | |c]; try discriminate H. rewrite Ha.
  assert (Hupd : Dict.get k (Dict.update new_param fields) =
                 if is_primitive_field k
                 then match Dict.get k c with
                      | Some v => Some v
                      | None => Dict.get k new_param
                      end
                 else Dict.get k new_param).
  { rewrite FlattenFacts.update_get
      by (eapply FlattenFacts.fields_nodup; eauto).
    rewrite (FlattenFacts.fields_get _ _ _ k Hperm Ha0), Hx, orb_false_r.
    destruct (String.eqb k "items") eqn:I;
      [apply String.eqb_eq in I; contradiction|].
    now destruct (is_primitive_field k). }
  cbn [andb].
  destruct (Dict.mem "example" c && negb (Dict.mem "x-example" _));
    inversion H; subst out; auto.
  rewrite DictFacts.get_set_other; auto. intros <-. discriminate Hx.
Qed.

End ParameterLookup.

(** X10: [name], [in], [description], [required] and [allowEmptyValue] of a
    parameter, body or not, are in the converted parameter exactly as in the
    input, and absent when the input lacks them. *)
Theorem convert_parameter_copies_core_keys :
  forall field_order p out k,
    Permutation PARAMETER_PRIMITIVE_FIELDS field_order ->
    convert_parameter field_order (VDict p) = Some out ->
    In k ["name"; "in"; "description"; "required"; "allowEmptyValue"] ->
    Dict.get k out = Dict.get k p.
Proof.
  intros field_order p out k Hperm H Hk.
  assert (Hfacts : startswith k "x-" = false /\ k <> "deprecated" /\
                   k <> "x-deprecated" /\ k <> "collectionFormat" /\
                   k <> "schema" /\ k <> "items" /\
                   is_primitive_field k = false /\
                   existsb (String.eqb k)
                     ["name"; "in"; "description"; "required"; "deprecated";
                      "allowEmptyValue"] = true).
  { simpl in Hk.
    destruct Hk as [<- | [<- | [<- | [<- | [<- | []]]]]];
      repeat split; discriminate. }
  destruct Hfacts as (Hx & Hd & Hxd & Hcf & Hs & Hi & Hprim & Hin).
  assert (Hbase : Dict.get k
                    (fold_left (copy_parameter_key p)
                       ["name"; "in"; "description"; "required"; "deprecated";
                        "allowEmptyValue"] []) = Dict.get k p).
  { rewrite ParameterLookup.base_get by assumption. rewrite Hin.
    unfold Dict.mem, Dict.item. now destruct (Dict.get k p). }
  unfold convert_parameter in H.
  destruct (eq_str (py_get "in" p) "body"); bind_inv H; inversion H; subst out;
    rewrite ExtFacts.copy_get_other by exact Hx.
  - destruct (truthy a); rewrite ?DictFacts.get_set_other by congruence;
      exact Hbase.
  - rewrite ParameterLookup.apply_style_other by exact Hcf.
    rewrite (ParameterLookup.flatten_get _ _ _ _ k Hperm Ha Hx Hi), Hprim.
    rewrite andb_false_r. exact Hbase.
Qed.

Lemma convert_parameter_copies_core_keys_witness :
  exists out,
    convert_parameter PARAMETER_PRIMITIVE_FIELDS (VDict sample_parameter)
    = Some out /\
    Dict.get "name" out = Some (VStr "ids") /\
    Dict.get "description" out = None.
Proof.
  destruct (convert_parameter PARAMETER_PRIMITIVE_FIELDS (VDict sample_parameter))
    as [out|] eqn:E; [|discriminate E].
  exists out. split; [reflexivity|]. split.
  - rewrite (convert_parameter_copies_core_keys _ _ _ "name"
               (Permutation_refl _) E); [reflexivity | simpl; auto].
  - rewrite (convert_parameter_copies_core_keys _ _ _ "description"
               (Permutation_refl _) E); [reflexivity | simpl; auto].
Defined.



(** X12: a converted body parameter holds the transformed schema under
    [schema] (no key when that is empty; [{}] stands in for a missing
    schema) and none of the flattened constraint keys. *)
Theorem convert_parameter_body_keeps_schema :
  forall field_order p out,
    convert_parameter field_order (VDict p) = Some out ->
    eq_str (py_get "in" p) "body" = true ->
    exists schema,
      convert_schema (py_get_default "schema" (VDict []) p) = Some schema /\
      Dict.get "schema" out = (if truthy schema then Some schema else None) /\
      forall k,
        is_primitive_field k = true -> startswith k "x-" = false ->
        Dict.get k out = None.
Proof.
  intros field_order p out H Hbody.
  unfold convert_parameter in H. rewrite Hbody in H.
  bind_inv H. inversion H; subst out. clear H.
  exists a. split; [exact Ha|].
  assert (Hbase : forall k,
             ~ In k ["name"; "in"; "description"; "required"; "x-deprecated";
                     "allowEmptyValue"] ->
             Dict.get k
               (fold_left (copy_parameter_key p)
                  ["name"; "in"; "description"; "required"; "deprecated";
                   "allowEmptyValue"] []) = None)
    by (intros k; apply ParameterFacts.base_get_absent).
  split.
  - rewrite ExtFacts.copy_get_other by reflexivity.
    destruct (truthy a).
    + apply DictFacts.get_set_same.
    + apply Hbase. simpl. intuition discriminate.
  - intros k Hprim Hx.
    rewrite ExtFacts.copy_get_other by exact Hx.
    assert (Hk : Dict.get k
                   (fold_left (copy_parameter_key p)
                      ["name"; "in"; "description"; "required"; "deprecated";
                       "allowEmptyValue"] []) = None).
    { apply Hbase. simpl.
      intros [<- | [<- | [<- | [<- | [<- | [<- | []]]]]]]; discriminate. }
    destruct (truthy a); [|exact Hk].
    rewrite DictFacts.get_set_other; [exact Hk|].
    intros <-. discriminate Hprim.
Qed.

Lemma convert_parameter_body_keeps_schema_witness :
  exists out,
    convert_parameter PARAMETER_PRIMITIVE_FIELDS (VDict sample_body_parameter)
    = Some out /\
    Dict.get "schema" out
    = Some (VDict [("type", VStr "object");
                   ("$ref", VStr "#/definitions/Widget")]) /\
    Dict.get "type" out = None.
Proof.
  destruct (convert_parameter PARAMETER_PRIMITIVE_FIELDS
              (VDict sample_body_parameter)) as [out|] eqn:E; [|discriminate E].
  destruct (convert_parameter_body_keeps_schema _ _ _ E eq_refl)
    as (schema & Hschema & Hget & Hnone).
  vm_compute in Hschema. inversion Hschema; subst schema.
  exists out. split; [reflexivity|]. split; [exact Hget|].
  apply Hnone; reflexivity.
Defined.

(** ** Request body converter *)

Module RequestBodyFacts.

(** The body parameter built from a request body with content. *)
Lemma shape rb media_type media_obj rest out consumes :
  Dict.get "content" rb = Some (VDict ((media_type, media_obj) :: rest)) ->
  convert_request_body (VDict rb) = Some (out, consumes) ->
  consumes = [media_type] /\
  exists mo,
    media_obj = VDict mo /\
    forall k,
      startswith k "x-" = false ->
      Dict.get k out =
      if String.eqb k "schema" then
        if truthy (py_get "schema" mo) then convert_schema (py_get "schema" mo)
        else None
      else if String.eqb k "required" then
        Some (py_get_default "required" (VBool false) rb)
      else if String.eqb k "description" then
        if truthy (py_get "description" rb) then Dict.get "description" rb
        else None
      else if String.eqb k "in" then Some (VStr "body")
      else if String.eqb k "name" then Some (VStr "body")
      else None.
Proof.
  intros Hcontent H. unfold convert_request_body in H.
  replace (py_get_default "content" (VDict []) rb)
    with (VDict ((media_type, media_obj) :: rest)) in H
    by (unfold py_get_default; now rewrite Hcontent).
  cbn [truthy negb] in H.
  destruct media_obj as [| | | | | |mo]; try discriminate H.
  bind_inv H. inversion H; subst out consumes. clear H.
  split; [reflexivity|]. exists mo. split; [reflexivity|].
  intros k Hx. rewrite ExtFacts.copy_get_other by exact Hx.
  assert (Hxe : String.eqb k "x-example" = false)
    by (apply not_extension_neq; auto).
  assert (Hxes : String.eqb k "x-examples" = false)
    by (apply not_extension_neq; auto).
  match goal with
  | |- Dict.get k ?X = _ => assert (Hex : Dict.get k X = Dict.get k a)
  end.
  { cbv zeta.
    destruct (py_get "examples" mo);
      try destruct (extract_examples entries);
      destruct (negb (is_none (py_get "example" mo)));
      rewrite ?DictFacts.get_set, ?Hxe, ?Hxes; reflexivity. }
  rewrite Hex. clear Hex.
  assert (Hdesc : truthy (py_get "description" rb) = true ->
                  Some (Dict.item "description" rb) = Dict.get "description" rb).
  { unfold py_get, Dict.item.
    destruct (Dict.get "description" rb); [reflexivity | discriminate]. }
  destruct (truthy (py_get "schema" mo));
    [bind_inv Ha; inversion Ha; subst a; rewrite Ha0 | inversion Ha; subst a];
    destruct (truthy (py_get "description" rb)) eqn:D;
    rewrite !DictFacts.get_set; cbn [Dict.get];
    rewrite ?(Hdesc eq_refl);
    repeat match goal with
           | |- context [String.eqb k ?c] =>
               let E := fresh "E" in
               destruct (String.eqb k c) eqn:E;
               [apply String.eqb_eq in E; subst k; reflexivity|]
           end;
    reflexivity.
Qed.

(** Only the first entry of [content] is read. *)
Lemma content_tail_irrelevant rb first rest others :
  Dict.get "content" rb = Some (VDict (first :: rest)) ->
  convert_request_body (VDict (Dict.set "content" (VDict (first :: others)) rb))
  = convert_request_body (VDict rb).
Proof.
  intros Hcontent. unfold convert_request_body, Dict.item.
  replace (py_get_default "content" (VDict [])
             (Dict.set "content" (VDict (first :: others)) rb))
    with (VDict (first :: others))
    by (unfold py_get_default; now rewrite DictFacts.get_set_same).
  replace (py_get_default "content" (VDict []) rb)
    with (VDict (first :: rest))
    by (unfold py_get_default; now rewrite Hcontent).
  rewrite !DictFacts.py_get_default_set_other by discriminate.
  rewrite !DictFacts.py_get_set_other by discriminate.
  rewrite (DictFacts.get_set_other "content" "description") by discriminate.
  cbn [truthy negb]. destruct first as [media_type media_obj].
  destruct media_obj; try reflexivity.
  apply bind_ext; [reflexivity|]. intros body_param.
  rewrite DocumentFacts.copy_set;
    [reflexivity | reflexivity | unfold Dict.mem; now rewrite Hcontent].
Qed.

End RequestBodyFacts.

(** X13: a request body with content yields the parameter [name: body],
    [in: body], with the body's [required] (default [false]), its
    [description] when truthy, and the transformed schema of the first
    content entry when that is truthy; the consumed media types are that
    entry's media type alone, and the entries after the first change
    nothing. *)
Theorem convert_request_body_first_content :
  forall rb media_type media_obj rest out consumes,
    Dict.get "content" rb = Some (VDict ((media_type, media_obj) :: rest)) ->
    convert_request_body (VDict rb) = Some (out, consumes) ->
    consumes = [media_type] /\
    Dict.get "name" out = Some (VStr "body") /\
    Dict.get "in" out = Some (VStr "body") /\
    Dict.get "required" out = Some (py_get_default "required" (VBool false) rb) /\
    Dict.get "description" out
    = (if truthy (py_get "description" rb) then Dict.get "description" rb
       else None) /\
    (exists mo,
        media_obj = VDict mo /\
        Dict.get "schema" out
        = if truthy (py_get "schema" mo) then convert_schema (py_get "schema" mo)
          else None) /\
    forall others,
      convert_request_body
        (VDict (Dict.set "content"
                  (VDict ((media_type, media_obj) :: others)) rb))
      = Some (out, consumes).
Proof.
  intros rb media_type media_obj rest out consumes Hcontent H.
  destruct (RequestBodyFacts.shape _ _ _ _ _ _ Hcontent H)
    as (Hc & mo & Hmo & Hget).
  split; [exact Hc|].
  rewrite !Hget by reflexivity. repeat split.
  - exists mo. split; [exact Hmo | reflexivity].
  - intros others. rewrite <- H.
    eapply RequestBodyFacts.content_tail_irrelevant; eauto.
Qed.

Lemma convert_request_body_first_content_witness :
  exists out,
    convert_request_body (VDict sample_request_body)
    = Some (out, ["application/json"]) /\
    Dict.get "required" out = Some (VBool true) /\
    Dict.get "schema" out
    = Some (VDict [("$ref", VStr "#/definitions/Widget")]).
Proof.
  destruct (convert_request_body (VDict sample_request_body))
    as [[out consumes]|] eqn:E; [|discriminate E].
  destruct (convert_request_body_first_content sample_request_body
              _ _ _ out consumes eq_refl E)
    as (Hc & _ & _ & Hreq & _ & (mo & Hmo & Hschema) & _).
  subst consumes. inversion Hmo; subst mo.
  exists out. repeat split; assumption.
Defined.

(** X14: when the request body of an operation has content, the operation's
    parameter list is the converted declared parameters followed by the body
    parameter, and [consumes] is the one media type of the first content
    entry. *)
Theorem convert_operation_appends_body :
  forall field_order op rb media_type media_obj rest out consumes produces,
    Dict.get "requestBody" op = Some (VDict rb) ->
    Dict.get "content" rb = Some (VDict ((media_type, media_obj) :: rest)) ->
    convert_operation field_order (VDict op) = Some (out, consumes, produces) ->
    exists declared body,
      convert_parameters field_order (py_get_default "parameters" (VList []) op)
      = Some declared /\
      convert_request_body (VDict rb) = Some (body, [media_type]) /\
      Dict.get "parameters" out = Some (VList (declared ++ [VDict body])) /\
      consumes = [media_type] /\
      Dict.get "consumes" out = Some (VList [VStr media_type]).
Proof.
  intros field_order op rb media_type media_obj rest out consumes produces
    Hrb Hcontent H.
  apply convert_operation_inv in H
    as (declared & body & responses & Hdecl & Hbody & _ & Hpar & _ & Hcons & _).
  unfold py_get in Hbody. rewrite Hrb in Hbody.
  destruct (RequestBodyFacts.shape _ _ _ _ _ _ Hcontent Hbody)
    as (-> & mo & _ & Hget).
  exists declared, body. split; [exact Hdecl|]. split; [exact Hbody|].
  assert (Hne : truthy (VDict body) = true).
  { destruct body; [|reflexivity].
    specialize (Hget "name" eq_refl). discriminate Hget. }
  repeat split.
  - rewrite Hpar. unfold operation_parameters. rewrite Hne.
    unfold parameters_entry. now destruct declared.
  - rewrite Hcons. reflexivity.
Qed.

Lemma convert_operation_appends_body_witness :
  exists out consumes produces body,
    convert_operation PARAMETER_PRIMITIVE_FIELDS (VDict sample_body_operation)
    = Some (out, consumes, produces) /\
    Dict.get "parameters" out
    = Some (VList [VDict [("name", VStr "id"); ("in", VStr "path");
                          ("required", VBool true)];
                   VDict body]) /\
    Dict.get "consumes" out = Some (VList [VStr "application/json"]).
Proof.
  destruct (convert_operation PARAMETER_PRIMITIVE_FIELDS
              (VDict sample_body_operation))
    as [[[out consumes] produces]|] eqn:E; [|discriminate E].
  destruct (convert_operation_appends_body PARAMETER_PRIMITIVE_FIELDS
              sample_body_operation sample_request_body _ _ _
              out consumes produces eq_refl eq_refl E)
    as (declared & body & Hdecl & _ & Hpar & _ & Hcons).
  vm_compute in Hdecl. inversion Hdecl; subst declared.
  exists out, consumes, produces, body. repeat split; assumption.
Defined.

(** ** Responses converter *)

Module ResponsesLookup.

Lemma content_produced content new_response out produced :
  convert_content content new_response = Some (out, produced) ->
  produced = match content with
             | VDict ((media_type, _) :: _) => [media_type]
             | _ => []
             end.
Proof.
  unfold convert_content. intros H.
  destruct (truthy content) eqn:T.
  - destruct content as [| | | | | |[|[media_type media_obj] rest]];
      try discriminate H.
    destruct media_obj; try discriminate H.
    bind_inv H. now inversion H.
  - inversion H; subst.
    destruct content as [| | | | | |[|e rest]]; try reflexivity.
    discriminate T.
Qed.

(** The content block keeps every key it does not write itself. *)
Lemma content_other content new_response out produced k :
  convert_content content new_response = Some (out, produced) ->
  k <> "schema" -> k <> "examples" ->
  Dict.get k out = Dict.get k new_response.
Proof.
  unfold convert_content. intros H Hs He.
  destruct (truthy content); [|now inversion H].
  destruct content as [| | | | | |[|[media_type media_obj] rest]];
    try discriminate H.
  destruct media_obj as [| | | | | |mo]; try discriminate H.
  bind_inv H. inversion H; subst out produced. clear H.
  assert (Ha' : Dict.get k a = Dict.get k new_response).
  { destruct (String.eqb media_type "application/pdf");
      [|destruct (truthy (py_get "schema" mo)); [bind_inv Ha|]];
      inversion Ha; subst a; auto;
      apply DictFacts.get_set_other; congruence. }
  assert (Hb : Dict.get k
                 (if negb (is_none (py_get "example" mo))
                  then put_example media_type (py_get "example" mo) a
                  else a) = Dict.get k new_response).
  { destruct (negb (is_none (py_get "example" mo))); auto.
    now rewrite ResponseFacts.put_example_other. }
  cbv zeta. destruct (py_get "examples" mo); auto.
  rewrite ResponseFacts.fold_put_example_other by exact He.
  now rewrite DictFacts.get_setdefault_other.
Qed.

Lemma response_description field_order r out produced :
  convert_response field_order (VDict r) = Some (out, produced) ->
  Dict.get "description" out
  = Some (py_get_default "description" (VStr "") r) /\
  produced = response_media_type (VDict r).
Proof.
  unfold convert_response. intros H. bind_inv H. bind_inv H.
  destruct a0 as [nr m]. cbn [fst snd] in H. inversion H; subst out produced.
  split.
  - rewrite ExtFacts.copy_get_other by reflexivity.
    rewrite (content_other _ _ _ _ "description" Ha0) by discriminate.
    destruct (truthy (py_get "headers" r)); [|now inversion Ha].
    destruct (py_get "headers" r); try discriminate Ha.
    bind_inv Ha. destruct (truthy (VDict a0)); inversion Ha; subst a; auto.
  - apply content_produced in Ha0. exact Ha0.
Qed.

Lemma loop_shape field_order items : forall acc produces out produces',
  convert_responses_loop field_order items acc produces = Some (out, produces') ->
  NoDup (Dict.keys acc ++ Dict.keys items) ->
  Dict.keys out = Dict.keys acc ++ Dict.keys items /\
  produces' = produces ++ flat_map (fun kv => response_media_type (snd kv)) items.
Proof.
  induction items as [|[status response] rest IH]; simpl;
    intros acc produces out produces' H Hnd.
  - inversion H; subst. now rewrite !app_nil_r.
  - bind_inv H. destruct a as [converted produced]. cbn [fst snd] in H.
    assert (Hn : ~ In status (Dict.keys acc)).
    { intros Hin. apply NoDup_remove_2 in Hnd. apply Hnd, in_or_app. now left. }
    destruct (IH _ _ _ _ H) as [Hkeys Hprod].
    { rewrite SchemaFacts.keys_set_absent by exact Hn.
      rewrite <- app_assoc. exact Hnd. }
    rewrite Hkeys, Hprod, SchemaFacts.keys_set_absent by exact Hn.
    rewrite <- !app_assoc. split; [reflexivity|]. f_equal. f_equal.
    destruct response; try discriminate Ha.
    now apply response_description in Ha as [_ ->].
Qed.

End ResponsesLookup.

(** X15: the converted responses list the same status keys in the same
    order; each converted response has a [description], the input's or the
    empty string; and [produces] lists, in order and with repetitions, the
    first content media type of every response that has content. *)
Theorem convert_responses_shape :
  forall field_order responses out produces,
    convert_responses field_order (VDict responses) = Some (out, produces) ->
    NoDup (Dict.keys responses) ->
    Dict.keys out = Dict.keys responses /\
    produces = flat_map (fun kv => response_media_type (snd kv)) responses /\
    forall status r,
      Dict.get status responses = Some (VDict r) ->
      exists converted,
        Dict.get status out = Some (VDict converted) /\
        Dict.get "description" converted
        = Some (py_get_default "description" (VStr "") r).
Proof.
  intros field_order responses out produces H Hnd. unfold convert_responses in H.
  destruct (ResponsesLookup.loop_shape _ _ _ _ _ _ H Hnd) as [Hkeys Hprod].
  split; [exact Hkeys|]. split; [exact Hprod|].
  intros status r Hget.
  destruct (ResponseFacts.loop_get _ _ _ _ _ _ _ _ H Hnd Hget)
    as (converted & produced & Hconv & Hout & _).
  exists converted. split; [exact Hout|].
  now apply ResponsesLookup.response_description in Hconv as [Hd _].
Qed.

Lemma convert_responses_shape_witness :
  exists out,
    convert_responses PARAMETER_PRIMITIVE_FIELDS (VDict sample_responses)
    = Some (out, ["application/pdf"; "application/json"]) /\
    Dict.keys out = ["200"; "404"].
Proof.
  destruct (convert_responses PARAMETER_PRIMITIVE_FIELDS (VDict sample_responses))
    as [[out produces]|] eqn:E; [|discriminate E].
  destruct (convert_responses_shape _ _ _ _ E) as (Hkeys & Hprod & _).
  { repeat constructor; simpl; intuition discriminate. }
  subst produces. exists out. split; [reflexivity | exact Hkeys].
Defined.

Module ExamplesFacts.

Lemma put_example_get media_type v new_response :
  Dict.get "examples" new_response = None \/ single_example media_type new_response ->
  Dict.get "examples" (put_example media_type v new_response)
  = Some (VDict [(media_type, v)]).
Proof.
  intros H. unfold put_example. rewrite DictFacts.get_set_same.
  destruct H as [-> | [-> | [e ->]]]; simpl; auto.
  now rewrite String.eqb_refl.
Qed.

Lemma fold_single media_type (g : string * value -> value) examples :
  forall new_response,
    single_example media_type new_response ->
    single_example media_type
      (fold_left (fun acc np => put_example media_type (g np) acc)
         examples new_response).
Proof.
  induction examples as [|np rest IH]; simpl; intros nr H; auto.
  apply IH. right. exists (g np). apply put_example_get. now right.
Qed.

Lemma fold_last media_type (g : string * value -> value) examples last
    new_response :
  single_example media_type new_response ->
  Dict.get "examples"
    (fold_left (fun acc np => put_example media_type (g np) acc)
       (examples ++ [last]) new_response)
  = Some (VDict [(media_type, g last)]).
Proof.
  intros H. rewrite fold_left_app. simpl.
  apply put_example_get. right. now apply fold_single.
Qed.

Lemma setdefault_single media_type new_response :
  Dict.get "examples" new_response = None \/ single_example media_type new_response ->
  single_example media_type (Dict.setdefault "examples" (VDict []) new_response).
Proof.
  intros H. unfold single_example. rewrite DictFacts.get_setdefault.
  destruct H as [-> | [-> | [e ->]]]; simpl; eauto.
Qed.

(** Before the content block a response has no [examples] key. *)
Lemma response_start field_order r new_response :
  (if truthy (py_get "headers" r) then
     match py_get "headers" r with
     | VDict hs =>
         header_map <-
           build_dict (fun h => option_map VDict (convert_header field_order h)) hs ;;
         if truthy (VDict header_map)
         then Some (Dict.set "headers" (VDict header_map)
                      (Dict.set "description"
                         (py_get_default "description" (VStr "") r) []))
         else Some (Dict.set "description"
                      (py_get_default "description" (VStr "") r) [])
     | _ => None
     end
   else Some (Dict.set "description"
                (py_get_default "description" (VStr "") r) []))
  = Some new_response ->
  Dict.get "examples" new_response = None.
Proof.
  intros H. destruct (truthy (py_get "headers" r)); [|now inversion H].
  destruct (py_get "headers" r); try discriminate H.
  bind_inv H. destruct (truthy (VDict a)); now inversion H.
Qed.

End ExamplesFacts.

(** X16: the [examples] of a converted response has the representative media
    type as its only key.  With named examples in the input it holds the
    last one: its [value] when it is a mapping with that key, else the
    example itself; with no named examples it
    holds the [example] of the content entry, and the key is absent when
    there is neither. *)
Theorem convert_response_examples_collapse :
  forall field_order r media_type mo rest out produced,
    Dict.get "content" r = Some (VDict ((media_type, VDict mo) :: rest)) ->
    convert_response field_order (VDict r) = Some (out, produced) ->
    (forall examples name payload,
        py_get "examples" mo = VDict (examples ++ [(name, payload)]) ->
        Dict.get "examples" out
        = Some (VDict [(media_type,
                        match payload with
                        | VDict p =>
                            match Dict.get "value" p with
                            | Some v => v
                            | None => payload
                            end
                        | _ => payload
                        end)])) /\
    (is_dict (py_get "examples" mo) = false ->
     Dict.get "examples" out
     = if is_none (py_get "example" mo) then None
       else Some (VDict [(media_type, py_get "example" mo)])).
Proof.
  intros field_order r media_type mo rest out produced Hcontent H.
  unfold convert_response in H. bind_inv H. bind_inv H.
  destruct a0 as [nr m]. cbn [fst snd] in H. inversion H; subst out produced.
  clear H. apply ExamplesFacts.response_start in Ha.
  replace (py_get_default "content" (VDict []) r)
    with (VDict ((media_type, VDict mo) :: rest)) in Ha0
    by (unfold py_get_default; now rewrite Hcontent).
  unfold convert_content in Ha0. cbn [truthy] in Ha0. bind_inv Ha0.
  rename a0 into with_schema.
  assert (Hschema : Dict.get "examples" with_schema = None).
  { destruct (String.eqb media_type "application/pdf");
      [|destruct (truthy (py_get "schema" mo)); [bind_inv Ha1|]];
      inversion Ha1; subst with_schema; auto;
      rewrite DictFacts.get_set_other by discriminate; exact Ha. }
  cbv zeta in Ha0. inversion Ha0; subst nr. clear Ha0.
  set (with_example :=
         if negb (is_none (py_get "example" mo))
         then put_example media_type (py_get "example" mo) with_schema
         else with_schema) in *.
  assert (Hexample :
            Dict.get "examples" with_example
            = if is_none (py_get "example" mo) then None
              else Some (VDict [(media_type, py_get "example" mo)])).
  { unfold with_example. destruct (is_none (py_get "example" mo)); simpl; auto.
    apply ExamplesFacts.put_example_get. now left. }
  assert (Hstate : Dict.get "examples" with_example = None \/
                   single_example media_type with_example).
  { rewrite Hexample. destruct (is_none (py_get "example" mo)); [now left|].
    right. right. eauto. }
  rewrite ExtFacts.copy_get_other by reflexivity. split.
  - intros examples name payload Hex. rewrite Hex.
    replace (match payload with
             | VDict p =>
                 match Dict.get "value" p with
                 | Some v => v
                 | None => payload
                 end
             | _ => payload
             end)
      with (unwrap_example payload)
      by (destruct payload as [| | | | | |p]; try reflexivity;
          unfold unwrap_example, Dict.mem, Dict.item;
          now destruct (Dict.get "value" p)).
    apply (ExamplesFacts.fold_last media_type
             (fun np => unwrap_example (snd np)) examples (name, payload)).
    now apply ExamplesFacts.setdefault_single.
  - intros Hnd. destruct (py_get "examples" mo); try discriminate Hnd;
      exact Hexample.
Qed.

Lemma convert_response_examples_collapse_witness :
  exists out produced,
    convert_response PARAMETER_PRIMITIVE_FIELDS (VDict sample_examples_response)
    = Some (out, produced) /\
    Dict.get "examples" out
    = Some (VDict [("application/json", VInt 1000)]).
Proof.
  destruct (convert_response PARAMETER_PRIMITIVE_FIELDS
              (VDict sample_examples_response))
    as [[out produced]|] eqn:E; [|discriminate E].
  destruct (convert_response_examples_collapse PARAMETER_PRIMITIVE_FIELDS
              sample_examples_response _ _ _ out produced eq_refl E)
    as [Hlast _].
  exists out, produced. split; [reflexivity|].
  exact (Hlast [("small", VDict [("value", VInt 1)])] "large"
           (VDict [("value", VInt 1000)]) eq_refl).
Defined.

(** ** Operation converter *)

Module OperationLookup.




End OperationLookup.



(** ** Path item converter *)

Module PathItemFacts.

Lemma methods_get field_order pi methods : forall acc out k,
  convert_methods field_order pi methods acc = Some out ->
  Dict.get k out =
  if existsb (String.eqb k) methods && Dict.mem k pi
  then stored_operation field_order (Dict.item k pi)
  else Dict.get k acc.
Proof.
  induction methods as [|m rest IH]; simpl; intros acc out k H.
  - now inversion H.
  - destruct (Dict.mem m pi) eqn:M.
    + bind_inv H. rewrite (IH _ _ k H).
      destruct (String.eqb k m) eqn:E; simpl.
      * apply String.eqb_eq in E. subst m. rewrite M.
        rewrite DictFacts.get_set_same. unfold stored_operation. rewrite Ha.
        simpl. now destruct (existsb (String.eqb k) rest).
      * rewrite DictFacts.get_set, E. reflexivity.
    + rewrite (IH _ _ k H).
      destruct (String.eqb k m) eqn:E; simpl; auto.
      apply String.eqb_eq in E. subst m. rewrite M.
      now rewrite !andb_false_r.
Qed.

Lemma extensions_other pi k keys acc :
  startswith k "x-" = false ->
  Dict.get k (fold_left (path_extension pi) keys acc) = Dict.get k acc.
Proof.
  intros Hk. apply fold_left_get_other. intros acc' key _.
  unfold path_extension.
  assert (Hcopy : Dict.get k (Ext.copy_entry pi acc' key) = Dict.get k acc').
  { rewrite ExtFacts.copy_entry_get.
    destruct (startswith key "x-") eqn:K; simpl; auto.
    now rewrite (not_extension_neq _ _ Hk K). }
  destruct (String.eqb key "servers"); [|exact Hcopy].
  rewrite DictFacts.get_set_other; [exact Hcopy|].
  intros <-. discriminate Hk.
Qed.

(** The final loop stores [servers] under [x-servers]; with no key of that
    name in the path item nothing else writes it. *)
Lemma servers_fold pi keys : forall acc,
  ~ In "x-servers" keys ->
  Dict.get "x-servers" (fold_left (path_extension pi) keys acc) =
  if existsb (String.eqb "servers") keys then Some (Dict.item "servers" pi)
  else Dict.get "x-servers" acc.
Proof.
  induction keys as [|key rest IH]; cbn [fold_left existsb]; intros acc Hn;
    auto.
  rewrite IH by (intros Hin; apply Hn; now right).
  destruct (existsb (String.eqb "servers") rest);
    [now rewrite orb_true_r|].
  rewrite orb_false_r. unfold path_extension.
  assert (Hcopy : Dict.get "x-servers" (Ext.copy_entry pi acc key)
                  = Dict.get "x-servers" acc).
  { rewrite ExtFacts.copy_entry_get.
    destruct (String.eqb "x-servers" key) eqn:E;
      [apply String.eqb_eq in E; subst key; exfalso; apply Hn; now left|].
    now rewrite andb_false_r. }
  rewrite (String.eqb_sym "servers" key).
  destruct (String.eqb key "servers") eqn:S; [|exact Hcopy].
  apply String.eqb_eq in S. subst key. apply DictFacts.get_set_same.
Qed.

End PathItemFacts.

(** X18: a converted path item holds, under each of the seven HTTP methods
    the input has, the converted operation; under [parameters] the converted
    shared parameters when the input has that key; and no other key besides
    extensions: [summary], [description], [$ref], [trace] and the like are
    dropped.  Extension keys keep their value, and a path-level [servers]
    is stored under [x-servers] (when the item has no such key itself). *)
Theorem convert_path_item_keys :
  forall field_order pi out,
    convert_path_item field_order (VDict pi) = Some out ->
    (forall m,
        In m HTTP_METHODS ->
        Dict.get m out =
        match Dict.get m pi with
        | Some operation => stored_operation field_order operation
        | None => None
        end) /\
    Dict.get "parameters" out
    = match Dict.get "parameters" pi with
      | Some ps => option_map VList (convert_parameters field_order ps)
      | None => None
      end /\
    (forall k,
        startswith k "x-" = false -> k <> "parameters" ->
        ~ In k HTTP_METHODS ->
        Dict.get k out = None) /\
    (forall k,
        startswith k "x-" = true ->
        (k = "x-servers" -> Dict.mem "servers" pi = false) ->
        Dict.get k out = Dict.get k pi) /\
    (forall v,
        Dict.get "servers" pi = Some v -> Dict.mem "x-servers" pi = false ->
        Dict.get "x-servers" out = Some v).
Proof.
  intros field_order pi out H. unfold convert_path_item in H.
  bind_inv H. bind_inv H. inversion H; subst out. clear H.
  assert (Hget : forall k,
             startswith k "x-" = false ->
             Dict.get k (fold_left (path_extension pi) (Dict.keys pi) a0) =
             if existsb (String.eqb k) HTTP_METHODS && Dict.mem k pi
             then stored_operation field_order (Dict.item k pi)
             else Dict.get k a).
  { intros k Hx. rewrite PathItemFacts.extensions_other by exact Hx.
    now apply PathItemFacts.methods_get. }
  assert (Hpar : forall k,
             Dict.get k a =
             if String.eqb k "parameters" then
               match Dict.get "parameters" pi with
               | Some ps => option_map VList (convert_parameters field_order ps)
               | None => None
               end
             else None).
  { intros k. unfold Dict.mem, Dict.item in Ha.
    destruct (Dict.get "parameters" pi) as [ps|].
    - bind_inv Ha. inversion Ha; subst a. rewrite Ha1. simpl.
      now destruct (String.eqb k "parameters").
    - inversion Ha; subst a. simpl. now destruct (String.eqb k "parameters"). }
  assert (Hstart : forall k,
             startswith k "x-" = true -> Dict.get k a0 = None).
  { intros k Hx. rewrite (PathItemFacts.methods_get _ _ _ _ _ k Ha0).
    replace (existsb (String.eqb k) HTTP_METHODS) with false.
    - simpl. rewrite Hpar.
      destruct (String.eqb k "parameters") eqn:P; auto.
      apply String.eqb_eq in P. subst k. discriminate Hx.
    - symmetry. simpl.
      repeat match goal with
             | |- context [String.eqb k ?m] =>
                 rewrite (ExtensionFacts.extension_neq k m Hx eq_refl)
             end.
      reflexivity. }
  split; [|split; [|split; [|split]]].
  - intros m Hm. apply existsb_eqb_in in Hm as Hin.
    assert (Hx : startswith m "x-" = false).
    { simpl in Hm.
      destruct Hm as [<- | [<- | [<- | [<- | [<- | [<- | [<- | []]]]]]]];
        reflexivity. }
    rewrite (Hget m Hx), Hin. unfold Dict.mem, Dict.item.
    destruct (Dict.get m pi); simpl; auto.
    rewrite Hpar. simpl in Hm.
    destruct Hm as [<- | [<- | [<- | [<- | [<- | [<- | [<- | []]]]]]]];
      reflexivity.
  - rewrite (Hget "parameters" eq_refl). simpl. now rewrite Hpar.
  - intros k Hx Hp Hm. rewrite (Hget k Hx).
    destruct (existsb (String.eqb k) HTTP_METHODS) eqn:E.
    + apply existsb_eqb_in in E. contradiction.
    + simpl. rewrite Hpar.
      destruct (String.eqb k "parameters") eqn:P; auto.
      apply String.eqb_eq in P. contradiction.
  - intros k Hx Hs.
    rewrite ExtensionFacts.path_fold;
      [| exact Hx
       | intros E; apply mem_false_not_in; exact (Hs E)].
    rewrite (Hstart k Hx).
    destruct (existsb (String.eqb k) (Dict.keys pi)) eqn:E.
    + apply existsb_eqb_in in E. apply DictFacts.in_keys_get in E as (v & Hv).
      unfold Dict.item. now rewrite Hv.
    + destruct (Dict.get k pi) as [v|] eqn:G; auto.
      apply DictFacts.get_in_keys in G. apply existsb_eqb_in in G.
      congruence.
  - intros v Hv Hown.
    rewrite PathItemFacts.servers_fold by (now apply mem_false_not_in).
    apply DictFacts.get_in_keys in Hv as Hin. apply existsb_eqb_in in Hin.
    rewrite Hin. unfold Dict.item. now rewrite Hv.
Qed.

Lemma convert_path_item_keys_witness :
  exists out,
    convert_path_item PARAMETER_PRIMITIVE_FIELDS (VDict sample_path_item)
    = Some out /\
    Dict.get "get" out
    = Some (VDict [("operationId", VStr "listWidgets");
                   ("responses", VDict [])]) /\
    Dict.get "summary" out = None /\
    Dict.get "trace" out = None /\
    Dict.get "x-servers" out
    = Some (VList [VDict [("url", VStr "https://widgets.example.com")]]) /\
    Dict.get "x-team" out = Some (VStr "catalog").
Proof.
  destruct (convert_path_item PARAMETER_PRIMITIVE_FIELDS (VDict sample_path_item))
    as [out|] eqn:E; [|discriminate E].
  destruct (convert_path_item_keys _ _ _ E)
    as (Hmethods & _ & Hother & Hext & Hservers).
  exists out. split; [reflexivity|]. repeat split.
  - rewrite (Hmethods "get"); [reflexivity | simpl; auto].
  - apply Hother; [reflexivity | discriminate | simpl; intuition discriminate].
  - apply Hother; [reflexivity | discriminate | simpl; intuition discriminate].
  - apply Hservers; reflexivity.
  - rewrite (Hext "x-team"); [reflexivity | reflexivity | discriminate].
Defined.

(** ** Components converter *)

Module ComponentsFacts.

(** The step of [convert_components] that handles one section. *)
Lemma section_step field_order c out section target :
  convert_components field_order (VDict c) = Some out ->
  In (section, target) COMPONENT_SECTIONS ->
  exists before after,
    convert_section (section_converter field_order section) target
      (py_get section c) before = Some after /\
    Dict.get target before = None /\
    Dict.get target out = Dict.get target after.
Proof.
  intros H Hin. unfold convert_components in H. do 3 bind_inv H.
  simpl in Hin.
  destruct Hin as [E | [E | [E | [E | []]]]]; inversion E; subst section target.
  - exists [], a. split; [exact Ha|]. split; [reflexivity|].
    rewrite (convert_section_other _ _ _ _ _ "definitions" H) by discriminate.
    rewrite (convert_section_other _ _ _ _ _ "definitions" Ha1) by discriminate.
    now rewrite (convert_section_other _ _ _ _ _ "definitions" Ha0)
      by discriminate.
  - exists a, a0. split; [exact Ha0|]. split.
    + now rewrite (convert_section_other _ _ _ _ _ "parameters" Ha)
        by discriminate.
    + rewrite (convert_section_other _ _ _ _ _ "parameters" H) by discriminate.
      now rewrite (convert_section_other _ _ _ _ _ "parameters" Ha1)
        by discriminate.
  - exists a0, a1. split; [exact Ha1|]. split.
    + rewrite (convert_section_other _ _ _ _ _ "responses" Ha0) by discriminate.
      now rewrite (convert_section_other _ _ _ _ _ "responses" Ha)
        by discriminate.
    + now rewrite (convert_section_other _ _ _ _ _ "responses" H)
        by discriminate.
  - exists a1, out. split; [exact H|]. split; [|reflexivity].
    rewrite (convert_section_other _ _ _ _ _ "securityDefinitions" Ha1)
      by discriminate.
    rewrite (convert_section_other _ _ _ _ _ "securityDefinitions" Ha0)
      by discriminate.
    now rewrite (convert_section_other _ _ _ _ _ "securityDefinitions" Ha)
      by discriminate.
Qed.

Lemma section_mem f target section before after :
  convert_section f target section before = Some after ->
  Dict.get target before = None ->
  Dict.mem target after = truthy section.
Proof.
  unfold convert_section, Dict.mem. intros H Hbefore.
  destruct (truthy section).
  - destruct section; try discriminate H. bind_inv H. inversion H; subst.
    now rewrite DictFacts.get_set_same.
  - inversion H; subst. now rewrite Hbefore.
Qed.

End ComponentsFacts.

(** X19: the converted components have [definitions], [parameters],
    [responses] and [securityDefinitions] exactly for the sections
    [schemas], [parameters], [responses] and [securitySchemes] that are
    present and non-empty in the input, and no other key. *)
Theorem convert_components_sections :
  forall field_order c out,
    convert_components field_order (VDict c) = Some out ->
    (forall section target,
        In (section, target) COMPONENT_SECTIONS ->
        Dict.mem target out = truthy (py_get section c)) /\
    (forall k,
        ~ In k (map snd COMPONENT_SECTIONS) -> Dict.get k out = None).
Proof.
  intros field_order c out H. split.
  - intros section target Hin.
    destruct (ComponentsFacts.section_step _ _ _ _ _ H Hin)
      as (before & after & Hstep & Hbefore & Hout).
    unfold Dict.mem. rewrite Hout.
    exact (ComponentsFacts.section_mem _ _ _ _ _ Hstep Hbefore).
  - intros k Hk. eapply DocumentFacts.components_get_absent; eauto.
Qed.

Lemma convert_components_sections_witness :
  exists out,
    convert_components PARAMETER_PRIMITIVE_FIELDS (VDict sample_partial_components)
    = Some out /\
    Dict.mem "definitions" out = true /\
    Dict.mem "parameters" out = false /\
    Dict.get "examples" out = None.
Proof.
  destruct (convert_components PARAMETER_PRIMITIVE_FIELDS
              (VDict sample_partial_components)) as [out|] eqn:E;
    [|discriminate E].
  destruct (convert_components_sections _ _ _ E) as [Hmem Hother].
  exists out. split; [reflexivity|]. repeat split.
  - rewrite (Hmem "schemas"); [reflexivity | simpl; auto].
  - rewrite (Hmem "parameters"); [reflexivity | simpl; auto].
  - apply Hother. simpl. intuition discriminate.
Defined.

(** X20: a non-empty section of the components, with names all different,
    is stored under its target key with the same names in the same order,
    each holding the conversion of the input's entry: a schema through the
    schema transformer, a parameter through the parameter converter, a
    response through the responses converter, a security scheme through the
    security rewrite. *)
Theorem convert_components_entries :
  forall field_order c out section target entries,
    convert_components field_order (VDict c) = Some out ->
    In (section, target) COMPONENT_SECTIONS ->
    Dict.get section c = Some (VDict entries) ->
    entries <> [] ->
    NoDup (Dict.keys entries) ->
    exists converted,
      Dict.get target out = Some (VDict converted) /\
      Dict.keys converted = Dict.keys entries /\
      forall name v,
        Dict.get name entries = Some v ->
        Dict.get name converted = section_converter field_order section v.
Proof.
  intros field_order c out section target entries H Hin Hsec Hne Hnd.
  destruct (ComponentsFacts.section_step _ _ _ _ _ H Hin)
    as (before & after & Hstep & _ & Hout).
  unfold py_get in Hstep. rewrite Hsec in Hstep.
  apply convert_section_target in Hstep as (built & Hbuilt & Hafter);
    [|exact Hne].
  exists built. split; [now rewrite Hout|]. split.
  - apply (map_values_keys _ _ _ _ Hbuilt). exact Hnd.
  - intros name v Hv. exact (build_dict_get _ _ _ _ _ Hbuilt Hnd Hv).
Qed.

Lemma convert_components_entries_witness :
  exists out definitions,
    convert_components PARAMETER_PRIMITIVE_FIELDS (VDict sample_partial_components)
    = Some out /\
    Dict.get "definitions" out = Some (VDict definitions) /\
    Dict.keys definitions = ["Widget"] /\
    Dict.get "Widget" definitions = Some (VDict [("type", VStr "object")]).
Proof.
  destruct (convert_components PARAMETER_PRIMITIVE_FIELDS
              (VDict sample_partial_components)) as [out|] eqn:E;
    [|discriminate E].
  destruct (convert_components_entries PARAMETER_PRIMITIVE_FIELDS
              sample_partial_components out "schemas" "definitions"
              [("Widget", VDict [("type", VStr "object")])] E)
    as (definitions & Hget & Hkeys & Hvalues).
  - simpl. auto.
  - reflexivity.
  - discriminate.
  - repeat constructor; simpl; intuition discriminate.
  - exists out, definitions. split; [reflexivity|]. repeat split; auto.
    rewrite (Hvalues "Widget" _ eq_refl). reflexivity.
Defined.

(** ** Security schemes *)

Lemma bearer_is_not_basic s :
  eq_str (py_get "scheme" s) "bearer" = true ->
  eq_str (py_get "scheme" s) "basic" = false.
Proof.
  destruct (py_get "scheme" s); simpl; try discriminate.
  intros E. apply String.eqb_eq in E. now subst.
Qed.

(** X21: the security rewrite keeps every key other than [type], [scheme],
    [name], [in], [x-original-http-scheme] and [x-ms-visibility] as it is and
    keeps an [x-ms-visibility] the input has.  An http basic scheme gets
    type [basic] and loses [scheme]; an http bearer scheme gets type
    [apiKey], loses [scheme], and keeps a [name] and [in] of its own where
    the defaults [Authorization] and [header] would go; any other scheme
    keeps all its keys. *)
Theorem convert_security_scheme_rewrites :
  forall s out,
    convert_security_scheme (VDict s) = Some out ->
    (forall k,
        ~ In k ["type"; "scheme"; "name"; "in"; "x-original-http-scheme";
                "x-ms-visibility"] ->
        Dict.get k out = Dict.get k s) /\
    Dict.get "x-ms-visibility" out
    = Some (py_get_default "x-ms-visibility" (VStr "important") s) /\
    (eq_str (py_get "type" s) "http" = true ->
     eq_str (py_get "scheme" s) "basic" = true ->
     Dict.get "type" out = Some (VStr "basic") /\
     Dict.get "scheme" out = None) /\
    (eq_str (py_get "type" s) "http" = true ->
     eq_str (py_get "scheme" s) "bearer" = true ->
     Dict.get "type" out = Some (VStr "apiKey") /\
     Dict.get "scheme" out = None /\
     Dict.get "name" out
     = Some (py_get_default "name" (VStr "Authorization") s) /\
     Dict.get "in" out = Some (py_get_default "in" (VStr "header") s) /\
     Dict.get "x-original-http-scheme" out = Some (VStr "bearer")) /\
    (eq_str (py_get "type" s) "http"
     && (eq_str (py_get "scheme" s) "basic"
         || eq_str (py_get "scheme" s) "bearer") = false ->
     forall k, k <> "x-ms-visibility" -> Dict.get k out = Dict.get k s).
Proof.
  intros s out H. unfold convert_security_scheme in H.
  inversion H; subst out. clear H.
  assert (Hvis : forall d,
             Dict.get "x-ms-visibility" d = Dict.get "x-ms-visibility" s ->
             Dict.get "x-ms-visibility"
               (Dict.setdefault "x-ms-visibility" (VStr "important") d)
             = Some (py_get_default "x-ms-visibility" (VStr "important") s)).
  { intros d Hd. rewrite DictFacts.get_setdefault, Hd. unfold py_get_default.
    now destruct (Dict.get "x-ms-visibility" s). }
  assert (Hbasic : eq_str (py_get "scheme" s) "basic" = true ->
                   eq_str (py_get "scheme" s) "bearer" = false).
  { destruct (py_get "scheme" s); simpl; try discriminate.
    intros E. apply String.eqb_eq in E. now subst. }
  repeat split.
  - intros k Hk.
    assert (Hne : forall x,
               In x ["type"; "scheme"; "name"; "in"; "x-original-http-scheme";
                     "x-ms-visibility"] -> k <> x)
      by (intros x Hx ->; exact (Hk Hx)).
    assert (Hscheme : String.eqb k "scheme" = false)
      by (apply String.eqb_neq, Hne; simpl; auto 10).
    rewrite DictFacts.get_setdefault_other by (apply Hne; simpl; auto 10).
    destruct (eq_str (py_get "type" s) "http"); auto.
    destruct (eq_str (py_get "scheme" s) "basic").
    { rewrite DictFacts.get_pop, Hscheme.
      apply DictFacts.get_set_other. intros E. symmetry in E. revert E.
      apply Hne. simpl. auto 10. }
    destruct (eq_str (py_get "scheme" s) "bearer"); auto.
    rewrite DictFacts.get_pop, Hscheme.
    rewrite !DictFacts.get_set_other; auto;
      intros E; symmetry in E; revert E; apply Hne; simpl; auto 10.
  - apply Hvis.
    destruct (eq_str (py_get "type" s) "http"); auto.
    destruct (eq_str (py_get "scheme" s) "basic").
    { rewrite DictFacts.get_pop. simpl.
      now rewrite DictFacts.get_set_other by discriminate. }
    destruct (eq_str (py_get "scheme" s) "bearer"); auto.
    rewrite DictFacts.get_pop. simpl.
    now rewrite !DictFacts.get_set_other by discriminate.
  - rewrite H, H0. cbv iota. rewrite DictFacts.get_setdefault_other by discriminate.
    rewrite DictFacts.get_pop. simpl. apply DictFacts.get_set_same.
  - rewrite H, H0. cbv iota. rewrite DictFacts.get_setdefault_other by discriminate.
    rewrite DictFacts.get_pop. reflexivity.
  - rewrite H, (bearer_is_not_basic s H0), H0. cbv iota.
    rewrite DictFacts.get_setdefault_other by discriminate.
    rewrite DictFacts.get_pop. simpl.
    rewrite !DictFacts.get_set_other by discriminate.
    apply DictFacts.get_set_same.
  - rewrite H, (bearer_is_not_basic s H0), H0. cbv iota.
    rewrite DictFacts.get_setdefault_other by discriminate.
    rewrite DictFacts.get_pop. reflexivity.
  - rewrite H, (bearer_is_not_basic s H0), H0. cbv iota.
    rewrite DictFacts.get_setdefault_other by discriminate.
    rewrite DictFacts.get_pop. simpl.
    rewrite !DictFacts.get_set_other by discriminate.
    rewrite DictFacts.get_set_same. unfold py_get_default.
    now rewrite DictFacts.get_set_other by discriminate.
  - rewrite H, (bearer_is_not_basic s H0), H0. cbv iota.
    rewrite DictFacts.get_setdefault_other by discriminate.
    rewrite DictFacts.get_pop. simpl.
    rewrite !DictFacts.get_set_other by discriminate.
    rewrite DictFacts.get_set_same. unfold py_get_default.
    now rewrite !DictFacts.get_set_other by discriminate.
  - rewrite H, (bearer_is_not_basic s H0), H0. cbv iota.
    rewrite DictFacts.get_setdefault_other by discriminate.
    rewrite DictFacts.get_pop. simpl. apply DictFacts.get_set_same.
  - intros Hplain k Hk.
    rewrite DictFacts.get_setdefault_other by exact Hk.
    destruct (eq_str (py_get "type" s) "http"); auto.
    simpl in Hplain. apply orb_false_iff in Hplain as [-> ->]. reflexivity.
Qed.

Lemma convert_security_scheme_rewrites_witness :
  exists out,
    convert_security_scheme (VDict sample_bearer_scheme) = Some out /\
    Dict.get "type" out = Some (VStr "apiKey") /\
    Dict.get "name" out = Some (VStr "X-Token") /\
    Dict.get "in" out = Some (VStr "header") /\
    Dict.get "scheme" out = None /\
    Dict.get "description" out = Some (VStr "Session token").
Proof.
  destruct (convert_security_scheme (VDict sample_bearer_scheme))
    as [out|] eqn:E; [|discriminate E].
  destruct (convert_security_scheme_rewrites _ _ E)
    as (Hother & _ & _ & Hbearer & _).
  destruct (Hbearer eq_refl eq_refl) as (Ht & Hs & Hn & Hi & _).
  exists out. split; [reflexivity|]. repeat split; auto.
  rewrite Hother; [reflexivity | simpl; intuition discriminate].
Defined.

(** ** Document converter *)

Module DocumentLookup.

Lemma apply_servers_other urlparse servers swagger out k :
  apply_servers urlparse servers swagger = Some out ->
  ~ In k ["host"; "basePath"; "schemes"] ->
  Dict.get k out = Dict.get k swagger.
Proof.
  unfold apply_servers. intros H Hk. simpl in Hk.
  destruct (truthy servers); [|now inversion H].
  destruct servers as [| | | | |[|first rest]|]; try discriminate H.
  bind_inv H. destruct a as [[host base_path] schemes].
  inversion H; subst out.
  repeat match goal with
         | |- context [if ?c then _ else _] => destruct c
         end;
    rewrite ?DictFacts.get_set_other by (intros <-; tauto); reflexivity.
Qed.

(** The parts a converted document is assembled from. *)
Lemma assembled field_order urlparse spec out :
  convert_openapi_to_swagger field_order urlparse (VDict spec) = Some out ->
  exists with_servers components paths converted_paths,
    apply_servers urlparse
      (if truthy (py_get "servers" spec) then py_get "servers" spec
       else VList [])
      [("swagger", VStr "2.0");
       ("info", py_get_default "info" (VDict []) spec);
       ("consumes", VList [VStr "application/json"]);
       ("produces", VList [VStr "application/json"]);
       ("x-ms-connector-metadata",
        VDict [("categories", VList [VStr "eSignature"]);
               ("visibility", VStr "important")])]
    = Some with_servers /\
    convert_components field_order
      (if truthy (py_get "components" spec) then py_get "components" spec
       else VDict []) = Some components /\
    py_get_default "paths" (VDict []) spec = VDict paths /\
    build_dict (fun pi => option_map VDict (convert_path_item field_order pi))
      paths = Some converted_paths /\
    out = Ext.copy spec
            (Dict.set "paths" (VDict converted_paths)
               (Dict.update
                  (copy_if_truthy spec "security"
                     (copy_if_truthy spec "externalDocs"
                        (copy_if_truthy spec "tags" with_servers)))
                  components)).
Proof.
  unfold convert_openapi_to_swagger. intros H. bind_inv H. bind_inv H.
  destruct (py_get_default "paths" (VDict []) spec) as [| | | | | |paths];
    try discriminate H.
  bind_inv H. inversion H; subst out.
  exists a, a0, paths, a1. repeat split; assumption.
Qed.

(** What the document holds under a key that is neither an extension, nor
    [paths], nor a key of the converted components. *)
Lemma plain_get field_order urlparse spec out k :
  convert_openapi_to_swagger field_order urlparse (VDict spec) = Some out ->
  startswith k "x-" = false -> k <> "paths" ->
  ~ In k (map snd COMPONENT_SECTIONS) ->
  exists with_servers,
    apply_servers urlparse
      (if truthy (py_get "servers" spec) then py_get "servers" spec
       else VList [])
      [("swagger", VStr "2.0");
       ("info", py_get_default "info" (VDict []) spec);
       ("consumes", VList [VStr "application/json"]);
       ("produces", VList [VStr "application/json"]);
       ("x-ms-connector-metadata",
        VDict [("categories", VList [VStr "eSignature"]);
               ("visibility", VStr "important")])]
    = Some with_servers /\
    Dict.get k out =
    if existsb (String.eqb k) ["tags"; "externalDocs"; "security"]
    then if truthy (py_get k spec) then Dict.get k spec else None
    else Dict.get k with_servers.
Proof.
  intros H Hx Hp Hc.
  destruct (assembled _ _ _ _ H)
    as (ws & components & paths & cp & Hws & Hcomp & _ & _ & ->).
  exists ws. split; [exact Hws|].
  rewrite ExtFacts.copy_get_other by exact Hx.
  rewrite DictFacts.get_set_other by congruence.
  rewrite ParameterFacts.update_get_absent
    by (eapply DocumentFacts.components_get_absent; eauto).
  assert (Hself : forall key d,
             Dict.get key d = None ->
             Dict.get key (copy_if_truthy spec key d) =
             if truthy (py_get key spec) then Dict.get key spec else None).
  { intros key d Hd. unfold copy_if_truthy.
    destruct (truthy (py_get key spec)) eqn:T; [|exact Hd].
    rewrite DictFacts.get_set_same. unfold py_get, Dict.item in *.
    now destruct (Dict.get key spec). }
  assert (Hws_none : forall key,
             In key ["tags"; "externalDocs"; "security"] ->
             Dict.get key ws = None).
  { intros key Hkey.
    rewrite (apply_servers_other _ _ _ _ key Hws).
    - simpl in Hkey. destruct Hkey as [<- | [<- | [<- | []]]]; reflexivity.
    - simpl in *. intuition (subst; discriminate). }
  simpl existsb.
  destruct (String.eqb k "tags") eqn:E1.
  { apply String.eqb_eq in E1. subst k.
    rewrite !DocumentFacts.copy_if_truthy_other by discriminate.
    apply Hself, Hws_none. simpl. auto. }
  destruct (String.eqb k "externalDocs") eqn:E2.
  { apply String.eqb_eq in E2. subst k.
    rewrite DocumentFacts.copy_if_truthy_other by discriminate.
    apply Hself. rewrite DocumentFacts.copy_if_truthy_other by discriminate.
    apply Hws_none. simpl. auto. }
  destruct (String.eqb k "security") eqn:E3.
  { apply String.eqb_eq in E3. subst k. apply Hself.
    rewrite !DocumentFacts.copy_if_truthy_other by discriminate.
    apply Hws_none. simpl. auto. }
  simpl. apply String.eqb_neq in E1, E2, E3.
  now rewrite !DocumentFacts.copy_if_truthy_other by assumption.
Qed.

End DocumentLookup.

(** X22: a converted document always has [swagger: "2.0"], the input's
    [info] ([{}] when missing) and [consumes] / [produces] of
    [application/json]; it has [tags], [externalDocs] and [security] exactly
    when the input's are truthy, with the input's value; and apart from
    extensions it has no key outside the target dialect's top-level keys, so
    [openapi], [servers] and [components] never appear in it. *)
Theorem convert_document_top_level :
  forall field_order urlparse spec out,
    convert_openapi_to_swagger field_order urlparse (VDict spec) = Some out ->
    Dict.get "swagger" out = Some (VStr "2.0") /\
    Dict.get "info" out = Some (py_get_default "info" (VDict []) spec) /\
    Dict.get "consumes" out = Some (VList [VStr "application/json"]) /\
    Dict.get "produces" out = Some (VList [VStr "application/json"]) /\
    (forall k,
        In k ["tags"; "externalDocs"; "security"] ->
        Dict.get k out
        = if truthy (py_get k spec) then Dict.get k spec else None) /\
    (forall k,
        startswith k "x-" = false -> ~ In k SWAGGER_KEYS ->
        Dict.get k out = None).
Proof.
  intros field_order urlparse spec out H.
  assert (Hfixed : forall k,
             In k ["swagger"; "info"; "consumes"; "produces"] ->
             Dict.get k out =
             Dict.get k
               [("swagger", VStr "2.0");
                ("info", py_get_default "info" (VDict []) spec);
                ("consumes", VList [VStr "application/json"]);
                ("produces", VList [VStr "application/json"])]).
  { intros k Hk.
    destruct (DocumentLookup.plain_get _ _ _ _ k H) as (ws & Hws & Hget).
    - simpl in Hk. destruct Hk as [<- | [<- | [<- | [<- | []]]]]; reflexivity.
    - simpl in Hk. destruct Hk as [<- | [<- | [<- | [<- | []]]]]; discriminate.
    - simpl in *. intuition (subst; discriminate).
    - rewrite Hget.
      rewrite (DocumentLookup.apply_servers_other _ _ _ _ k Hws)
        by (simpl in *; intuition (subst; discriminate)).
      simpl in Hk. destruct Hk as [<- | [<- | [<- | [<- | []]]]]; reflexivity. }
  split; [apply (Hfixed "swagger"); simpl; auto|].
  split; [apply (Hfixed "info"); simpl; auto|].
  split; [apply (Hfixed "consumes"); simpl; auto|].
  split; [apply (Hfixed "produces"); simpl; auto|].
  split.
  - intros k Hk.
    destruct (DocumentLookup.plain_get _ _ _ _ k H) as (ws & Hws & Hget).
    + simpl in Hk. destruct Hk as [<- | [<- | [<- | []]]]; reflexivity.
    + simpl in Hk. destruct Hk as [<- | [<- | [<- | []]]]; discriminate.
    + simpl in *. intuition (subst; discriminate).
    + rewrite Hget. apply existsb_eqb_in in Hk. now rewrite Hk.
  - intros k Hx Hk.
    assert (Hne : forall x, In x SWAGGER_KEYS -> k <> x)
      by (intros x Hin ->; exact (Hk Hin)).
    destruct (DocumentLookup.plain_get _ _ _ _ k H Hx) as (ws & Hws & Hget).
    + apply Hne. simpl. auto 20.
    + intros Hin. apply Hk. simpl in *. intuition.
    + rewrite Hget.
      assert (E : existsb (String.eqb k) ["tags"; "externalDocs"; "security"]
                  = false).
      { destruct (existsb _ _) eqn:E; auto. apply existsb_eqb_in in E.
        exfalso. apply Hk. simpl in *. intuition. }
      rewrite E.
      rewrite (DocumentLookup.apply_servers_other _ _ _ _ k Hws).
      * simpl.
        rewrite (not_extension_neq k "x-ms-connector-metadata" Hx eq_refl).
        repeat match goal with
               | |- context [String.eqb k ?c] =>
                   let E := fresh "E" in
                   destruct (String.eqb k c) eqn:E;
                   [apply String.eqb_eq in E; exfalso; revert E; apply Hne;
                    simpl; auto 20|]
               end.
        reflexivity.
      * intros Hin. apply Hk. simpl in *. intuition.
Qed.

Lemma convert_document_top_level_witness :
  exists out,
    convert_openapi_to_swagger PARAMETER_PRIMITIVE_FIELDS Url.urlparse
      (VDict sample_document) = Some out /\
    Dict.get "swagger" out = Some (VStr "2.0") /\
    Dict.get "openapi" out = None /\
    Dict.get "servers" out = None.
Proof.
  destruct (convert_openapi_to_swagger PARAMETER_PRIMITIVE_FIELDS Url.urlparse
              (VDict sample_document)) as [out|] eqn:E; [|discriminate E].
  destruct (convert_document_top_level _ _ _ _ E)
    as (Hswagger & _ & _ & _ & _ & Hother).
  exists out. split; [reflexivity|]. split; [exact Hswagger|].
  split; apply Hother; try reflexivity; simpl; intuition discriminate.
Defined.

(** X23: without a [servers] list (absent or empty) the converted document
    has no [host], [basePath] or [schemes]; and a truthy [servers] that is
    neither a list nor a mapping (a URL string, a number) makes the
    conversion raise. *)
Theorem convert_document_without_servers :
  forall field_order urlparse spec,
    (truthy (py_get "servers" spec) = false ->
     forall out,
       convert_openapi_to_swagger field_order urlparse (VDict spec) = Some out ->
       Dict.get "host" out = None /\
       Dict.get "basePath" out = None /\
       Dict.get "schemes" out = None) /\
    (truthy (py_get "servers" spec) = true ->
     (forall servers, py_get "servers" spec <> VList servers) ->
     is_dict (py_get "servers" spec) = false ->
     convert_openapi_to_swagger field_order urlparse (VDict spec) = None).
Proof.
  intros field_order urlparse spec. split.
  - intros Hfalsy out H.
    assert (Hget : forall k,
               In k ["host"; "basePath"; "schemes"] -> Dict.get k out = None).
    { intros k Hk.
      destruct (DocumentLookup.plain_get _ _ _ _ k H) as (ws & Hws & Hget).
      - simpl in Hk. destruct Hk as [<- | [<- | [<- | []]]]; reflexivity.
      - simpl in Hk. destruct Hk as [<- | [<- | [<- | []]]]; discriminate.
      - simpl in *. intuition (subst; discriminate).
      - rewrite Hget. rewrite Hfalsy in Hws. cbn in Hws.
        inversion Hws; subst ws.
        simpl in Hk. destruct Hk as [<- | [<- | [<- | []]]]; reflexivity. }
    repeat split; apply Hget; simpl; auto.
  - intros Htruthy Hshape Hscalar. unfold convert_openapi_to_swagger.
    rewrite Htruthy. unfold apply_servers. rewrite Htruthy.
    destruct (py_get "servers" spec) as [| | | | |servers|];
      try reflexivity; try discriminate Hscalar.
    destruct servers; [discriminate Htruthy|].
    exfalso. eapply Hshape. reflexivity.
Qed.

Lemma convert_document_without_servers_witness :
  exists out,
    convert_openapi_to_swagger PARAMETER_PRIMITIVE_FIELDS Url.urlparse
      (VDict [("info", VDict [("title", VStr "Example")]);
              ("servers", VList [])]) = Some out /\
    Dict.get "host" out = None /\
    convert_openapi_to_swagger PARAMETER_PRIMITIVE_FIELDS Url.urlparse
      (VDict [("servers", VStr "https://api.example.com")]) = None.
Proof.
  destruct (convert_openapi_to_swagger PARAMETER_PRIMITIVE_FIELDS Url.urlparse
              (VDict [("info", VDict [("title", VStr "Example")]);
                      ("servers", VList [])])) as [out|] eqn:E;
    [|discriminate E].
  exists out. split; [reflexivity|]. split.
  - exact (proj1 (proj1 (convert_document_without_servers
                           PARAMETER_PRIMITIVE_FIELDS Url.urlparse
                           [("info", VDict [("title", VStr "Example")]);
                            ("servers", VList [])]) eq_refl out E)).
  - apply (proj2 (convert_document_without_servers PARAMETER_PRIMITIVE_FIELDS
                    Url.urlparse [("servers", VStr "https://api.example.com")]));
      [reflexivity | discriminate | reflexivity].
Defined.

(** X24: the converted document always has a [paths] mapping ([{}] when the
    input has none); for paths that are all different it lists the same
    paths in the same order, each holding the converted path item. *)
Theorem convert_document_paths :
  forall field_order urlparse spec out,
    convert_openapi_to_swagger field_order urlparse (VDict spec) = Some out ->
    exists paths converted,
      py_get_default "paths" (VDict []) spec = VDict paths /\
      Dict.get "paths" out = Some (VDict converted) /\
      (NoDup (Dict.keys paths) ->
       Dict.keys converted = Dict.keys paths /\
       forall path item,
         Dict.get path paths = Some item ->
         Dict.get path converted
         = option_map VDict (convert_path_item field_order item)).
Proof.
  intros field_order urlparse spec out H.
  destruct (DocumentLookup.assembled _ _ _ _ H)
    as (ws & components & paths & cp & _ & _ & Hpaths & Hbuilt & ->).
  exists paths, cp. split; [exact Hpaths|]. split.
  - rewrite ExtFacts.copy_get_other by reflexivity.
    apply DictFacts.get_set_same.
  - intros Hnd. split.
    + apply (map_values_keys _ _ _ _ Hbuilt). exact Hnd.
    + intros path item Hitem.
      exact (build_dict_get _ _ _ _ _ Hbuilt Hnd Hitem).
Qed.

Lemma convert_document_paths_witness :
  exists out converted,
    convert_openapi_to_swagger PARAMETER_PRIMITIVE_FIELDS Url.urlparse
      (VDict sample_paths_document) = Some out /\
    Dict.get "paths" out = Some (VDict converted) /\
    Dict.keys converted = ["/widgets"; "/health"] /\
    Dict.get "/health" converted = Some (VDict []).
Proof.
  destruct (convert_openapi_to_swagger PARAMETER_PRIMITIVE_FIELDS Url.urlparse
              (VDict sample_paths_document)) as [out|] eqn:E; [|discriminate E].
  destruct (convert_document_paths _ _ _ _ E)
    as (paths & converted & Hpaths & Hget & Hrest).
  cbv in Hpaths. inversion Hpaths; subst paths.
  destruct Hrest as [Hkeys Hitems].
  { repeat constructor; simpl; intuition discriminate. }
  exists out, converted. split; [reflexivity|]. repeat split; auto.
  rewrite (Hitems "/health" (VDict []) eq_refl). reflexivity.
Defined.

(** ** Header converter *)


